(** * Collaborative editing and versioning of the EriEthio Partners CMS

    A shallow embedding of [src/lib/collaboration/CollaborationManager.ts]
    and [src/lib/versioning/VersionManager.ts], and the properties of the
    session registry (membership, locks, operation log, history) and of
    the version store (revert, compare, tags, queries, branches, merge).

    Conventions of the embedding:
    - a [Date] is its millisecond value ([Z]); [new Date()] and [Date.now()]
      read the instant [now] at which the method runs;
    - a JS [Map<string, _>] is a [gmap string _]; an array is a [list];
    - the Prisma client is a record of tables together with the log of the
      calls made and an oracle that says which calls throw;
    - an [async] method is a computation in a state-and-exception monad and
      runs to completion; [await] is sequencing. *)

From Stdlib Require Import ZArith String List Lia.
From Stdlib Require Sorted.
From stdpp Require Import base option gmap strings list fin_maps.

#[local] Set Warnings "-clear-no-such-hyp".

Local Open Scope string_scope.
Local Open Scope list_scope.
Local Open Scope Z_scope.

(** ** Exceptions and the method monad *)

Module Js.

(** What a [throw] carries: an [Error] built by the repository's code, or
    an error raised by the Prisma client. Both have a [message]. *)
Inductive Thrown : Type :=
| Error (msg : string)
| PrismaError (msg : string).

Definition message (e : Thrown) : string :=
  match e with
  | Error m => m
  | PrismaError m => m
  end.

Inductive Outcome (A : Type) : Type :=
| Ret (a : A)
| Throw (e : Thrown).
Arguments Ret {A} a.
Arguments Throw {A} e.

Definition M (S A : Type) : Type := S -> Outcome A * S.

Definition ret {S A} (a : A) : M S A := fun s => (Ret a, s).

Definition throw {S A} (e : Thrown) : M S A := fun s => (Throw e, s).

Definition bind {S A B} (m : M S A) (k : A -> M S B) : M S B :=
  fun s =>
    match m s with
    | (Ret a, s') => k a s'
    | (Throw e, s') => (Throw e, s')
    end.

Definition gets {S A} (f : S -> A) : M S A := fun s => (Ret (f s), s).

Definition modify {S} (f : S -> S) : M S unit := fun s => (Ret tt, f s).

(** [try { m } catch (error) { h error }] *)
Definition try_catch {S A} (m : M S A) (h : Thrown -> M S A) : M S A :=
  fun s =>
    match m s with
    | (Ret a, s') => (Ret a, s')
    | (Throw e, s') => h e s'
    end.

(** [await Promise.all([m1, m2])]: both computations are started, so the
    second runs whether or not the first throws; the result is both
    values, or the rejection (the first one, when both reject). *)
Definition promise_all2 {S A B} (m1 : M S A) (m2 : M S B) : M S (A * B) :=
  fun s =>
    let '(r1, s1) := m1 s in
    let '(r2, s2) := m2 s1 in
    match r1, r2 with
    | Ret a, Ret b => (Ret (a, b), s2)
    | Throw e, _ => (Throw e, s2)
    | Ret _, Throw e => (Throw e, s2)
    end.

(** Run a computation on a component of the state. *)
Definition zoom {S T A} (get : S -> T) (set : T -> S -> S) (m : M T A) : M S A :=
  fun s => let '(r, t) := m (get s) in (r, set t s).

End Js.

Import Js.

Notation "'do' x <- m ; k" := (bind m (fun x => k))
  (at level 10, x name, m at level 100, k at level 200).

(** ** Data model *)

(** [interface Operation] *)
Inductive OperationType : Type := OpInsert | OpDelete | OpReplace | OpMove.

Record Operation : Type := mkOperation {
  op_type : OperationType;
  op_position : Z;
  op_content : option string;
  op_length : option Z;
  op_newPosition : option Z;
  op_userId : string;
  op_timestamp : Z
}.

(** An element of [CollaborationSession.users]. *)
Record SessionUser : Type := mkSessionUser {
  su_id : string;
  su_name : string;
  su_cursor : option (Z * Z);
  su_selection : option (Z * Z)
}.

(** [CollaborationSession.locked] *)
Record Lock : Type := mkLock {
  lock_userId : string;
  lock_until : Z
}.

(** [interface CollaborationSession] *)
Record CollaborationSession : Type := mkSession {
  cs_id : string;
  cs_assetId : string;
  cs_users : list SessionUser;
  cs_lastModified : Z;
  cs_locked : option Lock
}.

(** [interface Change]; the diff spans are those of diff-match-patch, a
    pair of an operation code (-1, 0, 1) and a text. *)
Inductive ChangeType : Type := ChAdd | ChModify | ChDelete.

Definition Diff : Type := (Z * string)%type.

Inductive Metadata : Type :=
| MetaDiffs (diffs : list Diff)
| MetaOther (json : string).

Record Change : Type := mkChange {
  ch_type : ChangeType;
  ch_path : string;
  ch_content : option string;
  ch_previousContent : option string;
  ch_metadata : option Metadata
}.

(** [interface Version], which is also the row of [assetVersion]: the
    column [changes] holds [JSON.stringify(changes)] and every reader
    applies [JSON.parse] to it, so the row is kept with the parsed list.
    [metadata] is the JSON text of the object ([{}] at creation). *)
Record Version : Type := mkVersion {
  v_id : string;
  v_assetId : string;
  v_userId : string;
  v_timestamp : Z;
  v_changes : list Change;
  v_metadata : string;
  v_tags : list string;
  v_description : string
}.

(** ** The Prisma client (the durable store) *)

Module Prisma.

(** The columns of [user] that the code reads. *)
Record UserRow : Type := mkUserRow {
  user_id : string;
  user_name : option string
}.

(** A row of [assetHistory]; [data] holds [JSON.stringify(operation)]
    and [getAssetHistory] parses it back, so the operation is kept. *)
Record AssetHistoryRow : Type := mkAssetHistoryRow {
  ah_assetId : string;
  ah_userId : string;
  ah_operation : OperationType;
  ah_data : Operation;
  ah_timestamp : Z
}.

(** A row of [assetLock], which is unique by [assetId] (the key of the
    table below). *)
Record AssetLockRow : Type := mkAssetLockRow {
  al_userId : string;
  al_expiresAt : Z
}.

Inductive Call : Type :=
| user_findUnique (id : string)
| assetHistory_create (row : AssetHistoryRow)
| assetHistory_findMany (assetId : string)
| assetLock_upsert (assetId : string) (row : AssetLockRow)
| assetLock_delete (assetId : string)
| assetLock_deleteMany (now : Z)
| assetVersion_create (row : Version)
| assetVersion_findUnique (id : string)
| assetVersion_update_push (id : string) (tag : string)
| assetVersion_update_tags (id : string) (tags : list string).

(** The tables, the calls made so far (oldest first), and the oracle:
    the call number [n] (counting from 0) throws a client error with
    message [msg] when [faults n = Some msg]. *)
Record Store : Type := mkStore {
  user : gmap string UserRow;
  assetHistory : list AssetHistoryRow;
  assetLock : gmap string AssetLockRow;
  assetVersion : list Version;
  calls : list Call;
  faults : nat -> option string
}.

Definition log_call (c : Call) (db : Store) : Store :=
  mkStore (user db) (assetHistory db) (assetLock db) (assetVersion db)
          (calls db ++ [c]) (faults db).

Definition set_assetHistory (t : list AssetHistoryRow) (db : Store) : Store :=
  mkStore (user db) t (assetLock db) (assetVersion db) (calls db) (faults db).

Definition set_assetLock (t : gmap string AssetLockRow) (db : Store) : Store :=
  mkStore (user db) (assetHistory db) t (assetVersion db) (calls db) (faults db).

Definition set_assetVersion (t : list Version) (db : Store) : Store :=
  mkStore (user db) (assetHistory db) (assetLock db) t (calls db) (faults db).

(** Every call is logged; it throws when the oracle says so, and runs
    on the tables otherwise. *)
Definition call {A} (c : Call) (body : M Store A) : M Store A :=
  fun db =>
    match faults db (length (calls db)) with
    | Some msg => (Throw (PrismaError msg), log_call c db)
    | None => body (log_call c db)
    end.

Definition record_not_found : string := "Record to delete does not exist.".
Definition record_to_update_not_found : string := "Record to update not found.".
Definition unique_constraint_failed : string := "Unique constraint failed on the fields: (`id`)".

Module user_.
Definition findUnique (id : string) : M Store (option UserRow) :=
  call (user_findUnique id) (gets (fun db => user db !! id)).
End user_.

Module assetHistory_.
Definition create (row : AssetHistoryRow) : M Store unit :=
  call (assetHistory_create row)
       (modify (fun db => set_assetHistory (assetHistory db ++ [row]) db)).
End assetHistory_.

Module assetLock_.
Definition upsert (assetId : string) (row : AssetLockRow) : M Store unit :=
  call (assetLock_upsert assetId row)
       (modify (fun db => set_assetLock (<[assetId := row]> (assetLock db)) db)).

(** [delete] of a row that does not exist throws. *)
Definition delete_ (assetId : string) : M Store unit :=
  call (assetLock_delete assetId)
       (fun db =>
          match assetLock db !! assetId with
          | Some _ => (Ret tt, set_assetLock (base.delete assetId (assetLock db)) db)
          | None => (Throw (PrismaError record_not_found), db)
          end).

(** [deleteMany({ where: { expiresAt: { lt: now } } })] *)
Definition deleteMany_expired (now : Z) : M Store unit :=
  call (assetLock_deleteMany now)
       (modify (fun db =>
          set_assetLock (base.filter (fun kv => ~ (al_expiresAt kv.2 < now)) (assetLock db)) db)).
End assetLock_.

Module assetVersion_.
Definition find_by_id (id : string) (t : list Version) : option Version :=
  List.find (fun v => String.eqb (v_id v) id) t.

(** [id] is the key of the table: a second row with the same id is
    refused. *)
Definition create (row : Version) : M Store unit :=
  call (assetVersion_create row)
       (fun db =>
          match find_by_id (v_id row) (assetVersion db) with
          | Some _ => (Throw (PrismaError unique_constraint_failed), db)
          | None => (Ret tt, set_assetVersion (assetVersion db ++ [row]) db)
          end).

Definition findUnique (id : string) : M Store (option Version) :=
  call (assetVersion_findUnique id)
       (gets (fun db => find_by_id id (assetVersion db))).

Definition set_tags (tags : list string) (v : Version) : Version :=
  mkVersion (v_id v) (v_assetId v) (v_userId v) (v_timestamp v)
            (v_changes v) (v_metadata v) tags (v_description v).

(** Apply [f] to the tags of the row with key [id]. *)
Fixpoint update_tags_in (id : string) (f : list string -> list string)
         (t : list Version) : list Version :=
  match t with
  | [] => []
  | v :: t' =>
      if String.eqb (v_id v) id
      then set_tags (f (v_tags v)) v :: t'
      else v :: update_tags_in id f t'
  end.

Definition update_with (c : Call) (id : string) (f : list string -> list string)
  : M Store unit :=
  call c
       (fun db =>
          match find_by_id id (assetVersion db) with
          | Some _ => (Ret tt, set_assetVersion (update_tags_in id f (assetVersion db)) db)
          | None => (Throw (PrismaError record_to_update_not_found), db)
          end).

(** [update({ where: { id }, data: { tags: { push: tag } } })] *)
Definition update_push_tag (id : string) (tag : string) : M Store unit :=
  update_with (assetVersion_update_push id tag) id (fun tags => (tags ++ [tag])%list).

(** [update({ where: { id }, data: { tags } })] *)
Definition update_tags (id : string) (tags : list string) : M Store unit :=
  update_with (assetVersion_update_tags id tags) id (fun _ => tags).
End assetVersion_.

End Prisma.

(** ** [class CollaborationManager] *)

Module CollaborationManager.

(** What the server emits on the channel: the payload, and whether it
    goes to the socket of the handler ([socket.emit]), to the other
    sockets of a room ([socket.to(room).emit]) or to the whole room
    ([io.to(room).emit]). *)
Inductive Payload : Type :=
| PError (msg : string)
| PSessionState (session : option CollaborationSession) (ops : list Operation)
| PUsers (us : list SessionUser)
| PCursorUpdate (userId : string) (cursor : Z * Z)
| PSelectionUpdate (userId : string) (selection : Z * Z)
| POperation (op : Operation)
| PLockState (locked : option Lock).

Inductive Target : Type :=
| ToSender
| ToOthers (room : string)
| ToRoom (room : string).

Record Emit : Type := mkEmit {
  em_target : Target;
  em_event : string;
  em_payload : Payload
}.

(** The fields of the manager ([sessions], [operations], [prisma]) and
    what [io] and the sockets have emitted so far (oldest first). *)
Record World : Type := mkWorld {
  sessions : gmap string CollaborationSession;
  operations : gmap string (list Operation);
  prisma : Prisma.Store;
  emitted : list Emit
}.

Definition LOCK_DURATION : Z := 5 * 60 * 1000.

Definition set_sessions (m : gmap string CollaborationSession) (w : World) : World :=
  mkWorld m (operations w) (prisma w) (emitted w).

Definition set_operations (m : gmap string (list Operation)) (w : World) : World :=
  mkWorld (sessions w) m (prisma w) (emitted w).

Definition set_prisma (db : Prisma.Store) (w : World) : World :=
  mkWorld (sessions w) (operations w) db (emitted w).

Definition emit (t : Target) (event : string) (p : Payload) : M World unit :=
  modify (fun w => mkWorld (sessions w) (operations w) (prisma w)
                           (emitted w ++ [mkEmit t event p])).

(** A call of [this.prisma]. *)
Definition db {A} (m : M Prisma.Store A) : M World A := zoom prisma set_prisma m.

(** A session object is shared between the map and the local variable
    that holds it: a write to a field of [session] is a write to the
    entry of [sessions] under its key. *)
Definition store_session (sessionId : string) (s : CollaborationSession) : M World unit :=
  modify (fun w => set_sessions (<[sessionId := s]> (sessions w)) w).

Definition set_users (us : list SessionUser) (s : CollaborationSession) : CollaborationSession :=
  mkSession (cs_id s) (cs_assetId s) us (cs_lastModified s) (cs_locked s).

Definition set_lastModified (t : Z) (s : CollaborationSession) : CollaborationSession :=
  mkSession (cs_id s) (cs_assetId s) (cs_users s) t (cs_locked s).

Definition set_locked (l : option Lock) (s : CollaborationSession) : CollaborationSession :=
  mkSession (cs_id s) (cs_assetId s) (cs_users s) (cs_lastModified s) l.

Definition has_id (userId : string) (u : SessionUser) : bool :=
  String.eqb (su_id u) userId.

Definition joinSession (sessionId : string) (user_id user_name : string) (now : Z)
  : M World unit :=
  do session <-
    (fun w =>
       match sessions w !! sessionId with
       | Some s => (Ret s, w)
       | None =>
           let s := mkSession sessionId sessionId [] now None in
           (Ret s, set_operations (<[sessionId := []]> (operations w))
                     (set_sessions (<[sessionId := s]> (sessions w)) w))
       end);
  match List.find (has_id user_id) (cs_users session) with
  | Some _ => ret tt
  | None =>
      store_session sessionId
        (set_users (cs_users session ++ [mkSessionUser user_id user_name None None]) session)
  end.

Definition leaveSession (sessionId userId : string) : M World unit :=
  do found <- gets (fun w => sessions w !! sessionId);
  match found with
  | None => ret tt
  | Some session =>
      let users' := List.filter (fun u => negb (has_id userId u)) (cs_users session) in
      do _ <- store_session sessionId (set_users users' session);
      if (length users' =? 0)%nat
      then
        do _ <- modify (fun w => set_sessions (base.delete sessionId (sessions w)) w);
        modify (fun w => set_operations (base.delete sessionId (operations w)) w)
      else ret tt
  end.

Definition getSessionState (sessionId : string) : M World Payload :=
  gets (fun w => PSessionState (sessions w !! sessionId)
                               (default [] (operations w !! sessionId))).

(** [users.find(u => u.id === userId)] followed by a write to a field of
    the user found: the first match is replaced. *)
Fixpoint update_first (userId : string) (f : SessionUser -> SessionUser)
         (us : list SessionUser) : list SessionUser :=
  match us with
  | [] => []
  | u :: us' => if has_id userId u then f u :: us' else u :: update_first userId f us'
  end.

Definition updateUserCursor (sessionId userId : string) (cursor : Z * Z) : M World unit :=
  do found <- gets (fun w => sessions w !! sessionId);
  match found with
  | None => ret tt
  | Some session =>
      store_session sessionId
        (set_users (update_first userId
                      (fun u => mkSessionUser (su_id u) (su_name u) (Some cursor) (su_selection u))
                      (cs_users session)) session)
  end.

Definition updateUserSelection (sessionId userId : string) (selection : Z * Z)
  : M World unit :=
  do found <- gets (fun w => sessions w !! sessionId);
  match found with
  | None => ret tt
  | Some session =>
      store_session sessionId
        (set_users (update_first userId
                      (fun u => mkSessionUser (su_id u) (su_name u) (su_cursor u) (Some selection))
                      (cs_users session)) session)
  end.

Definition history_row (sessionId : string) (operation : Operation) : Prisma.AssetHistoryRow :=
  Prisma.mkAssetHistoryRow sessionId (op_userId operation) (op_type operation)
                           operation (op_timestamp operation).

Definition applyOperation (sessionId : string) (operation : Operation) : M World unit :=
  do buffer <- gets (fun w => operations w !! sessionId);
  match buffer with
  | None => ret tt
  | Some ops =>
      do _ <- modify (fun w =>
                set_operations (<[sessionId := (ops ++ [operation])%list]> (operations w)) w);
      do found <- gets (fun w => sessions w !! sessionId);
      do _ <- match found with
              | Some session =>
                  store_session sessionId (set_lastModified (op_timestamp operation) session)
              | None => ret tt
              end;
      db (Prisma.assetHistory_.create (history_row sessionId operation))
  end.

Definition broadcastOperation (sessionId : string) (operation : Operation) : M World unit :=
  emit (ToRoom sessionId) "operation" (POperation operation).

Definition broadcastUserList (sessionId : string) : M World unit :=
  do found <- gets (fun w => sessions w !! sessionId);
  match found with
  | None => ret tt
  | Some session => emit (ToRoom sessionId) "users" (PUsers (cs_users session))
  end.

Definition session_not_found : Thrown := Error "Session not found".
Definition locked_by_another_user : Thrown := Error "Asset is locked by another user".
Definition not_the_lock_owner : Thrown := Error "Cannot release lock: not the lock owner".

Definition lockAsset (sessionId userId : string) (now : Z) : M World unit :=
  do found <- gets (fun w => sessions w !! sessionId);
  match found with
  | None => throw session_not_found
  | Some session =>
      let grant :=
        let locked := mkLock userId (now + LOCK_DURATION) in
        do _ <- store_session sessionId (set_locked (Some locked) session);
        db (Prisma.assetLock_.upsert sessionId
              (Prisma.mkAssetLockRow userId (lock_until locked))) in
      match cs_locked session with
      | Some l =>
          if lock_until l >? now
          then if negb (String.eqb (lock_userId l) userId)
               then throw locked_by_another_user
               else ret tt
          else grant
      | None => grant
      end
  end.

Definition releaseLock (sessionId userId : string) : M World unit :=
  do found <- gets (fun w => sessions w !! sessionId);
  match found with
  | None => throw session_not_found
  | Some session =>
      match cs_locked session with
      | None => throw not_the_lock_owner
      | Some l =>
          if negb (String.eqb (lock_userId l) userId)
          then throw not_the_lock_owner
          else
            do _ <- store_session sessionId (set_locked None session);
            db (Prisma.assetLock_.delete_ sessionId)
      end
  end.

Definition canUserEdit (sessionId userId : string) (now : Z) : M World bool :=
  do found <- gets (fun w => sessions w !! sessionId);
  match found with
  | None => ret false
  | Some session =>
      match cs_locked session with
      | None => ret true
      | Some l =>
          if lock_until l <=? now
          then
            do _ <- store_session sessionId (set_locked None session);
            ret true
          else ret (String.eqb (lock_userId l) userId)
      end
  end.

Definition broadcastLockState (sessionId : string) : M World unit :=
  do found <- gets (fun w => sessions w !! sessionId);
  match found with
  | None => ret tt
  | Some session => emit (ToRoom sessionId) "lock-state" (PLockState (cs_locked session))
  end.

Definition getActiveUsers (assetId : string) : M World (list SessionUser) :=
  gets (fun w => match sessions w !! assetId with
                 | Some session => cs_users session
                 | None => []
                 end).

(** The keys of the sessions without users, which [cleanup] deletes from
    both maps. *)
Definition empty_session_ids (ss : gmap string CollaborationSession) : list string :=
  (map_to_list (base.filter (fun kv => length (cs_users kv.2) = 0%nat) ss)).*1.

Definition cleanup (now : Z) : M World unit :=
  do _ <- db (Prisma.assetLock_.deleteMany_expired now);
  modify (fun w =>
    let ids := empty_session_ids (sessions w) in
    set_operations (foldr base.delete (operations w) ids)
      (set_sessions (foldr base.delete (sessions w) ids) w)).

(** *** The handlers of a connection ([setupSocketHandlers]) *)

(** The variables [userId] and [sessionId] of the closure of one
    connection; they are unset until the first [join]. *)
Record Socket : Type := mkSocket {
  sock_userId : option string;
  sock_sessionId : option string
}.

(** The value of a variable that passes [if (!x) return]: set, and not
    the empty string. *)
Definition truthy (x : option string) : option string :=
  match x with
  | Some s => if String.eqb s EmptyString then None else Some s
  | None => None
  end.

(** [if (!sessionId || !userId) return;] *)
Definition with_ids (sock : Socket) (k : string -> string -> M World unit) : M World unit :=
  match truthy (sock_sessionId sock), truthy (sock_userId sock) with
  | Some sessionId, Some userId => k sessionId userId
  | _, _ => ret tt
  end.

(** [join] assigns both variables before anything else. *)
Definition socket_after_join (data_userId data_assetId : string) : Socket :=
  mkSocket (Some data_userId) (Some data_assetId).

(** [socket.join(sessionId)], which puts the socket in the room of the
    session, is left to the transport: an emit names its room. *)
Definition on_join (data_userId data_assetId : string) (now : Z) : M World unit :=
  let userId := data_userId in
  let sessionId := data_assetId in
  do user <- db (Prisma.user_.findUnique userId);
  match user with
  | None => emit ToSender "error" (PError "User not found")
  | Some user =>
      let name := match truthy (Prisma.user_name user) with
                  | Some n => n
                  | None => "Anonymous"
                  end in
      do _ <- joinSession sessionId (Prisma.user_id user) name now;
      do state <- getSessionState sessionId;
      do _ <- emit ToSender "session-state" state;
      broadcastUserList sessionId
  end.

Definition on_cursor_move (sock : Socket) (data : Z * Z) : M World unit :=
  with_ids sock (fun sessionId userId =>
    do _ <- updateUserCursor sessionId userId data;
    emit (ToOthers sessionId) "cursor-update" (PCursorUpdate userId data)).

Definition on_selection_change (sock : Socket) (data : Z * Z) : M World unit :=
  with_ids sock (fun sessionId userId =>
    do _ <- updateUserSelection sessionId userId data;
    emit (ToOthers sessionId) "selection-update" (PSelectionUpdate userId data)).

(** [{ ...data, userId, timestamp: new Date() }] *)
Definition stamp (data : Operation) (userId : string) (now : Z) : Operation :=
  mkOperation (op_type data) (op_position data) (op_content data) (op_length data)
              (op_newPosition data) userId now.

Definition report (error : Thrown) : M World unit :=
  emit ToSender "error" (PError (message error)).

Definition on_operation (sock : Socket) (data : Operation) (now : Z) : M World unit :=
  with_ids sock (fun sessionId userId =>
    try_catch
      (do allowed <- canUserEdit sessionId userId now;
       if negb allowed
       then emit ToSender "error" (PError "Asset is locked by another user")
       else
         let operation := stamp data userId now in
         do _ <- applyOperation sessionId operation;
         broadcastOperation sessionId operation)
      report).

Definition on_request_lock (sock : Socket) (now : Z) : M World unit :=
  with_ids sock (fun sessionId userId =>
    try_catch
      (do _ <- lockAsset sessionId userId now;
       broadcastLockState sessionId)
      report).

Definition on_release_lock (sock : Socket) : M World unit :=
  with_ids sock (fun sessionId userId =>
    try_catch
      (do _ <- releaseLock sessionId userId;
       broadcastLockState sessionId)
      report).

Definition on_disconnect (sock : Socket) : M World unit :=
  with_ids sock (fun sessionId userId =>
    do _ <- leaveSession sessionId userId;
    broadcastUserList sessionId).

(** *** The states the manager can be in *)

Inductive Event : Type :=
| EvJoin (data_userId data_assetId : string)
| EvCursorMove (sock : Socket) (data : Z * Z)
| EvSelectionChange (sock : Socket) (data : Z * Z)
| EvOperation (sock : Socket) (data : Operation)
| EvRequestLock (sock : Socket)
| EvReleaseLock (sock : Socket)
| EvDisconnect (sock : Socket)
| EvCleanup.

Definition handle (ev : Event) (now : Z) : M World unit :=
  match ev with
  | EvJoin u a => on_join u a now
  | EvCursorMove sock data => on_cursor_move sock data
  | EvSelectionChange sock data => on_selection_change sock data
  | EvOperation sock data => on_operation sock data now
  | EvRequestLock sock => on_request_lock sock now
  | EvReleaseLock sock => on_release_lock sock
  | EvDisconnect sock => on_disconnect sock
  | EvCleanup => cleanup now
  end.

(** The constructor leaves both maps empty. *)
Definition initial (store : Prisma.Store) : World := mkWorld ∅ ∅ store [].

(** A state is reachable when the manager gets to it from its
    construction by handling events, each to its end. *)
Inductive reachable : World -> Prop :=
| reachable_initial store : reachable (initial store)
| reachable_handle w ev now : reachable w -> reachable (handle ev now w).2.

(** The two maps have the same keys. *)
Definition buffers_match (w : World) : Prop :=
  dom (sessions w) = dom (operations w).

(** [userId] holds the lock of [session] at [now]. *)
Definition holds_lock (session : CollaborationSession) (userId : string) (now : Z) : Prop :=
  exists l, cs_locked session = Some l /\ lock_userId l = userId /\ now < lock_until l.

(** The lock of [session] is absent, or its [until] has passed. *)
Definition lock_free (session : CollaborationSession) (now : Z) : Prop :=
  match cs_locked session with
  | None => True
  | Some l => lock_until l <= now
  end.

(** [userId] passes the edit check of [session] at [now]. *)
Definition may_edit (session : CollaborationSession) (userId : string) (now : Z) : Prop :=
  lock_free session now \/ holds_lock session userId now.

(** The session as the edit check leaves it: an expired lock is
    deleted. *)
Definition after_edit_check (now : Z) (session : CollaborationSession)
  : CollaborationSession :=
  match cs_locked session with
  | Some l => if lock_until l <=? now then set_locked None session else session
  | None => session
  end.

(** The maps after the operation handler has passed the edit check and
    applied [operation]: the operation is in the buffer and
    [lastModified] is its timestamp. *)
Definition applied (sessionId : string) (session : CollaborationSession)
           (ops : list Operation) (operation : Operation) (w : World) : World :=
  set_operations (<[sessionId := ops ++ [operation]]> (operations w))
    (set_sessions
       (<[sessionId := set_lastModified (op_timestamp operation)
                         (after_edit_check (op_timestamp operation) session)]>
          (sessions w)) w).

Definition set_emitted (es : list Emit) (w : World) : World :=
  mkWorld (sessions w) (operations w) (prisma w) es.

(** The state in which the lock of [session] has been removed. *)
Definition unlock (sessionId : string) (session : CollaborationSession) (w : World) : World :=
  set_sessions (<[sessionId := set_locked None session]> (sessions w)) w.

(** The report of a refused edit. *)
Definition edit_refused : Emit :=
  mkEmit ToSender "error" (PError "Asset is locked by another user").

(** What was emitted between two states. *)
Definition emitted_since (w w' : World) : list Emit :=
  drop (length (emitted w)) (emitted w').

End CollaborationManager.

(** ** Sample states *)

Module Examples.

Import CollaborationManager.

Definition no_faults : nat -> option string := fun _ => None.

Definition all_fail (msg : string) : nat -> option string := fun _ => Some msg.

(** A store with two users and nothing else. *)
Definition store0 (faults : nat -> option string) : Prisma.Store :=
  Prisma.mkStore
    (<["u1" := Prisma.mkUserRow "u1" (Some "Ann")]>
       (<["u2" := Prisma.mkUserRow "u2" None]> ∅))
    [] ∅ [] [] faults.

(** The same store with the row of a lock on ["doc-1"]. *)
Definition store1 (l : Lock) : Prisma.Store :=
  Prisma.mkStore ∅ []
    {[ "doc-1" := Prisma.mkAssetLockRow (lock_userId l) (lock_until l) ]} [] [] no_faults.

Definition ann : SessionUser := mkSessionUser "u1" "Ann" None None.

Definition doc1 (locked : option Lock) : CollaborationSession :=
  mkSession "doc-1" "doc-1" [ann] 0 locked.

(** One session, on ["doc-1"], with Ann in it. *)
Definition world1 (locked : option Lock) (store : Prisma.Store) : World :=
  mkWorld {[ "doc-1" := doc1 locked ]} {[ "doc-1" := [] ]} store [].

(** The manager after [u1] has joined ["doc-1"] at instant 5. *)
Definition joined (faults : nat -> option string) : World :=
  (handle (EvJoin "u1" "doc-1") 5 (initial (store0 faults))).2.

Definition typing : Operation :=
  mkOperation OpInsert 0 (Some "hello") None None EmptyString 0.

Definition sock1 : Socket := socket_after_join "u1" "doc-1".

(** Ann holds a lock that runs until 500, and its row is stored. *)
Definition held : Lock := mkLock "u1" 500.

Definition locked_world : World := world1 (Some held) (store1 held).

(** No lock, and a store whose calls all throw. *)
Definition failing_world : World := world1 None (store0 (all_fail "connection lost")).

(** The manager before any session, and after one join. *)
Definition fresh_world : World := initial (store0 no_faults).

Definition after_join : World := (joinSession "doc-1" "u1" "Ann" 5 fresh_world).2.

(** A connection whose [join] named a user that the store does not
    have: both variables are set and no session was joined. *)
Definition sock9 : Socket := socket_after_join "u9" "doc-1".

Definition unjoined : World := (on_join "u9" "doc-1" 5 fresh_world).2.

End Examples.

(** ** [class VersionManager] *)

Module VersionManager.

Definition version_not_found : Thrown := Error "Version not found".
Definition versions_not_found : Thrown := Error "One or both versions not found".

(** [uuid] is the value of [uuidv4()] and [now] that of [new Date()]. *)
Definition createVersion (uuid : string) (now : Z)
           (assetId userId : string) (changes : list Change)
           (description : string) (tags : list string) : M Prisma.Store Version :=
  let version := mkVersion uuid assetId userId now changes "{}" tags description in
  do _ <- Prisma.assetVersion_.create version;
  ret version.

Definition getVersion (versionId : string) : M Prisma.Store (option Version) :=
  do version <- Prisma.assetVersion_.findUnique versionId;
  match version with
  | None => ret None
  | Some v => ret (Some v)
  end.

Definition has_path (path : string) (c : Change) : bool := String.eqb (ch_path c) path.

(** [new Set(paths)]: iteration follows the order of first insertion. *)
Definition set_add (acc : list string) (path : string) : list string :=
  if existsb (String.eqb path) acc then acc else acc ++ [path].

Definition path_set (paths : list string) : list string := fold_left set_add paths [].

(** The inverse of one change, as in the [switch] of [revertToVersion]. *)
Definition inverse (change : Change) : Change :=
  match ch_type change with
  | ChAdd => mkChange ChDelete (ch_path change) None (ch_content change) None
  | ChDelete => mkChange ChAdd (ch_path change) (ch_previousContent change) None None
  | ChModify => mkChange ChModify (ch_path change) (ch_previousContent change)
                         (ch_content change) None
  end.

Definition revertToVersion (uuid : string) (now : Z)
           (assetId versionId userId : string) : M Prisma.Store Version :=
  do version <- getVersion versionId;
  match version with
  | None => throw version_not_found
  | Some version =>
      let inverseChanges := map inverse (v_changes version) in
      createVersion uuid now assetId userId inverseChanges
                    (String.append "Reverted to version " versionId) ["revert"]
  end.

Definition addTag (versionId tag : string) : M Prisma.Store unit :=
  do version <- Prisma.assetVersion_.findUnique versionId;
  match version with
  | None => throw version_not_found
  | Some _ => Prisma.assetVersion_.update_push_tag versionId tag
  end.

Definition removeTag (versionId tag : string) : M Prisma.Store unit :=
  do version <- Prisma.assetVersion_.findUnique versionId;
  match version with
  | None => throw version_not_found
  | Some version =>
      Prisma.assetVersion_.update_tags versionId
        (List.filter (fun t => negb (String.eqb t tag)) (v_tags version))
  end.

(** The versions of an asset that the store holds. *)
Definition versions_of (assetId : string) (store : Prisma.Store) : list Version :=
  List.filter (fun v => String.eqb (v_assetId v) assetId) (Prisma.assetVersion store).

(** The next two calls of the client return. *)
Definition two_calls_pass (store : Prisma.Store) : Prop :=
  Prisma.faults store (length (Prisma.calls store)) = None /\
  Prisma.faults store (S (length (Prisma.calls store))) = None.

(** The entry of a change list for a path: the first one, as [find]
    returns it. *)
Definition entry (changes : list Change) (path : string) : option Change :=
  List.find (has_path path) changes.

Section Differ.

(** The two methods of [diff_match_patch] that the code calls. *)
Variable diff_main : string -> string -> list Diff.
Variable diff_cleanupSemantic : list Diff -> list Diff.

(** The body of the loop of [compareVersions] for one path. *)
Definition compare_path (changes1 changes2 : list Change) (path : string) : list Change :=
  let change1 := List.find (has_path path) changes1 in
  let change2 := List.find (has_path path) changes2 in
  match change1, change2 with
  | None, _ =>
      [mkChange ChAdd path (c ← change2; ch_content c) None None]
  | Some c1, None =>
      [mkChange ChDelete path None (ch_content c1) None]
  | Some c1, Some c2 =>
      if bool_decide (ch_content c1 = ch_content c2)
      then []
      else
        let diffs := diff_cleanupSemantic
                       (diff_main (default EmptyString (ch_content c1))
                                  (default EmptyString (ch_content c2))) in
        [mkChange ChModify path (ch_content c2) (ch_content c1)
                  (Some (MetaDiffs diffs))]
  end.

Definition compareVersions (versionId1 versionId2 : string)
  : M Prisma.Store (list Change) :=
  do found <- promise_all2 (getVersion versionId1) (getVersion versionId2);
  match found with
  | (Some version1, Some version2) =>
      let paths := path_set (map ch_path (v_changes version1)
                               ++ map ch_path (v_changes version2)) in
      ret (flat_map (compare_path (v_changes version1) (v_changes version2)) paths)
  | _ => throw versions_not_found
  end.

End Differ.

End VersionManager.

Module VersionExamples.

Import VersionManager.

(** A version with one change, and the store that holds it. *)
Definition version_of (id : string) (change : Change) (tags : list string) : Version :=
  mkVersion id "asset-1" "user-1" 1 [change] "{}" tags EmptyString.

Definition store_of (versions : list Version) : Prisma.Store :=
  Prisma.mkStore ∅ [] ∅ versions [] Examples.no_faults.

Definition V1 : Version :=
  version_of "V1" (mkChange ChAdd "/a.txt" (Some "hello") None None) [].

Definition V2 : Version :=
  version_of "V2" (mkChange ChModify "/a.txt" (Some "world") (Some "hello") None) [].

(** A differ that deletes the old text and inserts the new one, and a
    cleanup that changes nothing. *)
Definition replace_all (a b : string) : list Diff := [(-1, a); (1, b)].

Definition keep (diffs : list Diff) : list Diff := diffs.

(** [V1] with the tag ["stable"]. *)
Definition tagged : Version :=
  version_of "V1" (mkChange ChAdd "/a.txt" (Some "hello") None None) ["stable"].

(** The version that reverting to [V1] creates, with id ["V3"] at 7. *)
Definition reverted : Version :=
  mkVersion "V3" "asset-1" "user-2" 7
            [mkChange ChDelete "/a.txt" None (Some "hello") None] "{}"
            ["revert"] "Reverted to version V1".

(** [addTag] of ["stable"] on [V1], once and twice. *)
Definition tagged_once : Outcome unit * Prisma.Store :=
  addTag "V1" "stable" (store_of [V1]).

Definition tagged_twice : Outcome unit * Prisma.Store :=
  addTag "V1" "stable" tagged_once.2.

End VersionExamples.

(** ** What the registry keeps true *)

Module RegistryInvariants.

Import CollaborationManager.

(** A session filed under [key] carries that id, has a member, and has
    no two members with the same id. *)
Definition session_ok (key : string) (s : CollaborationSession) : Prop :=
  cs_id s = key /\ cs_assetId s = key /\
  cs_users s <> [] /\ NoDup (map su_id (cs_users s)).

Definition registry_ok (m : gmap string CollaborationSession) : Prop :=
  forall key s, m !! key = Some s -> session_ok key s.

(** The computation [m] keeps the property [P] of the map of sessions,
    whether it returns or throws. *)
Definition keeps (P : gmap string CollaborationSession -> Prop) {A} (m : M World A) : Prop :=
  forall w, P (sessions w) -> P (sessions (m w).2).

End RegistryInvariants.

(** ** More sample states *)

Module MoreExamples.

Import CollaborationManager Examples.

Definition bob : SessionUser := mkSessionUser "u2" "Bob" None None.

(** Ann and Bob on ["doc-1"], Ann holding the lock until 500, one
    operation in the buffer. *)
Definition doc2 : CollaborationSession :=
  mkSession "doc-1" "doc-1" [ann; bob] 0 (Some held).

Definition shared_world : World :=
  mkWorld {[ "doc-1" := doc2 ]} {[ "doc-1" := [typing] ]} (store1 held) [].

(** Ann alone on ["doc-1"], no lock, a store without faults. *)
Definition open_world : World := world1 None (store0 no_faults).

Definition sock2 : Socket := socket_after_join "u2" "doc-1".

End MoreExamples.

(** ** Views of the version store *)

Module VersionViews.

(** A change without its metadata, and a version without its tags. *)
Definition without_metadata (c : Change) : Change :=
  mkChange (ch_type c) (ch_path c) (ch_content c) (ch_previousContent c) None.

(** The fields of a change that its type uses: the content of an add,
    the previous content of a delete, both for a modify. *)
Definition essential (c : Change) : Change :=
  match ch_type c with
  | ChAdd => mkChange ChAdd (ch_path c) (ch_content c) None None
  | ChDelete => mkChange ChDelete (ch_path c) None (ch_previousContent c) None
  | ChModify => mkChange ChModify (ch_path c) (ch_content c) (ch_previousContent c) None
  end.

Definition without_tags (v : Version) : Version :=
  Prisma.assetVersion_.set_tags [] v.

(** The next [n] calls of the client return. *)
Definition calls_pass (n : nat) (store : Prisma.Store) : Prop :=
  forall k, (k < n)%nat ->
            Prisma.faults store (length (Prisma.calls store) + k) = None.

End VersionViews.

(** ** The queries of the client and the branches *)

Module PrismaQueries.

(** The rest of the client: the table of the branches and the calls
    that read many rows. These calls have a log and an oracle of their
    own, beside those of the store [core] that the calls above use. *)

Record AssetBranchRow : Type := mkAssetBranchRow {
  ab_assetId : string;
  ab_name : string;
  ab_baseVersionId : string;
  ab_createdAt : Z
}.

(** The arguments of [assetVersion.findMany]; an absent bound, tag list,
    [skip] or [take] is [undefined], which the client ignores. *)
Record VersionQuery : Type := mkVersionQuery {
  q_assetId : string;
  q_gte : option Z;
  q_lte : option Z;
  q_hasEvery : option (list string);
  q_skip : option nat;
  q_take : option nat
}.

Inductive Call : Type :=
| assetVersion_findMany (q : VersionQuery)
| assetBranch_create (row : AssetBranchRow)
| assetBranch_findFirst (assetId name : string)
| assetHistory_findMany (assetId : string).

Record Store : Type := mkStore {
  core : Prisma.Store;
  assetBranch : list AssetBranchRow;
  calls : list Call;
  faults : nat -> option string
}.

Definition set_core (db : Prisma.Store) (s : Store) : Store :=
  mkStore db (assetBranch s) (calls s) (faults s).

Definition call {A} (c : Call) (body : M Store A) : M Store A :=
  fun s =>
    let logged := mkStore (core s) (assetBranch s) (calls s ++ [c]) (faults s) in
    match faults s (length (calls s)) with
    | Some msg => (Throw (PrismaError msg), logged)
    | None => body logged
    end.

(** A call of the first part of the client. *)
Definition on_core {A} (m : M Prisma.Store A) : M Store A := zoom core set_core m.

(** [where: { assetId, timestamp: { gte, lte }, tags: { hasEvery } }] *)
Definition has_tag (v : Version) (tag : string) : bool :=
  existsb (String.eqb tag) (v_tags v).

Definition matches (q : VersionQuery) (v : Version) : bool :=
  String.eqb (v_assetId v) (q_assetId q)
  && match q_gte q with Some t => t <=? v_timestamp v | None => true end
  && match q_lte q with Some t => v_timestamp v <=? t | None => true end
  && match q_hasEvery q with Some tags => forallb (has_tag v) tags | None => true end.

(** [orderBy: { timestamp: 'desc' }]. The database leaves open the
    order of rows with the same timestamp; here they keep the order of
    the table. *)
Fixpoint insert_desc (v : Version) (sorted : list Version) : list Version :=
  match sorted with
  | [] => [v]
  | x :: rest =>
      if v_timestamp x <=? v_timestamp v
      then v :: x :: rest
      else x :: insert_desc v rest
  end.

Definition newest_first (t : list Version) : list Version := foldr insert_desc [] t.

Definition skip_rows {A} (n : option nat) (l : list A) : list A :=
  match n with Some k => drop k l | None => l end.

Definition take_rows {A} (n : option nat) (l : list A) : list A :=
  match n with Some k => take k l | None => l end.

(** The rows that the query selects, in the order asked. *)
Definition selected (q : VersionQuery) (t : list Version) : list Version :=
  take_rows (q_take q) (skip_rows (q_skip q) (List.filter (matches q) (newest_first t))).

Definition assetVersion_findMany_ (q : VersionQuery) : M Store (list Version) :=
  call (assetVersion_findMany q)
       (gets (fun s => selected q (Prisma.assetVersion (core s)))).

(** [assetBranch.create]: the code looks branches up with [findFirst],
    so the name is taken not to be a key, and a row is always added. *)
Definition assetBranch_create_ (row : AssetBranchRow) : M Store unit :=
  call (assetBranch_create row)
       (modify (fun s => mkStore (core s) (assetBranch s ++ [row]) (calls s) (faults s))).

Definition assetBranch_findFirst_ (assetId name : string) : M Store (option AssetBranchRow) :=
  call (assetBranch_findFirst assetId name)
       (gets (fun s =>
          List.find (fun b => String.eqb (ab_assetId b) assetId && String.eqb (ab_name b) name)
                    (assetBranch s))).

(** [assetHistory.findMany({ where: { assetId }, orderBy: { timestamp: 'asc' } })],
    rows with the same timestamp in the order of the table. *)
Fixpoint insert_asc (h : Prisma.AssetHistoryRow) (sorted : list Prisma.AssetHistoryRow)
  : list Prisma.AssetHistoryRow :=
  match sorted with
  | [] => [h]
  | x :: rest =>
      if Prisma.ah_timestamp h <=? Prisma.ah_timestamp x
      then h :: x :: rest
      else x :: insert_asc h rest
  end.

Definition oldest_first (t : list Prisma.AssetHistoryRow) : list Prisma.AssetHistoryRow :=
  foldr insert_asc [] t.

Definition assetHistory_findMany_ (assetId : string) : M Store (list Prisma.AssetHistoryRow) :=
  call (assetHistory_findMany assetId)
       (gets (fun s =>
          List.filter (fun h => String.eqb (Prisma.ah_assetId h) assetId)
                      (oldest_first (Prisma.assetHistory (core s))))).

End PrismaQueries.

(** ** [class VersionManager], continued *)

Module VersionQueries.

Import PrismaQueries.

(** The [options] of [getVersions]; [limit] and [offset] are counts. *)
Record Options : Type := mkOptions {
  limit : option nat;
  offset : option nat;
  fromDate : option Z;
  toDate : option Z;
  tags : option (list string)
}.

Definition query_of (assetId : string) (options : Options) : VersionQuery :=
  mkVersionQuery assetId (fromDate options) (toDate options) (tags options)
                 (offset options) (limit options).

Definition getVersions (assetId : string) (options : Options) : M Store (list Version) :=
  do versions <- assetVersion_findMany_ (query_of assetId options);
  ret versions.

Definition getVersionsByTag (assetId tag : string) : M Store (list Version) :=
  getVersions assetId (mkOptions None None None None (Some [tag])).

Definition branch_not_found (branchName : string) : Thrown :=
  Error ("Branch " +:+ branchName +:+ " not found").

Definition getVersionsInBranch (assetId branchName : string) : M Store (list Version) :=
  do branch <- assetBranch_findFirst_ assetId branchName;
  match branch with
  | None => throw (branch_not_found branchName)
  | Some branch =>
      getVersions assetId (mkOptions None None (Some (ab_createdAt branch)) None None)
  end.

Definition base_version_not_found : Thrown := Error "Base version not found".

(** [fromVersionId ? ... : ...] takes the first branch for an id that is
    given and not the empty string. *)
Definition createBranch (now : Z) (assetId branchName : string)
           (fromVersionId : option string) : M Store unit :=
  do baseVersion <-
    match CollaborationManager.truthy fromVersionId with
    | Some id => on_core (VersionManager.getVersion id)
    | None =>
        do versions <- getVersions assetId (mkOptions (Some 1%nat) None None None None);
        ret (head versions)
    end;
  match baseVersion with
  | None => throw base_version_not_found
  | Some baseVersion =>
      assetBranch_create_ (mkAssetBranchRow assetId branchName (v_id baseVersion) now)
  end.

Definition source_or_target_not_found : Thrown := Error "Source or target version not found".

Section Differ.

Variable diff_main : string -> string -> list Diff.
Variable diff_cleanupSemantic : list Diff -> list Diff.

(** The calls of the two lookups of [Promise.all] are logged one lookup
    after the other. *)
Definition mergeBranches (uuid : string) (now : Z)
           (assetId sourceBranch targetBranch userId : string) : M Store Version :=
  do found <- promise_all2 (getVersionsInBranch assetId sourceBranch)
                           (getVersionsInBranch assetId targetBranch);
  match head found.1, head found.2 with
  | Some latestSourceVersion, Some latestTargetVersion =>
      do mergeChanges <-
        on_core (VersionManager.compareVersions diff_main diff_cleanupSemantic
                   (v_id latestSourceVersion) (v_id latestTargetVersion));
      on_core (VersionManager.createVersion uuid now assetId userId mergeChanges
                 ("Merged " +:+ sourceBranch +:+ " into " +:+ targetBranch) ["merge"])
  | _, _ => throw source_or_target_not_found
  end.

End Differ.

End VersionQueries.

(** ** [class CollaborationManager], continued *)

Module CollaborationQueries.

Import PrismaQueries.

(** [history.map(h => JSON.parse(h.data))] *)
Definition getAssetHistory (assetId : string) : M Store (list Operation) :=
  do history <- assetHistory_findMany_ assetId;
  ret (map Prisma.ah_data history).

(** The client of the queries on the store of a manager. *)
Definition queries_on (db : Prisma.Store) (faults : nat -> option string) : Store :=
  mkStore db [] [] faults.

End CollaborationQueries.

(** ** Views of the queries *)

Module QueryViews.

Import PrismaQueries VersionQueries.

(** [a] is not older than [b]; [a] is not later than [b]. *)
Definition not_older (a b : Version) : Prop := v_timestamp b <= v_timestamp a.

Definition not_later (a b : Operation) : Prop := op_timestamp a <= op_timestamp b.

(** What [options] ask of a version of the asset. *)
Definition satisfies (assetId : string) (options : Options) (v : Version) : Prop :=
  v_assetId v = assetId /\
  (forall t, fromDate options = Some t -> t <= v_timestamp v) /\
  (forall t, toDate options = Some t -> v_timestamp v <= t) /\
  (forall wanted tag, tags options = Some wanted -> In tag wanted -> In tag (v_tags v)).

(** The row that [findFirst] returns for a branch of an asset, and the
    options with which [getVersionsInBranch] reads its versions. *)
Definition branch_of (assetId name : string) (s : Store) : option AssetBranchRow :=
  List.find (fun b => String.eqb (ab_assetId b) assetId && String.eqb (ab_name b) name)
            (assetBranch s).

Definition since (time : Z) : Options := mkOptions None None (Some time) None None.

(** The asset has a version at or after [time]. *)
Definition has_version_since (assetId : string) (time : Z) (s : Store) : Prop :=
  exists v, In v (Prisma.assetVersion (core s)) /\ v_assetId v = assetId /\
            time <= v_timestamp v.

(** The store after one more call of the queries. *)
Definition logged (c : Call) (s : Store) : Store :=
  mkStore (core s) (assetBranch s) (calls s ++ [c]) (faults s).

(** The next [n] calls of the queries return. *)
Definition queries_pass (n : nat) (s : Store) : Prop :=
  forall k, (k < n)%nat -> faults s (length (calls s) + k) = None.

(** A store of versions and branches whose calls all return. *)
Definition quiet (versions : list Version) (branches : list AssetBranchRow) : Store :=
  mkStore (VersionExamples.store_of versions) branches [] Examples.no_faults.

(** Three versions of ["asset-1"], at 1, 2 and 3, and one of another
    asset. *)
Definition at_ (id : string) (assetId : string) (time : Z) (tags : list string) : Version :=
  mkVersion id assetId "user-1" time
            [mkChange ChAdd "/a.txt" (Some id) None None] "{}" tags EmptyString.

Definition a1 : Version := at_ "A1" "asset-1" 1 ["stable"].
Definition a2 : Version := at_ "A2" "asset-1" 2 [].
Definition a3 : Version := at_ "A3" "asset-1" 3 ["stable"; "draft"].
Definition b1 : Version := at_ "B1" "asset-2" 5 ["stable"].

Definition main_branch : AssetBranchRow := mkAssetBranchRow "asset-1" "main" "A1" 1.
Definition feature_branch : AssetBranchRow := mkAssetBranchRow "asset-1" "feature" "A2" 2.

Definition library : Store := quiet [a1; b1; a3; a2] [main_branch; feature_branch].

End QueryViews.

(** ** Views of the history *)

Module HistoryViews.

Import CollaborationManager.

(** Row [a] is not later than row [b]. *)
Definition row_not_later (a b : Prisma.AssetHistoryRow) : Prop :=
  Prisma.ah_timestamp a <= Prisma.ah_timestamp b.

Definition of_asset (assetId : string) (h : Prisma.AssetHistoryRow) : bool :=
  String.eqb (Prisma.ah_assetId h) assetId.

(** What [broadcastOperation] emits. *)
Definition broadcast_of (sessionId : string) (operation : Operation) : Emit :=
  mkEmit (ToRoom sessionId) "operation" (POperation operation).

(** Every operation that was broadcast has its row in the history. *)
Definition history_covers (w : World) : Prop :=
  forall sessionId operation,
    In (broadcast_of sessionId operation) (emitted w) ->
    In (history_row sessionId operation) (Prisma.assetHistory (prisma w)).

(** A computation that emits no ["operation"], takes back nothing that
    was emitted, and leaves the rows of the history as they are. *)
Definition silent {A} (m : M World A) : Prop :=
  forall w,
    (exists es, emitted (m w).2 = emitted w ++ es /\
                Forall (fun e => em_event e <> "operation") es) /\
    Prisma.assetHistory (prisma (m w).2) = Prisma.assetHistory (prisma w).

End HistoryViews.

(** * Properties of the session registry *)

Section Registry.

Import CollaborationManager.

Implicit Types (w : World) (session : CollaborationSession)
         (sessionId userId : string) (now : Z).

Lemma holder_unique session u1 u2 now :
  holds_lock session u1 now -> holds_lock session u2 now -> u1 = u2.
Proof.
  intros (l1 & H1 & <- & _) (l2 & H2 & <- & _).
  rewrite H1 in H2. by inversion H2.
Qed.

Lemma lock_free_not_held session l now :
  cs_locked session = Some l -> lock_free session now -> (lock_until l >? now) = false.
Proof.
  unfold lock_free. intros ->. lia.
Qed.

(** The world after [lockAsset] grants the lock. *)
Lemma lockAsset_grants w sessionId session userId now :
  sessions w !! sessionId = Some session ->
  lock_free session now ->
  lockAsset sessionId userId now w =
    db (Prisma.assetLock_.upsert sessionId
          (Prisma.mkAssetLockRow userId (now + LOCK_DURATION)))
       (set_sessions
          (<[sessionId := set_locked (Some (mkLock userId (now + LOCK_DURATION))) session]>
             (sessions w)) w).
Proof.
  intros Hs Hfree. unfold lockAsset, bind, gets. rewrite Hs.
  destruct (cs_locked session) as [l|] eqn:Hl; [|reflexivity].
  rewrite (lock_free_not_held _ _ _ Hl Hfree). reflexivity.
Qed.

(** C1. In a session at most one user holds an unexpired lock.
    [lockAsset] by another user, while the lock is held and unexpired,
    throws "Asset is locked by another user" and changes nothing;
    by the holder it returns and changes nothing ([until] included);
    when the lock is absent or expired it stores the lock
    [{userId, until: now + 300000}] in the session, and upserts the
    row of the lock (the result is that of the upsert). *)
Theorem lock_exclusivity w sessionId session userId now :
  sessions w !! sessionId = Some session ->
  (forall u1 u2, holds_lock session u1 now -> holds_lock session u2 now -> u1 = u2) /\
  (forall holder, holder <> userId -> holds_lock session holder now ->
     lockAsset sessionId userId now w = (Throw locked_by_another_user, w)) /\
  (holds_lock session userId now ->
     lockAsset sessionId userId now w = (Ret tt, w)) /\
  (lock_free session now ->
     let fresh := mkLock userId (now + 5 * 60 * 1000) in
     let w' := (lockAsset sessionId userId now w).2 in
     sessions w' = <[sessionId := set_locked (Some fresh) session]> (sessions w) /\
     operations w' = operations w /\
     emitted w' = emitted w /\
     Prisma.calls (prisma w') =
       Prisma.calls (prisma w)
         ++ [Prisma.assetLock_upsert sessionId (Prisma.mkAssetLockRow userId (lock_until fresh))] /\
     match Prisma.faults (prisma w) (length (Prisma.calls (prisma w))) with
     | None =>
         (lockAsset sessionId userId now w).1 = Ret tt /\
         Prisma.assetLock (prisma w') =
           <[sessionId := Prisma.mkAssetLockRow userId (lock_until fresh)]>
             (Prisma.assetLock (prisma w))
     | Some msg =>
         (lockAsset sessionId userId now w).1 = Throw (PrismaError msg) /\
         Prisma.assetLock (prisma w') = Prisma.assetLock (prisma w)
     end).
Proof.
  intros Hs. split; [|split; [|split]].
  - intros u1 u2. apply holder_unique.
  - intros holder Hne (l & Hl & Hu & Hnow).
    unfold lockAsset, bind, gets. rewrite Hs, Hl.
    replace (lock_until l >? now) with true by lia.
    destruct (String.eqb_spec (lock_userId l) userId) as [E|E]; [congruence|].
    reflexivity.
  - intros (l & Hl & Hu & Hnow).
    unfold lockAsset, bind, gets. rewrite Hs, Hl.
    replace (lock_until l >? now) with true by lia.
    rewrite Hu, String.eqb_refl. reflexivity.
  - intros Hfree. cbv zeta.
    rewrite (lockAsset_grants _ _ _ _ _ Hs Hfree).
    unfold db, zoom, Prisma.assetLock_.upsert, Prisma.call, modify. simpl.
    destruct (Prisma.faults _ _); simpl; auto 10.
Qed.


(** *** The two maps keep the same keys *)

Lemma foldr_delete_dom {V} (ids : list string) (m : gmap string V) :
  dom (foldr base.delete m ids) = dom m ∖ list_to_set ids.
Proof.
  induction ids as [|i ids IH]; simpl.
  - set_solver.
  - rewrite dom_delete_L, IH. set_solver.
Qed.

Ltac run :=
  unfold on_join, on_cursor_move, on_selection_change, on_operation,
    on_request_lock, on_release_lock, on_disconnect, cleanup, with_ids, report,
    joinSession, leaveSession, getSessionState, updateUserCursor,
    updateUserSelection, applyOperation, broadcastOperation, broadcastUserList,
    lockAsset, releaseLock, canUserEdit, broadcastLockState, store_session, emit,
    db, zoom, Prisma.user_.findUnique, Prisma.assetHistory_.create,
    Prisma.assetLock_.upsert, Prisma.assetLock_.delete_,
    Prisma.assetLock_.deleteMany_expired, Prisma.call,
    try_catch, bind, gets, modify, ret, throw;
  simpl.

Ltac dom_solve :=
  unfold buffers_match in *; simpl in *;
  rewrite ?dom_insert_L, ?dom_delete_L, ?foldr_delete_dom;
  repeat match goal with
         | H : _ !! _ = Some _ |- _ => apply elem_of_dom_2 in H
         | H : _ !! _ = None |- _ => apply not_elem_of_dom in H
         end;
  set_solver.

Lemma handle_buffers_match ev now w :
  buffers_match w -> buffers_match (handle ev now w).2.
Proof.
  intros Hw. destruct ev; simpl; run; repeat case_match; simplify_eq/=; try dom_solve.
Qed.


Lemma reachable_buffers_match w : reachable w -> buffers_match w.
Proof.
  induction 1 as [store|w ev now _ IH].
  - reflexivity.
  - by apply handle_buffers_match.
Qed.

Lemma session_has_buffer w sessionId session :
  buffers_match w -> sessions w !! sessionId = Some session ->
  exists ops, operations w !! sessionId = Some ops.
Proof.
  intros Hw Hs. apply elem_of_dom_2 in Hs. rewrite Hw in Hs.
  by apply elem_of_dom in Hs.
Qed.

(** *** The edit check and the operation handler *)

Lemma canUserEdit_allowed w sessionId session userId now :
  sessions w !! sessionId = Some session ->
  may_edit session userId now ->
  (canUserEdit sessionId userId now w).1 = Ret true /\
  sessions (canUserEdit sessionId userId now w).2
    = <[sessionId := after_edit_check now session]> (sessions w) /\
  operations (canUserEdit sessionId userId now w).2 = operations w /\
  prisma (canUserEdit sessionId userId now w).2 = prisma w /\
  emitted (canUserEdit sessionId userId now w).2 = emitted w.
Proof.
  intros Hs Hedit. unfold canUserEdit, after_edit_check, bind, gets, store_session, modify, ret.
  rewrite Hs. destruct (cs_locked session) as [l|] eqn:Hl; simpl.
  - destruct (Z.leb_spec (lock_until l) now) as [Hle|Hgt]; simpl.
    + done.
    + destruct Hedit as [Hfree | (l' & Hl' & Hu & _)].
      * unfold lock_free in Hfree. rewrite Hl in Hfree. lia.
      * rewrite Hl in Hl'. inversion Hl'; subst l'.
        rewrite Hu, String.eqb_refl. by rewrite insert_id.
  - by rewrite insert_id.
Qed.

Lemma canUserEdit_refused w sessionId session userId now :
  sessions w !! sessionId = Some session ->
  ~ may_edit session userId now ->
  canUserEdit sessionId userId now w = (Ret false, w).
Proof.
  intros Hs Hno. unfold canUserEdit, bind, gets, ret. rewrite Hs.
  destruct (cs_locked session) as [l|] eqn:Hl.
  - destruct (Z.leb_spec (lock_until l) now) as [Hle|Hgt].
    + exfalso. apply Hno. left. unfold lock_free. by rewrite Hl.
    + destruct (String.eqb_spec (lock_userId l) userId) as [E|E]; [|done].
      exfalso. apply Hno. right. by exists l.
  - exfalso. apply Hno. left. unfold lock_free. by rewrite Hl.
Qed.

Lemma may_edit_dec session userId now :
  may_edit session userId now \/ ~ may_edit session userId now.
Proof.
  unfold may_edit, lock_free, holds_lock.
  destruct (cs_locked session) as [l|]; [|by left; left].
  destruct (Z.leb_spec (lock_until l) now); [by left; left|].
  destruct (String.eqb_spec (lock_userId l) userId) as [E|E].
  - left. right. by exists l.
  - right. intros [?|(l' & Hl' & ? & ?)]; [lia|]. by inversion Hl'; subst.
Qed.

Lemma with_ids_joined sock sessionId userId (k : string -> string -> M World unit) :
  truthy (sock_sessionId sock) = Some sessionId ->
  truthy (sock_userId sock) = Some userId ->
  with_ids sock k = k sessionId userId.
Proof. unfold with_ids. by intros -> ->. Qed.

(** The operation handler, when the edit check passes: the operation is
    applied, then the row of the history is created; the broadcast
    follows when the call returns, the report of the error when it
    throws. *)
Lemma on_operation_allowed w sock sessionId userId session ops data now :
  truthy (sock_sessionId sock) = Some sessionId ->
  truthy (sock_userId sock) = Some userId ->
  sessions w !! sessionId = Some session ->
  operations w !! sessionId = Some ops ->
  may_edit session userId now ->
  let operation := stamp data userId now in
  let row := history_row sessionId operation in
  let w1 := applied sessionId session ops operation w in
  let logged := Prisma.log_call (Prisma.assetHistory_create row) (prisma w) in
  on_operation sock data now w =
    match Prisma.faults (prisma w) (length (Prisma.calls (prisma w))) with
    | None =>
        (Ret tt,
         set_emitted (emitted w ++ [mkEmit (ToRoom sessionId) "operation" (POperation operation)])
           (set_prisma
              (Prisma.set_assetHistory (Prisma.assetHistory (prisma w) ++ [row]) logged) w1))
    | Some msg =>
        (Ret tt,
         set_emitted (emitted w ++ [mkEmit ToSender "error" (PError msg)])
           (set_prisma logged w1))
    end.
Proof.
  intros Hsid Huid Hs Hops Hedit. cbv zeta.
  unfold on_operation. rewrite (with_ids_joined _ _ _ _ Hsid Huid).
  destruct (canUserEdit_allowed w sessionId session userId now Hs Hedit)
    as (Hr & Hss & Hoo & Hpp & Hee).
  unfold try_catch at 1. unfold bind at 1.
  destruct (canUserEdit sessionId userId now w) as [r w0]. simpl in *. subst r.
  simpl. unfold applyOperation, bind, gets, modify, store_session, broadcastOperation,
    emit, report, db, zoom, Prisma.assetHistory_.create, Prisma.call, ret. simpl.
  rewrite Hoo, Hops. simpl. rewrite Hss, lookup_insert_eq. simpl.
  rewrite Hpp, Hoo, Hss.
  rewrite insert_insert_eq.
  destruct (Prisma.faults (prisma w) (length (Prisma.calls (prisma w))));
    unfold applied, emit, modify, set_emitted, set_prisma, set_operations, set_sessions;
    simpl; by rewrite Hee.
Qed.

Lemma on_operation_refused w sock sessionId userId data now :
  truthy (sock_sessionId sock) = Some sessionId ->
  truthy (sock_userId sock) = Some userId ->
  (forall session, sessions w !! sessionId = Some session ->
                   ~ may_edit session userId now) ->
  on_operation sock data now w = (Ret tt, set_emitted (emitted w ++ [edit_refused]) w).
Proof.
  intros Hsid Huid Hno.
  unfold on_operation. rewrite (with_ids_joined _ _ _ _ Hsid Huid).
  unfold try_catch, bind at 1.
  destruct (sessions w !! sessionId) as [session|] eqn:Hs.
  - by rewrite (canUserEdit_refused _ _ _ _ _ Hs (Hno _ eq_refl)).
  - unfold canUserEdit, bind, gets. by rewrite Hs.
Qed.

Lemma on_operation_unjoined w sock data now :
  truthy (sock_sessionId sock) = None \/ truthy (sock_userId sock) = None ->
  on_operation sock data now w = (Ret tt, w).
Proof.
  unfold on_operation, with_ids. intros [-> | ->]; [done|].
  by destruct (truthy (sock_sessionId sock)).
Qed.

Lemma emitted_since_app w w' (news : list Emit) :
  emitted w' = emitted w ++ news -> emitted_since w w' = news.
Proof. unfold emitted_since. intros ->. apply drop_app_length. Qed.


(** C3. From a reachable state, an operation is broadcast by the
    handler only after it has been appended to the buffer of the session
    and the call of [assetHistory.create] has returned with the row
    stored; when that call throws, nothing is broadcast, the message of
    the error is emitted to the sender, and the call is made once. *)
Theorem broadcast_only_after_persist w sock data now :
  reachable w ->
  let w' := (on_operation sock data now w).2 in
  let news := emitted_since w w' in
  emitted w' = emitted w ++ news /\
  (forall e, e ∈ news -> em_event e = "operation" ->
     exists sessionId userId ops,
       truthy (sock_sessionId sock) = Some sessionId /\
       truthy (sock_userId sock) = Some userId /\
       news = [mkEmit (ToRoom sessionId) "operation" (POperation (stamp data userId now))] /\
       operations w !! sessionId = Some ops /\
       operations w' !! sessionId = Some (ops ++ [stamp data userId now]) /\
       Prisma.faults (prisma w) (length (Prisma.calls (prisma w))) = None /\
       Prisma.assetHistory (prisma w') =
         Prisma.assetHistory (prisma w) ++ [history_row sessionId (stamp data userId now)]) /\
  (forall msg,
     Prisma.faults (prisma w) (length (Prisma.calls (prisma w))) = Some msg ->
     Prisma.calls (prisma w') <> Prisma.calls (prisma w) ->
     news = [mkEmit ToSender "error" (PError msg)] /\
     (exists row, Prisma.calls (prisma w') =
                    Prisma.calls (prisma w) ++ [Prisma.assetHistory_create row]) /\
     Prisma.assetHistory (prisma w') = Prisma.assetHistory (prisma w)).
Proof.
  intros Hreach. pose proof (reachable_buffers_match _ Hreach) as Hbm. cbv zeta.
  destruct (truthy (sock_sessionId sock)) as [sessionId|] eqn:Hsid;
    [destruct (truthy (sock_userId sock)) as [userId|] eqn:Huid|].
  2,3: rewrite on_operation_unjoined by auto; simpl;
       unfold emitted_since; rewrite drop_all, app_nil_r;
       (split; [done|split]; [intros e He; by apply elem_of_nil in He|done]).
  assert (Hcases :
    (exists session ops, sessions w !! sessionId = Some session /\
                         operations w !! sessionId = Some ops /\
                         may_edit session userId now) \/
    (forall session, sessions w !! sessionId = Some session ->
                     ~ may_edit session userId now)).
  { destruct (sessions w !! sessionId) as [session|] eqn:Hs; [|by right].
    destruct (may_edit_dec session userId now) as [Hedit|Hno].
    - left. destruct (session_has_buffer _ _ _ Hbm Hs) as [ops Hops].
      by exists session, ops.
    - right. intros ? [= <-]. done. }
  destruct Hcases as [(session & ops & Hs & Hops & Hedit) | Hno].
  - rewrite (on_operation_allowed _ _ _ _ _ _ data _ Hsid Huid Hs Hops Hedit).
    destruct (Prisma.faults (prisma w) (length (Prisma.calls (prisma w)))) as [msg|] eqn:Hf;
      simpl; rewrite (emitted_since_app w _ [_]) by reflexivity.
    + split; [done|split].
      * intros e He Hev. apply list_elem_of_singleton in He. by subst e.
      * intros msg' [= <-] _. split; [done|split; [by eexists|done]].
    + split; [done|split].
      * intros e He Hev. exists sessionId, userId, ops.
        rewrite lookup_insert_eq. done.
      * done.
  - rewrite (on_operation_refused _ _ _ _ data _ Hsid Huid Hno). simpl.
    rewrite (emitted_since_app w _ [_]) by reflexivity.
    split; [done|split].
    + intros e He Hev. apply list_elem_of_singleton in He. by subst e.
    + intros msg _ Hcalls. done.
Qed.

(** C10. When [assetHistory.create] throws in the operation handler, the
    operation is in the buffer of the session and [lastModified] is its
    timestamp in the state the handler leaves; no row is stored, nothing
    is broadcast, and the message of the error goes to the sender. *)
Theorem failed_persist_keeps_mutation
        w sock sessionId userId session ops data now msg :
  truthy (sock_sessionId sock) = Some sessionId ->
  truthy (sock_userId sock) = Some userId ->
  sessions w !! sessionId = Some session ->
  operations w !! sessionId = Some ops ->
  may_edit session userId now ->
  Prisma.faults (prisma w) (length (Prisma.calls (prisma w))) = Some msg ->
  let operation := stamp data userId now in
  let w' := (on_operation sock data now w).2 in
  (on_operation sock data now w).1 = Ret tt /\
  operations w' !! sessionId = Some (ops ++ [operation]) /\
  (exists session', sessions w' !! sessionId = Some session' /\
                    cs_lastModified session' = op_timestamp operation /\
                    cs_users session' = cs_users session) /\
  emitted_since w w' = [mkEmit ToSender "error" (PError msg)] /\
  Prisma.calls (prisma w') =
    Prisma.calls (prisma w)
      ++ [Prisma.assetHistory_create (history_row sessionId operation)] /\
  Prisma.assetHistory (prisma w') = Prisma.assetHistory (prisma w).
Proof.
  intros Hsid Huid Hs Hops Hedit Hf. cbv zeta.
  rewrite (on_operation_allowed _ _ _ _ _ _ data _ Hsid Huid Hs Hops Hedit), Hf. simpl.
  rewrite !lookup_insert_eq.
  rewrite (emitted_since_app w _ [_]) by reflexivity.
  repeat split; try done.
  eexists. split; [done|]. split; [done|].
  unfold after_edit_check. destruct (cs_locked session) as [l|]; [|done].
  by destruct (lock_until l <=? now).
Qed.


(** *** Expiry *)

(** C2. A lock whose [until] is in the past counts as absent: the edit
    check returns [true] for every user (and deletes the lock), and
    [lockAsset] by any user does what it does on the session without
    the lock: it does not throw the conflict, it stores a fresh lock of
    that user, and it returns once the row is upserted. *)
Theorem expired_lock_is_absent w sessionId session l userId now :
  sessions w !! sessionId = Some session ->
  cs_locked session = Some l ->
  lock_until l < now ->
  let fresh := mkLock userId (now + LOCK_DURATION) in
  canUserEdit sessionId userId now w = (Ret true, unlock sessionId session w) /\
  canUserEdit sessionId userId now (unlock sessionId session w)
    = (Ret true, unlock sessionId session w) /\
  lockAsset sessionId userId now w
    = lockAsset sessionId userId now (unlock sessionId session w) /\
  (lockAsset sessionId userId now w).1 <> Throw locked_by_another_user /\
  sessions (lockAsset sessionId userId now w).2 !! sessionId
    = Some (set_locked (Some fresh) session) /\
  (Prisma.faults (prisma w) (length (Prisma.calls (prisma w))) = None ->
   (lockAsset sessionId userId now w).1 = Ret tt /\
   Prisma.assetLock (prisma (lockAsset sessionId userId now w).2) !! sessionId
     = Some (Prisma.mkAssetLockRow userId (now + LOCK_DURATION))).
Proof.
  intros Hs Hl Hpast. cbv zeta.
  assert (Hfree : lock_free session now).
  { unfold lock_free. rewrite Hl. lia. }
  assert (Hs' : sessions (unlock sessionId session w) !! sessionId
                = Some (set_locked None session)).
  { unfold unlock. simpl. apply lookup_insert_eq. }
  split; [|split; [|split]].
  - unfold canUserEdit, bind, gets, store_session, modify, ret. rewrite Hs, Hl.
    by replace (lock_until l <=? now) with true by lia.
  - unfold canUserEdit, bind, gets, ret. by rewrite Hs'.
  - rewrite (lockAsset_grants _ _ _ _ _ Hs Hfree).
    rewrite (lockAsset_grants _ _ _ _ _ Hs' I).
    unfold unlock, set_sessions, set_locked. simpl. by rewrite insert_insert_eq.
  - rewrite (lockAsset_grants _ _ _ _ _ Hs Hfree).
    unfold db, zoom, Prisma.assetLock_.upsert, Prisma.call, modify. simpl.
    destruct (Prisma.faults (prisma w) (length (Prisma.calls (prisma w)))); simpl.
    + split; [done|]. split; [apply lookup_insert_eq|done].
    + split; [done|]. split; [apply lookup_insert_eq|].
      intros _. split; [done|apply lookup_insert_eq].
Qed.

(** *** Membership *)

Lemma find_has_id_app us userId u :
  List.find (has_id userId) us = None -> has_id userId u = true ->
  List.find (has_id userId) (us ++ [u]) = Some u.
Proof.
  induction us as [|v us IH]; simpl; intros Hnone Hu.
  - by rewrite Hu.
  - destruct (has_id userId v); [done|]. by apply IH.
Qed.

Lemma filter_out_all us userId :
  (forall u, In u us -> su_id u = userId) ->
  List.filter (fun u => negb (has_id userId u)) us = [].
Proof.
  induction us as [|v us IH]; simpl; intros Hall; [done|].
  unfold has_id at 1. rewrite (Hall v) by auto. rewrite String.eqb_refl. simpl.
  apply IH. auto.
Qed.

Lemma joinSession_member w sessionId userId name now :
  exists session u,
    sessions (joinSession sessionId userId name now w).2 !! sessionId = Some session /\
    List.find (has_id userId) (cs_users session) = Some u.
Proof.
  unfold joinSession, bind, store_session, modify, ret.
  destruct (sessions w !! sessionId) as [session|] eqn:Hs; simpl.
  - destruct (List.find (has_id userId) (cs_users session)) as [u|] eqn:Hfind; simpl.
    + by exists session, u.
    + eexists _, _. rewrite lookup_insert_eq. split; [done|]. simpl.
      apply find_has_id_app; [done|]. apply String.eqb_refl.
  - eexists _, _. rewrite lookup_insert_eq. split; [done|]. simpl.
    unfold has_id. simpl. by rewrite String.eqb_refl.
Qed.

Lemma joinSession_again w sessionId session userId u name now :
  sessions w !! sessionId = Some session ->
  List.find (has_id userId) (cs_users session) = Some u ->
  joinSession sessionId userId name now w = (Ret tt, w).
Proof.
  intros Hs Hfind. unfold joinSession, bind, ret. by rewrite Hs, Hfind.
Qed.

(** C6. [joinSession] always returns. On an asset without a session it
    creates the session with that one member and an empty buffer. When
    the user is in the session already it changes nothing, so joining
    twice is joining once. When the user who leaves was the only one in
    the session, the session and its buffer are deleted, and
    [getActiveUsers] returns the empty list. *)
Theorem join_leave_lifecycle w sessionId userId name now :
  (joinSession sessionId userId name now w).1 = Ret tt /\
  (sessions w !! sessionId = None ->
     sessions (joinSession sessionId userId name now w).2 !! sessionId
       = Some (mkSession sessionId sessionId [mkSessionUser userId name None None] now None) /\
     operations (joinSession sessionId userId name now w).2 !! sessionId = Some []) /\
  (forall session u,
     sessions w !! sessionId = Some session ->
     In u (cs_users session) -> su_id u = userId ->
     joinSession sessionId userId name now w = (Ret tt, w)) /\
  (forall name' now',
     joinSession sessionId userId name' now' (joinSession sessionId userId name now w).2
       = (Ret tt, (joinSession sessionId userId name now w).2)) /\
  (forall session,
     sessions w !! sessionId = Some session ->
     (forall u, In u (cs_users session) -> su_id u = userId) ->
     let w' := (leaveSession sessionId userId w).2 in
     (leaveSession sessionId userId w).1 = Ret tt /\
     sessions w' !! sessionId = None /\
     operations w' !! sessionId = None /\
     getActiveUsers sessionId w' = (Ret [], w')).
Proof.
  split; [|split; [|split; [|split]]].
  - unfold joinSession, bind, store_session, modify, ret.
    destruct (sessions w !! sessionId) as [session|]; simpl.
    + by destruct (List.find (has_id userId) (cs_users session)).
    + done.
  - intros Hs. unfold joinSession, bind, store_session, modify, ret.
    rewrite Hs. simpl. by rewrite !lookup_insert_eq.
  - intros session u Hs Hin Hid.
    destruct (List.find (has_id userId) (cs_users session)) as [v|] eqn:Hfind.
    + by apply (joinSession_again _ _ session _ v).
    + apply (find_none _ _ Hfind) in Hin. unfold has_id in Hin.
      rewrite Hid, String.eqb_refl in Hin. done.
  - intros name' now'.
    destruct (joinSession_member w sessionId userId name now) as (session & u & Hs & Hfind).
    by apply (joinSession_again _ _ session _ u).
  - intros session Hs Hall. cbv zeta.
    unfold leaveSession, getActiveUsers, bind, gets, store_session, modify, ret.
    rewrite Hs. simpl. rewrite (filter_out_all _ _ Hall). simpl.
    by rewrite !lookup_delete_eq.
Qed.

(** *** Release *)

(** C9 (as amended). In a session, [releaseLock] throws "Cannot release
    lock: not the lock owner" and changes nothing when the session has
    no lock or the lock is of another user; [until] is not read. By the
    user of the lock it deletes the lock of the session, whether
    expired or not, and calls [assetLock.delete]; it returns when the
    row is there and the call does not throw, and when it returns the
    row is deleted. *)
Theorem releaseLock_by_owner_only w sessionId session userId :
  sessions w !! sessionId = Some session ->
  ((cs_locked session = None \/
    exists l, cs_locked session = Some l /\ lock_userId l <> userId) ->
   releaseLock sessionId userId w = (Throw not_the_lock_owner, w)) /\
  (forall l,
     cs_locked session = Some l -> lock_userId l = userId ->
     let w' := (releaseLock sessionId userId w).2 in
     sessions w' = <[sessionId := set_locked None session]> (sessions w) /\
     Prisma.calls (prisma w') = Prisma.calls (prisma w) ++ [Prisma.assetLock_delete sessionId] /\
     (Prisma.faults (prisma w) (length (Prisma.calls (prisma w))) = None ->
      is_Some (Prisma.assetLock (prisma w) !! sessionId) ->
      (releaseLock sessionId userId w).1 = Ret tt) /\
     ((releaseLock sessionId userId w).1 = Ret tt ->
      Prisma.assetLock (prisma w') = base.delete sessionId (Prisma.assetLock (prisma w)))).
Proof.
  intros Hs. split.
  - intros Hno. unfold releaseLock, bind, gets. rewrite Hs.
    destruct Hno as [-> | (l & -> & Hne)]; [done|].
    by destruct (String.eqb_spec (lock_userId l) userId).
  - intros l Hl Hu. cbv zeta.
    unfold releaseLock, bind, gets, store_session, modify, db, zoom,
      Prisma.assetLock_.delete_, Prisma.call.
    rewrite Hs, Hl, Hu, String.eqb_refl. simpl.
    destruct (Prisma.faults (prisma w) (length (Prisma.calls (prisma w)))); simpl.
    + split; [done|]. split; [done|]. split; [done|]. done.
    + destruct (Prisma.assetLock (prisma w) !! sessionId) eqn:Hrow; simpl.
      * done.
      * split; [done|]. split; [done|]. split; [|done].
        intros _ [? ?]. done.
Qed.

End Registry.

(** * Properties of the version store *)

Section Versions.

Import VersionManager.
Import Prisma.assetVersion_.

Implicit Types (store : Prisma.Store) (v : Version) (t : list Version).

Lemma find_by_id_app t id v :
  find_by_id id t = Some v -> forall t', find_by_id id (t ++ t') = Some v.
Proof.
  unfold find_by_id. induction t as [|x t IH]; simpl; [done|].
  destruct (String.eqb (v_id x) id); [done|]. apply IH.
Qed.

Lemma find_by_id_updated t id f v :
  find_by_id id t = Some v ->
  find_by_id id (update_tags_in id f t) = Some (set_tags (f (v_tags v)) v).
Proof.
  unfold find_by_id. induction t as [|x t IH]; simpl; [done|].
  destruct (String.eqb (v_id x) id) eqn:E; simpl.
  - intros [= ->]. by rewrite E.
  - rewrite E. apply IH.
Qed.

Lemma update_tags_in_same t id (f : list string -> list string) v :
  find_by_id id t = Some v -> f (v_tags v) = v_tags v ->
  update_tags_in id f t = t.
Proof.
  unfold find_by_id. induction t as [|x t IH]; simpl; [done|].
  destruct (String.eqb (v_id x) id) eqn:E.
  - intros [= ->] ->. by destruct v.
  - intros H1 H2. by rewrite IH.
Qed.

Lemma filter_absent (tags : list string) tag :
  ~ In tag tags -> List.filter (fun x => negb (String.eqb x tag)) tags = tags.
Proof.
  induction tags as [|x tags IH]; simpl; intros Hno; [done|].
  destruct (String.eqb_spec x tag) as [->|Hne]; simpl.
  - exfalso. auto.
  - rewrite IH; auto.
Qed.

Lemma count_occ_snoc (tags : list string) tag :
  count_occ string_dec (tags ++ [tag]) tag = S (count_occ string_dec tags tag).
Proof.
  rewrite count_occ_app. simpl. destruct (string_dec tag tag); [lia|done].
Qed.

(** The three cases of the inverse of a change. *)
Lemma inverse_cases (change : Change) :
  ch_path (inverse change) = ch_path change /\
  (ch_type change = ChAdd ->
     inverse change = mkChange ChDelete (ch_path change) None (ch_content change) None) /\
  (ch_type change = ChDelete ->
     inverse change = mkChange ChAdd (ch_path change) (ch_previousContent change) None None) /\
  (ch_type change = ChModify ->
     inverse change = mkChange ChModify (ch_path change) (ch_previousContent change)
                               (ch_content change) None).
Proof. unfold inverse. destruct (ch_type change); repeat split; done. Qed.

(** C4. [revertToVersion] throws "Version not found", and stores
    nothing, when the id does not resolve. Otherwise, when the two calls
    of the client return and the fresh id is not taken, it appends one
    version to the table: of the asset given, tagged [revert], described
    as "Reverted to version <id>", whose changes are the inverses of those
    of the target (add to delete, delete to add, modify with the two
    contents swapped). Every version stored before is still there,
    unchanged, and the asset has one version more. *)
Theorem revert_appends_inverse store uuid now assetId versionId userId :
  two_calls_pass store ->
  (find_by_id versionId (Prisma.assetVersion store) = None ->
     (revertToVersion uuid now assetId versionId userId store).1 = Throw version_not_found /\
     Prisma.assetVersion (revertToVersion uuid now assetId versionId userId store).2
       = Prisma.assetVersion store) /\
  (forall target,
     find_by_id versionId (Prisma.assetVersion store) = Some target ->
     find_by_id uuid (Prisma.assetVersion store) = None ->
     let created :=
       mkVersion uuid assetId userId now (map inverse (v_changes target)) "{}"
                 ["revert"] (String.append "Reverted to version " versionId) in
     let store' := (revertToVersion uuid now assetId versionId userId store).2 in
     (revertToVersion uuid now assetId versionId userId store).1 = Ret created /\
     Prisma.assetVersion store' = Prisma.assetVersion store ++ [created] /\
     (forall id v, find_by_id id (Prisma.assetVersion store) = Some v ->
                   find_by_id id (Prisma.assetVersion store') = Some v) /\
     length (versions_of assetId store') = S (length (versions_of assetId store)) /\
     (forall change, In change (v_changes target) ->
        In (inverse change) (v_changes created) /\
        ch_path (inverse change) = ch_path change /\
        (ch_type change = ChAdd ->
           inverse change
           = mkChange ChDelete (ch_path change) None (ch_content change) None) /\
        (ch_type change = ChDelete ->
           inverse change
           = mkChange ChAdd (ch_path change) (ch_previousContent change) None None) /\
        (ch_type change = ChModify ->
           inverse change
           = mkChange ChModify (ch_path change) (ch_previousContent change)
                      (ch_content change) None))).
Proof.
  intros [Hf1 Hf2]. split.
  - intros Hnone.
    unfold revertToVersion, getVersion, findUnique, Prisma.call, bind, gets, ret, throw.
    rewrite Hf1. simpl. by rewrite Hnone.
  - intros target Hfound Hfresh. cbv zeta.
    unfold revertToVersion, getVersion, createVersion, findUnique, create,
      Prisma.call, bind, gets, ret, throw.
    rewrite Hf1. simpl. rewrite Hfound. simpl.
    rewrite length_app. simpl. rewrite Nat.add_1_r, Hf2. simpl.
    rewrite Hfresh. simpl.
    split; [done|]. split; [done|]. split; [|split].
    + intros id v Hv. by apply find_by_id_app.
    + unfold versions_of. simpl. rewrite List.filter_app, length_app. simpl.
      rewrite String.eqb_refl. simpl. lia.
    + intros change Hin. split; [by apply in_map|]. apply inverse_cases.
Qed.


(** C7 (as amended). Both methods throw "Version not found", and change
    no version, when the id does not resolve. On a version of the
    store, when the two calls of the client return, [addTag] returns and
    appends the tag to the tags, present or not (one occurrence more);
    [removeTag] returns and leaves the tags without any occurrence of
    the tag, which changes nothing when the tag was absent. *)
Theorem tags_push_and_filter store versionId tag :
  two_calls_pass store ->
  (find_by_id versionId (Prisma.assetVersion store) = None ->
     (addTag versionId tag store).1 = Throw version_not_found /\
     Prisma.assetVersion (addTag versionId tag store).2 = Prisma.assetVersion store /\
     (removeTag versionId tag store).1 = Throw version_not_found /\
     Prisma.assetVersion (removeTag versionId tag store).2 = Prisma.assetVersion store) /\
  (forall v,
     find_by_id versionId (Prisma.assetVersion store) = Some v ->
     let added := (addTag versionId tag store).2 in
     let removed := (removeTag versionId tag store).2 in
     (addTag versionId tag store).1 = Ret tt /\
     find_by_id versionId (Prisma.assetVersion added)
       = Some (set_tags (v_tags v ++ [tag]) v) /\
     count_occ string_dec (v_tags v ++ [tag]) tag
       = S (count_occ string_dec (v_tags v) tag) /\
     (removeTag versionId tag store).1 = Ret tt /\
     find_by_id versionId (Prisma.assetVersion removed)
       = Some (set_tags (List.filter (fun x => negb (String.eqb x tag)) (v_tags v)) v) /\
     ~ In tag (List.filter (fun x => negb (String.eqb x tag)) (v_tags v)) /\
     (~ In tag (v_tags v) -> Prisma.assetVersion removed = Prisma.assetVersion store)).
Proof.
  intros [Hf1 Hf2]. split.
  - intros Hnone.
    unfold addTag, removeTag, findUnique, Prisma.call, bind, gets, throw.
    rewrite Hf1. simpl. by rewrite Hnone.
  - intros v Hfound. cbv zeta.
    unfold addTag, removeTag, findUnique, update_push_tag, update_tags, update_with,
      Prisma.call, bind, gets, throw.
    rewrite Hf1. simpl. rewrite Hfound. simpl.
    rewrite length_app. simpl. rewrite Nat.add_1_r, Hf2. simpl.
    rewrite Hfound. simpl.
    split; [done|]. split; [by apply find_by_id_updated|].
    split; [apply count_occ_snoc|]. split; [done|].
    split; [by apply (find_by_id_updated _ _ (fun _ => _))|]. split.
    + intros Hin. apply filter_In in Hin as [_ Hin].
      by rewrite String.eqb_refl in Hin.
    + intros Habs. apply (update_tags_in_same _ _ _ v); [done|].
      by apply filter_absent.
Qed.


(** *** Comparing two versions *)

Lemma set_add_In acc p x : In x (set_add acc p) <-> In x acc \/ x = p.
Proof.
  unfold set_add. destruct (existsb (String.eqb p) acc) eqn:E.
  - split; [auto|]. intros [H| ->]; [done|].
    apply existsb_exists in E as (y & Hy & Heq).
    apply String.eqb_eq in Heq. by subst y.
  - rewrite in_app_iff. simpl. naive_solver.
Qed.

Lemma set_add_NoDup acc p : NoDup acc -> NoDup (set_add acc p).
Proof.
  unfold set_add. intros Hnd. destruct (existsb (String.eqb p) acc) eqn:E; [done|].
  apply NoDup_app. split; [done|]. split; [|apply NoDup_singleton].
  intros x Hx Hp. apply list_elem_of_singleton in Hp. subst x.
  apply list_elem_of_In in Hx.
  assert (existsb (String.eqb p) acc = true); [|congruence].
  apply existsb_exists. exists p. split; [done|apply String.eqb_refl].
Qed.

Lemma path_set_In paths x : In x (path_set paths) <-> In x paths.
Proof.
  unfold path_set.
  assert (H : forall acc, In x (fold_left set_add paths acc) <-> In x acc \/ In x paths).
  { induction paths as [|p paths IH]; simpl; intros acc; [naive_solver|].
    rewrite IH, set_add_In. naive_solver. }
  rewrite H. simpl. naive_solver.
Qed.

Lemma path_set_NoDup paths : NoDup (path_set paths).
Proof.
  unfold path_set.
  assert (H : forall acc, NoDup acc -> NoDup (fold_left set_add paths acc)).
  { induction paths as [|p paths IH]; simpl; intros acc Hacc; [done|].
    apply IH. by apply set_add_NoDup. }
  apply H. apply NoDup_nil_2.
Qed.

Lemma entry_path changes path c : entry changes path = Some c -> ch_path c = path.
Proof.
  unfold entry. intros H. apply find_some in H as [_ H]. by apply String.eqb_eq.
Qed.

Lemma entry_In changes path c : entry changes path = Some c -> In path (map ch_path changes).
Proof.
  intros H. rewrite <- (entry_path _ _ _ H).
  unfold entry in H. apply find_some in H as [H _]. by apply in_map.
Qed.

Lemma entry_None changes path : entry changes path = None <-> ~ In path (map ch_path changes).
Proof.
  unfold entry. split.
  - intros H Hin. apply in_map_iff in Hin as (c & Hc & Hin).
    apply (find_none _ _ H) in Hin. unfold has_path in Hin.
    by rewrite Hc, String.eqb_refl in Hin.
  - intros Hno. destruct (List.find (has_path path) changes) as [c|] eqn:E; [|done].
    exfalso. apply Hno. by apply (entry_In _ _ c).
Qed.

Section Compare.

Variable diff_main : string -> string -> list Diff.
Variable diff_cleanupSemantic : list Diff -> list Diff.

Local Abbreviation compare_path :=
  (VersionManager.compare_path diff_main diff_cleanupSemantic).
Local Abbreviation compareVersions :=
  (VersionManager.compareVersions diff_main diff_cleanupSemantic).

Lemma compare_path_one changes1 changes2 path :
  compare_path changes1 changes2 path = [] \/
  exists c, compare_path changes1 changes2 path = [c] /\ ch_path c = path.
Proof.
  unfold VersionManager.compare_path.
  destruct (List.find (has_path path) changes1) as [c1|];
    [destruct (List.find (has_path path) changes2) as [c2|]|].
  - case_bool_decide; [by left|right; by eexists].
  - right. by eexists.
  - right. by eexists.
Qed.

Lemma compare_all_NoDup changes1 changes2 paths :
  NoDup paths ->
  NoDup (map ch_path (flat_map (compare_path changes1 changes2) paths)) /\
  (forall c, In c (flat_map (compare_path changes1 changes2) paths) ->
             In (ch_path c) paths).
Proof.
  induction paths as [|p paths IH]; simpl; intros Hnd.
  - split; [apply NoDup_nil_2|done].
  - apply NoDup_cons in Hnd as [Hp Hnd]. destruct (IH Hnd) as [IH1 IH2].
    rewrite list_elem_of_In in Hp.
    destruct (compare_path_one changes1 changes2 p) as [-> | (c & -> & Hc)]; simpl.
    + split; [done|]. auto.
    + split.
      * apply NoDup_cons. split; [|done]. rewrite Hc, list_elem_of_In. intros Hin.
        apply in_map_iff in Hin as (c' & Hc' & Hin). apply IH2 in Hin.
        by rewrite Hc' in Hin.
      * intros c' [<- | Hin]; [left; by rewrite Hc|right; auto].
Qed.

(** C5. [compareVersions] throws "One or both versions not found" when
    one of the ids does not resolve. On two versions A and B it
    returns changes whose paths are distinct and taken from those of A
    and B, and for a path: in B only, the add of the content of B; in
    A only, the delete with the content of A as previous content; in
    both with different contents, the modify with both contents and
    the cleaned diff of the two texts in [metadata.diffs]; in both
    with the same content, no change. *)
Theorem compare_by_path store versionId1 versionId2 :
  two_calls_pass store ->
  (find_by_id versionId1 (Prisma.assetVersion store) = None \/
   find_by_id versionId2 (Prisma.assetVersion store) = None ->
   (compareVersions versionId1 versionId2 store).1 = Throw versions_not_found) /\
  (forall A B,
     find_by_id versionId1 (Prisma.assetVersion store) = Some A ->
     find_by_id versionId2 (Prisma.assetVersion store) = Some B ->
     exists changes,
       (compareVersions versionId1 versionId2 store).1 = Ret changes /\
       NoDup (map ch_path changes) /\
       (forall c, In c changes ->
          In (ch_path c) (map ch_path (v_changes A)) \/
          In (ch_path c) (map ch_path (v_changes B))) /\
       (forall path b,
          entry (v_changes A) path = None ->
          entry (v_changes B) path = Some b ->
          In (mkChange ChAdd path (ch_content b) None None) changes) /\
       (forall path a,
          entry (v_changes A) path = Some a ->
          entry (v_changes B) path = None ->
          In (mkChange ChDelete path None (ch_content a) None) changes) /\
       (forall path a b,
          entry (v_changes A) path = Some a ->
          entry (v_changes B) path = Some b ->
          ch_content a <> ch_content b ->
          In (mkChange ChModify path (ch_content b) (ch_content a)
                (Some (MetaDiffs
                   (diff_cleanupSemantic
                      (diff_main (default EmptyString (ch_content a))
                                 (default EmptyString (ch_content b)))))))
             changes) /\
       (forall path a b,
          entry (v_changes A) path = Some a ->
          entry (v_changes B) path = Some b ->
          ch_content a = ch_content b ->
          forall c, In c changes -> ch_path c <> path)).
Proof.
  intros [Hf1 Hf2].
  assert (Hrun : (compareVersions versionId1 versionId2 store).1 =
    match find_by_id versionId1 (Prisma.assetVersion store),
          find_by_id versionId2 (Prisma.assetVersion store) with
    | Some A, Some B =>
        Ret (flat_map (compare_path (v_changes A) (v_changes B))
               (path_set (map ch_path (v_changes A) ++ map ch_path (v_changes B))))
    | _, _ => Throw versions_not_found
    end).
  { unfold VersionManager.compareVersions, promise_all2, getVersion,
      findUnique, Prisma.call, bind, gets, ret, throw.
    rewrite Hf1. simpl.
    destruct (find_by_id versionId1 (Prisma.assetVersion store)); simpl;
      rewrite length_app; simpl; rewrite Nat.add_1_r, Hf2; simpl;
      by destruct (find_by_id versionId2 (Prisma.assetVersion store)). }
  split.
  - intros Hnone. rewrite Hrun. destruct Hnone as [-> | ->]; [done|].
    by destruct (find_by_id versionId1 (Prisma.assetVersion store)).
  - intros A B HA HB. rewrite Hrun, HA, HB. eexists. split; [done|].
    set (paths := path_set (map ch_path (v_changes A) ++ map ch_path (v_changes B))).
    assert (Hpaths : forall p, In p paths <->
              In p (map ch_path (v_changes A)) \/ In p (map ch_path (v_changes B))).
    { intros p. unfold paths. by rewrite path_set_In, in_app_iff. }
    destruct (compare_all_NoDup (v_changes A) (v_changes B) paths (path_set_NoDup _))
      as [Hnd Hin].
    assert (Hout : forall p c,
              In p paths -> In c (compare_path (v_changes A) (v_changes B) p) ->
              In c (flat_map (compare_path (v_changes A) (v_changes B)) paths)).
    { intros p c Hp Hc. apply in_flat_map. by exists p. }
    split; [done|]. split; [|split; [|split; [|split]]].
    + intros c Hc. apply Hpaths. by apply Hin.
    + intros path b Ha Hb. apply (Hout path).
      * apply Hpaths. right. by apply (entry_In _ _ b).
      * unfold VersionManager.compare_path.
        unfold entry in Ha, Hb. rewrite Ha, Hb. simpl. by left.
    + intros path a Ha Hb. apply (Hout path).
      * apply Hpaths. left. by apply (entry_In _ _ a).
      * unfold VersionManager.compare_path.
        unfold entry in Ha, Hb. rewrite Ha, Hb. by left.
    + intros path a b Ha Hb Hne. apply (Hout path).
      * apply Hpaths. left. by apply (entry_In _ _ a).
      * unfold VersionManager.compare_path.
        unfold entry in Ha, Hb. rewrite Ha, Hb.
        rewrite bool_decide_eq_false_2 by done. by left.
    + intros path a b Ha Hb Heq c Hc Hpath.
      apply in_flat_map in Hc as (p & Hp & Hc).
      destruct (compare_path_one (v_changes A) (v_changes B) p)
        as [Hnil | (c' & Hone & Hc')].
      * by rewrite Hnil in Hc.
      * rewrite Hone in Hc. destruct Hc as [<- | []].
        rewrite Hpath in Hc'. subst p.
        unfold VersionManager.compare_path in Hone.
        unfold entry in Ha, Hb. rewrite Ha, Hb in Hone.
        by rewrite bool_decide_eq_true_2 in Hone.
Qed.

End Compare.

End Versions.

(** * The properties on sample states *)

Section Samples.

Import CollaborationManager VersionManager Examples VersionExamples.
Import Prisma.assetVersion_.

(** Close a goal on constants by evaluation. *)
Ltac evaluate := vm_compute; first [reflexivity | discriminate | exact I].

Lemma lock_exclusivity_witness :
  lockAsset "doc-1" "u2" 100 locked_world = (Throw locked_by_another_user, locked_world) /\
  lockAsset "doc-1" "u1" 100 locked_world = (Ret tt, locked_world) /\
  sessions (lockAsset "doc-1" "u2" 1000 locked_world).2
    = <["doc-1" := doc1 (Some (mkLock "u2" 301000))]> (sessions locked_world).
Proof.
  destruct (lock_exclusivity locked_world "doc-1" (doc1 (Some held)) "u2" 100 eq_refl)
    as (_ & Hother & _ & _).
  destruct (lock_exclusivity locked_world "doc-1" (doc1 (Some held)) "u1" 100 eq_refl)
    as (_ & _ & Hself & _).
  destruct (lock_exclusivity locked_world "doc-1" (doc1 (Some held)) "u2" 1000 eq_refl)
    as (_ & _ & _ & Hfree).
  split; [|split].
  - apply (Hother "u1"); [discriminate|].
    exists held. split; [reflexivity|]. split; [reflexivity|evaluate].
  - apply Hself. exists held. split; [reflexivity|]. split; [reflexivity|evaluate].
  - apply Hfree. evaluate.
Defined.

Lemma expired_lock_is_absent_witness :
  canUserEdit "doc-1" "u2" 1000 locked_world
    = (Ret true, unlock "doc-1" (doc1 (Some held)) locked_world) /\
  (lockAsset "doc-1" "u2" 1000 locked_world).1 = Ret tt /\
  sessions (lockAsset "doc-1" "u2" 1000 locked_world).2 !! "doc-1"
    = Some (doc1 (Some (mkLock "u2" 301000))).
Proof.
  assert (Hpast : lock_until held < 1000) by evaluate.
  destruct (expired_lock_is_absent locked_world "doc-1" (doc1 (Some held)) held "u2" 1000
              eq_refl eq_refl Hpast)
    as (Hedit & _ & _ & _ & Hlock & Hret).
  split; [exact Hedit|]. split; [|exact Hlock].
  apply Hret. reflexivity.
Defined.

Lemma broadcast_only_after_persist_witness :
  reachable (joined no_faults) /\
  emitted (on_operation sock1 typing 10 (joined no_faults)).2
    = emitted (joined no_faults)
        ++ emitted_since (joined no_faults)
             (on_operation sock1 typing 10 (joined no_faults)).2.
Proof.
  assert (H : reachable (joined no_faults)).
  { unfold joined. apply reachable_handle, reachable_initial. }
  split; [exact H|].
  exact (proj1 (broadcast_only_after_persist (joined no_faults) sock1 typing 10 H)).
Defined.

Lemma failed_persist_keeps_mutation_witness :
  operations (on_operation sock1 typing 10 failing_world).2 !! "doc-1"
    = Some [stamp typing "u1" 10] /\
  emitted_since failing_world (on_operation sock1 typing 10 failing_world).2
    = [mkEmit ToSender "error" (PError "connection lost")] /\
  Prisma.assetHistory (prisma (on_operation sock1 typing 10 failing_world).2) = [].
Proof.
  assert (Hedit : may_edit (doc1 None) "u1" 10) by (left; exact I).
  destruct (failed_persist_keeps_mutation failing_world sock1 "doc-1" "u1" (doc1 None) []
              typing 10 "connection lost" eq_refl eq_refl eq_refl eq_refl Hedit eq_refl)
    as (_ & Hops & _ & Hemit & _ & Hhist).
  split; [exact Hops|]. split; [exact Hemit|exact Hhist].
Defined.

Lemma join_leave_lifecycle_witness :
  sessions after_join !! "doc-1" = Some (mkSession "doc-1" "doc-1" [ann] 5 None) /\
  joinSession "doc-1" "u1" "Ann" 6 after_join = (Ret tt, after_join) /\
  sessions (leaveSession "doc-1" "u1" after_join).2 !! "doc-1" = None /\
  (getActiveUsers "doc-1" (leaveSession "doc-1" "u1" after_join).2).1 = Ret [].
Proof.
  destruct (join_leave_lifecycle fresh_world "doc-1" "u1" "Ann" 5)
    as (_ & Hnew & _ & Hagain & _).
  destruct (join_leave_lifecycle after_join "doc-1" "u1" "Ann" 5)
    as (_ & _ & _ & _ & Hleave).
  assert (Hlast : forall u, In u (cs_users (mkSession "doc-1" "doc-1" [ann] 5 None)) ->
                            su_id u = "u1").
  { intros u [<- | []]. reflexivity. }
  destruct (Hleave _ eq_refl Hlast) as (_ & Hs & _ & Hactive).
  split; [apply Hnew; reflexivity|]. split; [apply Hagain|].
  split; [exact Hs|]. exact (f_equal fst Hactive).
Defined.

(** C8, at the input that fails: a socket whose [join] named an unknown
    user has both variables set and no session; its operation is
    refused with the message of the lock conflict, where the two lock
    events report "Session not found". *)
Theorem operation_without_session_reports_lock :
  sessions unjoined !! "doc-1" = None /\
  emitted_since unjoined (on_operation sock9 typing 10 unjoined).2
    = [mkEmit ToSender "error" (PError "Asset is locked by another user")] /\
  emitted_since unjoined (on_request_lock sock9 10 unjoined).2
    = [mkEmit ToSender "error" (PError "Session not found")] /\
  emitted_since unjoined (on_release_lock sock9 unjoined).2
    = [mkEmit ToSender "error" (PError "Session not found")].
Proof. repeat split; evaluate. Qed.

(** C9, as stated, fails: on a session whose lock expired at 500,
    [releaseLock] by that user, at a later instant, does not throw: it
    returns, and deletes the lock and its row. *)
Lemma release_of_expired_lock_succeeds :
  lock_free (doc1 (Some held)) 1000 /\
  ~ holds_lock (doc1 (Some held)) "u1" 1000 /\
  releaseLock "doc-1" "u1" locked_world <> (Throw not_the_lock_owner, locked_world) /\
  (releaseLock "doc-1" "u1" locked_world).1 = Ret tt /\
  sessions (releaseLock "doc-1" "u1" locked_world).2 !! "doc-1" = Some (doc1 None) /\
  Prisma.assetLock (prisma (releaseLock "doc-1" "u1" locked_world).2) !! "doc-1" = None.
Proof.
  split; [evaluate|]. split.
  - intros (l & Hl & _ & Hnow). inversion Hl; subst l. vm_compute in Hnow. discriminate.
  - split; [|repeat split; evaluate].
    intros H. apply (f_equal fst) in H. vm_compute in H. discriminate.
Qed.

Lemma releaseLock_by_owner_only_witness :
  releaseLock "doc-1" "u2" locked_world = (Throw not_the_lock_owner, locked_world) /\
  (releaseLock "doc-1" "u1" locked_world).1 = Ret tt /\
  sessions (releaseLock "doc-1" "u1" locked_world).2
    = <["doc-1" := doc1 None]> (sessions locked_world).
Proof.
  destruct (releaseLock_by_owner_only locked_world "doc-1" (doc1 (Some held)) "u2" eq_refl)
    as [Hother _].
  destruct (releaseLock_by_owner_only locked_world "doc-1" (doc1 (Some held)) "u1" eq_refl)
    as [_ Hown].
  destruct (Hown held eq_refl eq_refl) as (Hs & _ & Hret & _).
  split; [|split; [|exact Hs]].
  - apply Hother. right. exists held. split; [reflexivity|discriminate].
  - apply Hret; [reflexivity|]. exists (Prisma.mkAssetLockRow "u1" 500). reflexivity.
Defined.

Lemma revert_appends_inverse_witness :
  (revertToVersion "V3" 7 "asset-1" "V1" "user-2" (store_of [V1])).1 = Ret reverted /\
  Prisma.assetVersion (revertToVersion "V3" 7 "asset-1" "V1" "user-2" (store_of [V1])).2
    = [V1; reverted] /\
  (revertToVersion "V3" 7 "asset-1" "V0" "user-2" (store_of [V1])).1
    = Throw version_not_found.
Proof.
  assert (Hpass : two_calls_pass (store_of [V1])) by (split; reflexivity).
  destruct (revert_appends_inverse (store_of [V1]) "V3" 7 "asset-1" "V1" "user-2" Hpass)
    as [_ Hfound].
  destruct (revert_appends_inverse (store_of [V1]) "V3" 7 "asset-1" "V0" "user-2" Hpass)
    as [Hmissing _].
  destruct (Hfound V1 eq_refl eq_refl) as (Hret & Htable & _).
  split; [exact Hret|]. split; [exact Htable|].
  exact (proj1 (Hmissing eq_refl)).
Defined.

Lemma compare_by_path_witness :
  exists changes,
    (compareVersions replace_all keep "V1" "V2" (store_of [V1; V2])).1 = Ret changes /\
    NoDup (map ch_path changes) /\
    In (mkChange ChModify "/a.txt" (Some "world") (Some "hello")
          (Some (MetaDiffs [(-1, "hello"); (1, "world")])))
       changes.
Proof.
  assert (Hpass : two_calls_pass (store_of [V1; V2])) by (split; reflexivity).
  destruct (compare_by_path replace_all keep (store_of [V1; V2]) "V1" "V2" Hpass)
    as [_ Hfound].
  destruct (Hfound V1 V2 eq_refl eq_refl)
    as (changes & Hret & Hnd & _ & _ & _ & Hmodify & _).
  exists changes. split; [exact Hret|]. split; [exact Hnd|].
  apply (Hmodify "/a.txt"
           (mkChange ChAdd "/a.txt" (Some "hello") None None)
           (mkChange ChModify "/a.txt" (Some "world") (Some "hello") None));
    [reflexivity | reflexivity | discriminate].
Defined.

(** C7, as stated, fails: [addTag] twice with the same tag returns both
    times and leaves the tag twice in the tags of the version. *)
Lemma addTag_twice_duplicates :
  tagged_once.1 = Ret tt /\ tagged_twice.1 = Ret tt /\
  v_tags <$> find_by_id "V1" (Prisma.assetVersion tagged_twice.2)
    = Some ["stable"; "stable"] /\
  count_occ string_dec ["stable"; "stable"] "stable" <> 1%nat.
Proof. repeat split; evaluate. Qed.

Lemma tags_push_and_filter_witness :
  find_by_id "V1" (Prisma.assetVersion (addTag "V1" "stable" (store_of [tagged])).2)
    = Some (set_tags ["stable"; "stable"] tagged) /\
  (removeTag "V1" "draft" (store_of [tagged])).1 = Ret tt /\
  Prisma.assetVersion (removeTag "V1" "draft" (store_of [tagged])).2 = [tagged] /\
  (addTag "V0" "stable" (store_of [tagged])).1 = Throw version_not_found.
Proof.
  assert (Hpass : two_calls_pass (store_of [tagged])) by (split; reflexivity).
  destruct (tags_push_and_filter (store_of [tagged]) "V1" "stable" Hpass) as [_ Hadd].
  destruct (tags_push_and_filter (store_of [tagged]) "V1" "draft" Hpass) as [_ Hremove].
  destruct (tags_push_and_filter (store_of [tagged]) "V0" "stable" Hpass) as [Hmissing _].
  destruct (Hadd tagged eq_refl) as (_ & Hpushed & _).
  destruct (Hremove tagged eq_refl) as (_ & _ & _ & Hret & _ & _ & Hsame).
  split; [exact Hpushed|]. split; [exact Hret|]. split.
  - apply Hsame. intros [H | []]. discriminate.
  - exact (proj1 (Hmissing eq_refl)).
Defined.

End Samples.

(** * What the registry keeps true in every reachable state *)

Section RegistryKeeps.

Import CollaborationManager RegistryInvariants Examples.

Implicit Types (w : World) (s session : CollaborationSession)
         (m : gmap string CollaborationSession).

Lemma registry_ok_insert m key s :
  registry_ok m -> session_ok key s -> registry_ok (<[key := s]> m).
Proof.
  intros Hm Hs k s' Hlook. apply lookup_insert_Some in Hlook as [[<- <-] | [_ Hlook]].
  - done.
  - by apply Hm.
Qed.

Lemma registry_ok_delete m key : registry_ok m -> registry_ok (base.delete key m).
Proof.
  intros Hm k s Hlook. apply lookup_delete_Some in Hlook as [_ Hlook]. by apply Hm.
Qed.

Lemma registry_ok_foldr_delete m (ids : list string) :
  registry_ok m -> registry_ok (foldr base.delete m ids).
Proof.
  induction ids as [|i ids IH]; simpl; [done|].
  intros Hm. by apply registry_ok_delete, IH.
Qed.

Lemma find_none_not_in us userId :
  List.find (has_id userId) us = None -> userId ∉ map su_id us.
Proof.
  intros Hfind Hin. apply list_elem_of_In, in_map_iff in Hin as (u & Hu & Hin).
  apply (find_none _ _ Hfind) in Hin. unfold has_id in Hin.
  by rewrite Hu, String.eqb_refl in Hin.
Qed.

Lemma map_su_id_filter (P : SessionUser -> bool) us :
  NoDup (map su_id us) -> NoDup (map su_id (List.filter P us)).
Proof.
  induction us as [|u us IH]; simpl; [done|].
  intros [Hu Hnd]%NoDup_cons. destruct (P u); simpl; [|by apply IH].
  apply NoDup_cons. split; [|by apply IH].
  intros Hin. apply Hu. apply list_elem_of_In, in_map_iff in Hin as (v & Hv & Hin).
  apply filter_In in Hin as [Hin _]. apply list_elem_of_In, in_map_iff. by exists v.
Qed.

Lemma map_su_id_update_first userId (f : SessionUser -> SessionUser) us :
  (forall u, su_id (f u) = su_id u) ->
  map su_id (update_first userId f us) = map su_id us.
Proof.
  intros Hf. induction us as [|u us IH]; simpl; [done|].
  destruct (has_id userId u); simpl; [by rewrite Hf|by rewrite IH].
Qed.

Lemma session_ok_same_users key s s' :
  session_ok key s -> cs_id s' = cs_id s -> cs_assetId s' = cs_assetId s ->
  cs_users s' = cs_users s -> session_ok key s'.
Proof. unfold session_ok. intros (? & ? & ? & ?) -> -> ->. done. Qed.

Lemma session_ok_users key s us :
  session_ok key s -> us <> [] -> NoDup (map su_id us) ->
  session_ok key (set_users us s).
Proof. intros (? & ? & _ & _) ? ?. by repeat split. Qed.

Lemma session_ok_update_first key s userId (f : SessionUser -> SessionUser) :
  (forall u, su_id (f u) = su_id u) ->
  session_ok key s -> session_ok key (set_users (update_first userId f (cs_users s)) s).
Proof.
  intros Hf (? & ? & Hne & Hnd). repeat split; try done; simpl.
  - intros Hnil. apply (f_equal (map su_id)) in Hnil.
    rewrite map_su_id_update_first in Hnil by done.
    destruct (cs_users s); [done|discriminate].
  - by rewrite map_su_id_update_first.
Qed.

Lemma session_ok_join key s userId name :
  session_ok key s -> List.find (has_id userId) (cs_users s) = None ->
  session_ok key (set_users (cs_users s ++ [mkSessionUser userId name None None]) s).
Proof.
  intros (? & ? & _ & Hnd) Hfind. repeat split; try done; simpl.
  - by destruct (cs_users s).
  - rewrite map_app. apply NoDup_app. split; [done|]. split; [|apply NoDup_singleton].
    intros x Hx Hin. apply list_elem_of_singleton in Hin. simpl in Hin. subst x.
    by apply (find_none_not_in _ _ Hfind).
Qed.

(** *** Composition *)

Section Keeps.

Variable P : gmap string CollaborationSession -> Prop.

Lemma keeps_ret {A} (a : A) : keeps P (ret a).
Proof. by intros w Hw. Qed.

Lemma keeps_throw {A} e : keeps P (throw (A := A) e).
Proof. by intros w Hw. Qed.

Lemma keeps_gets {A} (f : World -> A) : keeps P (gets f).
Proof. by intros w Hw. Qed.

Lemma keeps_emit t event p : keeps P (emit t event p).
Proof. by intros w Hw. Qed.

Lemma keeps_db {A} (m : M Prisma.Store A) : keeps P (db m).
Proof. intros w Hw. unfold db, zoom. by destruct (m (prisma w)). Qed.

Lemma keeps_bind {A B} (m : M World A) (k : A -> M World B) :
  keeps P m -> (forall a, keeps P (k a)) -> keeps P (bind m k).
Proof.
  intros Hm Hk w Hw. unfold bind. specialize (Hm w Hw).
  destruct (m w) as [[a|e] w1]; simpl in *; [by apply Hk|done].
Qed.

Lemma keeps_try_catch {A} (m : M World A) (h : Thrown -> M World A) :
  keeps P m -> (forall e, keeps P (h e)) -> keeps P (try_catch m h).
Proof.
  intros Hm Hh w Hw. unfold try_catch. specialize (Hm w Hw).
  destruct (m w) as [[a|e] w1]; simpl in *; [done|by apply Hh].
Qed.

Lemma keeps_with_ids sock (k : string -> string -> M World unit) :
  (forall sessionId userId, keeps P (k sessionId userId)) -> keeps P (with_ids sock k).
Proof.
  intros Hk. unfold with_ids.
  destruct (truthy (sock_sessionId sock)); [|apply keeps_ret].
  destruct (truthy (sock_userId sock)); [apply Hk|apply keeps_ret].
Qed.

End Keeps.

(** *** The methods *)

Ltac method :=
  unfold joinSession, leaveSession, getSessionState, updateUserCursor,
    updateUserSelection, applyOperation, broadcastOperation, broadcastUserList,
    lockAsset, releaseLock, canUserEdit, broadcastLockState, store_session, emit,
    db, zoom, Prisma.assetHistory_.create,
    Prisma.assetLock_.upsert, Prisma.assetLock_.delete_,
    Prisma.assetLock_.deleteMany_expired, Prisma.call,
    bind, gets, modify, ret, throw;
  simpl.

Lemma joinSession_ok sessionId userId name now :
  keeps registry_ok (joinSession sessionId userId name now).
Proof.
  intros w Hw. method. destruct (sessions w !! sessionId) as [s|] eqn:Hs; simpl.
  - destruct (List.find (has_id userId) (cs_users s)) eqn:Hfind; simpl; [done|].
    apply registry_ok_insert; [done|]. apply session_ok_join; [by apply Hw|done].
  - rewrite insert_insert_eq. apply registry_ok_insert; [done|].
    repeat split; simpl; [done|]. apply NoDup_singleton.
Qed.

Lemma leaveSession_ok sessionId userId : keeps registry_ok (leaveSession sessionId userId).
Proof.
  intros w Hw. method. destruct (sessions w !! sessionId) as [s|] eqn:Hs; simpl; [|done].
  destruct (length _ =? 0)%nat eqn:Hlen; simpl.
  - rewrite delete_insert_eq. by apply registry_ok_delete.
  - apply registry_ok_insert; [done|]. apply Hw in Hs.
    apply session_ok_users; [done| |apply map_su_id_filter, Hs].
    intros Hnil. rewrite Hnil in Hlen. done.
Qed.

Lemma updateUserCursor_ok sessionId userId cursor :
  keeps registry_ok (updateUserCursor sessionId userId cursor).
Proof.
  intros w Hw. method. destruct (sessions w !! sessionId) as [s|] eqn:Hs; simpl; [|done].
  apply registry_ok_insert; [done|]. apply session_ok_update_first; [done|by apply Hw].
Qed.

Lemma updateUserSelection_ok sessionId userId selection :
  keeps registry_ok (updateUserSelection sessionId userId selection).
Proof.
  intros w Hw. method. destruct (sessions w !! sessionId) as [s|] eqn:Hs; simpl; [|done].
  apply registry_ok_insert; [done|]. apply session_ok_update_first; [done|by apply Hw].
Qed.

Lemma applyOperation_ok sessionId operation :
  keeps registry_ok (applyOperation sessionId operation).
Proof.
  intros w Hw. method. destruct (operations w !! sessionId); simpl; [|done].
  destruct (sessions w !! sessionId) as [s|] eqn:Hs; simpl.
  - destruct (Prisma.faults _ _); simpl;
      (apply registry_ok_insert; [done|]); by apply (session_ok_same_users _ s); [apply Hw|..].
  - by destruct (Prisma.faults _ _).
Qed.

Lemma canUserEdit_ok sessionId userId now : keeps registry_ok (canUserEdit sessionId userId now).
Proof.
  intros w Hw. method. destruct (sessions w !! sessionId) as [s|] eqn:Hs; simpl; [|done].
  destruct (cs_locked s) as [l|]; simpl; [|done].
  destruct (lock_until l <=? now); simpl; [|done].
  apply registry_ok_insert; [done|]. by apply (session_ok_same_users _ s); [apply Hw|..].
Qed.

Lemma lockAsset_ok sessionId userId now : keeps registry_ok (lockAsset sessionId userId now).
Proof.
  intros w Hw. method. destruct (sessions w !! sessionId) as [s|] eqn:Hs; simpl; [|done].
  assert (Hgrant : registry_ok
            (<[sessionId := set_locked (Some (mkLock userId (now + LOCK_DURATION))) s]>
               (sessions w))).
  { apply registry_ok_insert; [done|]. by apply (session_ok_same_users _ s); [apply Hw|..]. }
  destruct (cs_locked s) as [l|]; simpl.
  - destruct (lock_until l >? now); simpl.
    + by destruct (negb _).
    + by destruct (Prisma.faults _ _).
  - by destruct (Prisma.faults _ _).
Qed.

Lemma releaseLock_ok sessionId userId : keeps registry_ok (releaseLock sessionId userId).
Proof.
  intros w Hw. method. destruct (sessions w !! sessionId) as [s|] eqn:Hs; simpl; [|done].
  destruct (cs_locked s) as [l|]; simpl; [|done].
  destruct (negb _); simpl; [done|].
  assert (Hfree : registry_ok (<[sessionId := set_locked None s]> (sessions w))).
  { apply registry_ok_insert; [done|]. by apply (session_ok_same_users _ s); [apply Hw|..]. }
  destruct (Prisma.faults _ _); simpl; [done|].
  by destruct (Prisma.assetLock (prisma w) !! sessionId).
Qed.

Lemma broadcastUserList_ok sessionId : keeps registry_ok (broadcastUserList sessionId).
Proof. intros w Hw. method. by destruct (sessions w !! sessionId). Qed.

Lemma broadcastLockState_ok sessionId : keeps registry_ok (broadcastLockState sessionId).
Proof. intros w Hw. method. by destruct (sessions w !! sessionId). Qed.

Lemma cleanup_ok now : keeps registry_ok (cleanup now).
Proof.
  intros w Hw. unfold cleanup. method.
  destruct (Prisma.faults _ _); simpl; [done|]. by apply registry_ok_foldr_delete.
Qed.

Lemma handle_ok ev now : keeps registry_ok (handle ev now).
Proof.
  destruct ev; simpl.
  - unfold on_join. apply keeps_bind; [apply keeps_db|]. intros [user|]; [|apply keeps_emit].
    apply keeps_bind; [apply joinSession_ok|]. intros _.
    apply keeps_bind; [apply keeps_gets|]. intros state.
    apply keeps_bind; [apply keeps_emit|]. intros _. apply broadcastUserList_ok.
  - apply keeps_with_ids. intros sessionId userId.
    apply keeps_bind; [apply updateUserCursor_ok|]. intros _. apply keeps_emit.
  - apply keeps_with_ids. intros sessionId userId.
    apply keeps_bind; [apply updateUserSelection_ok|]. intros _. apply keeps_emit.
  - apply keeps_with_ids. intros sessionId userId.
    apply keeps_try_catch; [|intros e; apply keeps_emit].
    apply keeps_bind; [apply canUserEdit_ok|]. intros allowed.
    destruct (negb allowed); [apply keeps_emit|].
    apply keeps_bind; [apply applyOperation_ok|]. intros _. apply keeps_emit.
  - apply keeps_with_ids. intros sessionId userId.
    apply keeps_try_catch; [|intros e; apply keeps_emit].
    apply keeps_bind; [apply lockAsset_ok|]. intros _. apply broadcastLockState_ok.
  - apply keeps_with_ids. intros sessionId userId.
    apply keeps_try_catch; [|intros e; apply keeps_emit].
    apply keeps_bind; [apply releaseLock_ok|]. intros _. apply broadcastLockState_ok.
  - apply keeps_with_ids. intros sessionId userId.
    apply keeps_bind; [apply leaveSession_ok|]. intros _. apply broadcastUserList_ok.
  - apply cleanup_ok.
Qed.

Lemma reachable_registry_ok w : reachable w -> registry_ok (sessions w).
Proof.
  induction 1 as [store|w ev now _ IH].
  - intros key s Hlook. simpl in Hlook. by rewrite lookup_empty in Hlook.
  - by apply handle_ok.
Qed.

End RegistryKeeps.

(** * More on the session registry *)

Section RegistryMore.

Import CollaborationManager RegistryInvariants Examples MoreExamples.

Implicit Types (w : World) (s session : CollaborationSession).

Lemma joined_reachable faults : reachable (joined faults).
Proof. unfold joined. apply reachable_handle, reachable_initial. Qed.

(** In every reachable state the two maps have the same keys, and a
    session is filed under its own id, has at least one member, and has
    no two members with the same id. *)
Theorem reachable_sessions_well_formed w :
  reachable w ->
  (forall key, is_Some (sessions w !! key) <-> is_Some (operations w !! key)) /\
  (forall key s,
     sessions w !! key = Some s ->
     cs_id s = key /\ cs_assetId s = key /\
     cs_users s <> [] /\ NoDup (map su_id (cs_users s))).
Proof.
  intros Hreach. split.
  - intros key. rewrite <- !elem_of_dom.
    by rewrite (reachable_buffers_match _ Hreach).
  - intros key s Hlook. by apply (reachable_registry_ok _ Hreach).
Qed.

Lemma reachable_sessions_well_formed_witness :
  reachable (joined no_faults) /\
  (forall key s,
     sessions (joined no_faults) !! key = Some s ->
     cs_id s = key /\ cs_assetId s = key /\
     cs_users s <> [] /\ NoDup (map su_id (cs_users s))).
Proof.
  split; [apply joined_reachable|].
  exact (proj2 (reachable_sessions_well_formed _ (joined_reachable no_faults))).
Defined.

Lemma no_empty_sessions (m : gmap string CollaborationSession) :
  registry_ok m -> empty_session_ids m = [].
Proof.
  intros Hm. unfold empty_session_ids.
  assert (Hnone : base.filter (fun kv : string * CollaborationSession =>
                                 length (cs_users kv.2) = 0%nat) m = ∅).
  { apply map_empty. intros key. apply map_lookup_filter_None.
    destruct (m !! key) as [s|] eqn:Hs; [right|by left].
    intros s' [= <-]. simpl. destruct (Hm _ _ Hs) as (_ & _ & Hne & _).
    by destruct (cs_users s). }
  rewrite Hnone. by rewrite map_to_list_empty.
Qed.

(** In a reachable state the sweep of [cleanup] finds no session without
    members: whether [deleteMany] returns or throws, the sessions and the
    buffers are as before. *)
Theorem cleanup_sweeps_nothing w now :
  reachable w ->
  sessions (cleanup now w).2 = sessions w /\
  operations (cleanup now w).2 = operations w /\
  emitted (cleanup now w).2 = emitted w.
Proof.
  intros Hreach. pose proof (no_empty_sessions _ (reachable_registry_ok _ Hreach)) as Hids.
  unfold cleanup, bind, db, zoom, modify, Prisma.assetLock_.deleteMany_expired, Prisma.call.
  destruct (Prisma.faults _ _); simpl; [done|]. by rewrite Hids.
Qed.

Lemma cleanup_sweeps_nothing_witness :
  reachable (joined no_faults) /\
  sessions (cleanup 1000 (joined no_faults)).2 = sessions (joined no_faults).
Proof.
  split; [apply joined_reachable|].
  exact (proj1 (cleanup_sweeps_nothing _ 1000 (joined_reachable no_faults))).
Defined.


(** *** Leaving *)

(** When the holder of an unexpired lock leaves and another member
    stays, the session keeps the lock: the member who stays is still
    refused by the edit check. Leaving emits nothing and calls no store. *)
Theorem leaving_holder_keeps_the_lock w sessionId userId s other now :
  sessions w !! sessionId = Some s ->
  In other (cs_users s) -> su_id other <> userId ->
  holds_lock s userId now ->
  let w' := (leaveSession sessionId userId w).2 in
  (exists s', sessions w' !! sessionId = Some s' /\
              cs_locked s' = cs_locked s /\
              cs_users s' = List.filter (fun u => negb (has_id userId u)) (cs_users s) /\
              In other (cs_users s')) /\
  operations w' = operations w /\
  prisma w' = prisma w /\
  emitted w' = emitted w /\
  canUserEdit sessionId (su_id other) now w' = (Ret false, w').
Proof.
  intros Hs Hin Hne Hheld. cbv zeta.
  assert (Hstay : In other (List.filter (fun u => negb (has_id userId u)) (cs_users s))).
  { apply filter_In. split; [done|]. unfold has_id.
    by destruct (String.eqb_spec (su_id other) userId). }
  unfold leaveSession, bind, gets, store_session, modify, ret. rewrite Hs. simpl.
  destruct (List.filter _ (cs_users s)) as [|u rest] eqn:Hrest; [done|]. simpl.
  split; [|split; [done|split; [done|split; [done|]]]].
  - eexists. rewrite lookup_insert_eq. by repeat split.
  - apply (canUserEdit_refused _ _ (set_users (u :: rest) s)).
    + simpl. apply lookup_insert_eq.
    + destruct Hheld as (l & Hl & Hu & Hnow).
      intros [Hfree | (l' & Hl' & Hu' & _)].
      * unfold lock_free in Hfree. simpl in Hfree. rewrite Hl in Hfree. lia.
      * simpl in Hl'. rewrite Hl in Hl'. inversion Hl'; subst l'. congruence.
Qed.

Lemma leaving_holder_keeps_the_lock_witness :
  canUserEdit "doc-1" "u2" 100 (leaveSession "doc-1" "u1" shared_world).2
    = (Ret false, (leaveSession "doc-1" "u1" shared_world).2) /\
  prisma (leaveSession "doc-1" "u1" shared_world).2 = prisma shared_world.
Proof.
  assert (Hheld : holds_lock doc2 "u1" 100).
  { exists held. split; [reflexivity|]. split; [reflexivity|]. vm_compute. reflexivity. }
  assert (Hin : In bob (cs_users doc2)) by (right; left; reflexivity).
  assert (Hne : su_id bob <> "u1") by discriminate.
  destruct (leaving_holder_keeps_the_lock shared_world "doc-1" "u1" doc2 bob 100
              eq_refl Hin Hne Hheld) as (_ & _ & Hstore & _ & Hedit).
  split; [exact Hedit|exact Hstore].
Defined.

(** When the only member leaves and someone joins afterwards, the new
    session has no lock and an empty buffer, whatever the old one had;
    the store, with the row of the lock and the history, is untouched. *)
Theorem rejoin_starts_afresh w sessionId userId s newcomer name now :
  sessions w !! sessionId = Some s ->
  (forall u, In u (cs_users s) -> su_id u = userId) ->
  let w1 := (leaveSession sessionId userId w).2 in
  let w2 := (joinSession sessionId newcomer name now w1).2 in
  sessions w2 !! sessionId
    = Some (mkSession sessionId sessionId [mkSessionUser newcomer name None None] now None) /\
  operations w2 !! sessionId = Some [] /\
  prisma w2 = prisma w /\
  emitted w2 = emitted w.
Proof.
  intros Hs Hall. cbv zeta.
  unfold leaveSession, joinSession, bind, gets, store_session, modify, ret.
  rewrite Hs. simpl. rewrite (filter_out_all _ _ Hall). simpl.
  rewrite lookup_delete_eq. simpl. by rewrite !lookup_insert_eq.
Qed.

Lemma rejoin_starts_afresh_witness :
  sessions (joinSession "doc-1" "u2" "Bob" 900
              (leaveSession "doc-1" "u1" locked_world).2).2 !! "doc-1"
    = Some (mkSession "doc-1" "doc-1" [bob] 900 None) /\
  prisma (joinSession "doc-1" "u2" "Bob" 900
            (leaveSession "doc-1" "u1" locked_world).2).2 = prisma locked_world.
Proof.
  assert (Hall : forall u, In u (cs_users (doc1 (Some held))) -> su_id u = "u1").
  { intros u [<- | []]. reflexivity. }
  destruct (rejoin_starts_afresh locked_world "doc-1" "u1" (doc1 (Some held)) "u2" "Bob" 900
              eq_refl Hall) as (Hsession & _ & Hstore & _).
  split; [exact Hsession|exact Hstore].
Defined.


(** *** Locks *)

Lemma lockAsset_granted w sessionId session userId now :
  sessions w !! sessionId = Some session ->
  lock_free session now ->
  Prisma.faults (prisma w) (length (Prisma.calls (prisma w))) = None ->
  lockAsset sessionId userId now w =
    (Ret tt,
     set_prisma
       (Prisma.set_assetLock
          (<[sessionId := Prisma.mkAssetLockRow userId (now + LOCK_DURATION)]>
             (Prisma.assetLock (prisma w)))
          (Prisma.log_call
             (Prisma.assetLock_upsert sessionId
                (Prisma.mkAssetLockRow userId (now + LOCK_DURATION)))
             (prisma w)))
       (set_sessions
          (<[sessionId := set_locked (Some (mkLock userId (now + LOCK_DURATION))) session]>
             (sessions w)) w)).
Proof.
  intros Hs Hfree Hf. rewrite (lockAsset_grants _ _ _ _ _ Hs Hfree).
  unfold db, zoom, Prisma.assetLock_.upsert, Prisma.call, modify. simpl. by rewrite Hf.
Qed.


(** One user locks a free session, another is refused while the lock
    runs, the first releases, and the other is then granted a lock of
    its own, in the session and in the store (the three calls of the
    store returning). *)
Theorem lock_release_relock w sessionId s holder other now later :
  sessions w !! sessionId = Some s ->
  lock_free s now ->
  holder <> other ->
  now <= later < now + LOCK_DURATION ->
  (forall k, (k < 3)%nat ->
     Prisma.faults (prisma w) (length (Prisma.calls (prisma w)) + k) = None) ->
  let w1 := (lockAsset sessionId holder now w).2 in
  let w2 := (releaseLock sessionId holder w1).2 in
  let w3 := (lockAsset sessionId other later w2).2 in
  (lockAsset sessionId holder now w).1 = Ret tt /\
  lockAsset sessionId other later w1 = (Throw locked_by_another_user, w1) /\
  (releaseLock sessionId holder w1).1 = Ret tt /\
  (lockAsset sessionId other later w2).1 = Ret tt /\
  sessions w3 !! sessionId
    = Some (set_locked (Some (mkLock other (later + LOCK_DURATION))) s) /\
  Prisma.assetLock (prisma w3) !! sessionId
    = Some (Prisma.mkAssetLockRow other (later + LOCK_DURATION)).
Proof.
  intros Hs Hfree Hne Hlater Hf. cbv zeta.
  pose proof (Hf 0%nat ltac:(lia)) as Hf0. rewrite Nat.add_0_r in Hf0.
  pose proof (Hf 1%nat ltac:(lia)) as Hf1.
  pose proof (Hf 2%nat ltac:(lia)) as Hf2.
  rewrite (lockAsset_granted _ _ _ holder now Hs Hfree Hf0). simpl.
  split; [done|]. split.
  { unfold lockAsset, bind, gets, throw. simpl. rewrite lookup_insert_eq. simpl.
    replace (now + LOCK_DURATION >? later) with true by lia.
    by destruct (String.eqb_spec holder other). }
  match goal with
  | |- context [releaseLock sessionId holder ?W1] =>
      destruct (releaseLock sessionId holder W1) as [r2 w2] eqn:Hrel
  end.
  unfold releaseLock, bind, gets, store_session, modify, db, zoom,
    Prisma.assetLock_.delete_, Prisma.call in Hrel. simpl in Hrel.
  rewrite lookup_insert_eq in Hrel. simpl in Hrel.
  rewrite String.eqb_refl in Hrel. simpl in Hrel.
  rewrite length_app in Hrel. simpl in Hrel.
  rewrite Hf1, lookup_insert_eq in Hrel. simpl in Hrel.
  injection Hrel as <- <-. simpl.
  split; [done|].
  match goal with
  | |- context [lockAsset sessionId other later ?W2] =>
      assert (Hs2 : sessions W2 !! sessionId = Some (set_locked None s))
  end.
  { simpl. rewrite insert_insert_eq. apply lookup_insert_eq. }
  rewrite (lockAsset_granted _ _ _ other later Hs2 I).
  - simpl. rewrite !insert_insert_eq, !lookup_insert_eq. done.
  - simpl. rewrite !length_app. simpl.
    replace (length (Prisma.calls (prisma w)) + 1 + 1)%nat
      with (length (Prisma.calls (prisma w)) + 2)%nat by lia.
    done.
Qed.

Lemma lock_release_relock_witness :
  (lockAsset "doc-1" "u1" 10 open_world).1 = Ret tt /\
  (lockAsset "doc-1" "u2" 20 (lockAsset "doc-1" "u1" 10 open_world).2).1
    = Throw locked_by_another_user /\
  (lockAsset "doc-1" "u2" 20
     (releaseLock "doc-1" "u1" (lockAsset "doc-1" "u1" 10 open_world).2).2).1 = Ret tt.
Proof.
  assert (Hne : "u1" <> "u2") by discriminate.
  assert (Hlater : 10 <= 20 < 10 + LOCK_DURATION) by (unfold LOCK_DURATION; lia).
  destruct (lock_release_relock open_world "doc-1" (doc1 None) "u1" "u2" 10 20
              eq_refl I Hne Hlater (fun k _ => eq_refl))
    as (Hlock & Hrefused & _ & Hgranted & _).
  split; [exact Hlock|]. split; [exact (f_equal fst Hrefused)|exact Hgranted].
Defined.


(** While another user holds an unexpired lock, the operation handler
    changes nothing in the maps and the store: it emits the error to the
    sender and returns. *)
Theorem operation_refused_while_locked w sock sessionId userId s holder data now :
  truthy (sock_sessionId sock) = Some sessionId ->
  truthy (sock_userId sock) = Some userId ->
  sessions w !! sessionId = Some s ->
  holds_lock s holder now ->
  holder <> userId ->
  on_operation sock data now w = (Ret tt, set_emitted (emitted w ++ [edit_refused]) w).
Proof.
  intros Hsid Huid Hs (l & Hl & Hu & Hnow) Hne.
  apply (on_operation_refused _ _ _ _ _ _ Hsid Huid).
  intros s' Hs'. rewrite Hs in Hs'. injection Hs' as <-.
  intros [Hfree | (l' & Hl' & Hu' & _)].
  - unfold lock_free in Hfree. rewrite Hl in Hfree. lia.
  - rewrite Hl in Hl'. injection Hl' as <-. congruence.
Qed.

Lemma operation_refused_while_locked_witness :
  on_operation sock2 typing 100 shared_world
    = (Ret tt, set_emitted (emitted shared_world ++ [edit_refused]) shared_world).
Proof.
  assert (Hheld : holds_lock doc2 "u1" 100).
  { exists held. split; [reflexivity|]. split; [reflexivity|]. vm_compute. reflexivity. }
  assert (Hne : "u1" <> "u2") by discriminate.
  exact (operation_refused_while_locked shared_world sock2 "doc-1" "u2" doc2 "u1" typing 100
           eq_refl eq_refl eq_refl Hheld Hne).
Defined.

(** The lock handler: a request against the unexpired lock of another
    user changes nothing and emits the error to the sender; a request
    by the holder broadcasts the lock as it is; a request on a free
    session broadcasts the fresh lock when the upsert returns. *)
Theorem request_lock_reports w sock sessionId userId s now :
  truthy (sock_sessionId sock) = Some sessionId ->
  truthy (sock_userId sock) = Some userId ->
  sessions w !! sessionId = Some s ->
  (forall holder, holder <> userId -> holds_lock s holder now ->
     on_request_lock sock now w
       = (Ret tt, set_emitted (emitted w ++ [edit_refused]) w)) /\
  (holds_lock s userId now ->
     on_request_lock sock now w
       = (Ret tt, set_emitted
                    (emitted w ++ [mkEmit (ToRoom sessionId) "lock-state"
                                          (PLockState (cs_locked s))]) w)) /\
  (lock_free s now ->
   Prisma.faults (prisma w) (length (Prisma.calls (prisma w))) = None ->
   let fresh := mkLock userId (now + LOCK_DURATION) in
   let w' := (on_request_lock sock now w).2 in
   sessions w' = <[sessionId := set_locked (Some fresh) s]> (sessions w) /\
   emitted w' = emitted w ++ [mkEmit (ToRoom sessionId) "lock-state" (PLockState (Some fresh))] /\
   Prisma.assetLock (prisma w') !! sessionId
     = Some (Prisma.mkAssetLockRow userId (now + LOCK_DURATION))).
Proof.
  intros Hsid Huid Hs. unfold on_request_lock. rewrite (with_ids_joined _ _ _ _ Hsid Huid).
  split; [|split].
  - intros holder Hne (l & Hl & Hu & Hnow).
    unfold try_catch, bind at 1. unfold lockAsset, bind, gets, throw. rewrite Hs, Hl.
    replace (lock_until l >? now) with true by lia.
    destruct (String.eqb_spec (lock_userId l) userId) as [E|E]; [congruence|]. done.
  - intros (l & Hl & Hu & Hnow).
    unfold try_catch, bind at 1. unfold lockAsset, bind, gets, ret. rewrite Hs, Hl.
    replace (lock_until l >? now) with true by lia.
    rewrite Hu, String.eqb_refl. simpl.
    unfold broadcastLockState, bind, gets, emit, modify. by rewrite Hs, Hl.
  - intros Hfree Hf. cbv zeta.
    unfold broadcastLockState, emit. unfold try_catch, bind, gets, modify.
    rewrite (lockAsset_granted _ _ _ userId now Hs Hfree Hf).
    unfold set_prisma, set_sessions. simpl. rewrite !lookup_insert_eq. simpl.
    split; [done|]. split; [done|]. apply lookup_insert_eq.
Qed.

Lemma request_lock_reports_witness :
  on_request_lock sock2 100 shared_world
    = (Ret tt, set_emitted (emitted shared_world ++ [edit_refused]) shared_world).
Proof.
  assert (Hheld : holds_lock doc2 "u1" 100).
  { exists held. split; [reflexivity|]. split; [reflexivity|]. vm_compute. reflexivity. }
  assert (Hne : "u1" <> "u2") by discriminate.
  exact (proj1 (request_lock_reports shared_world sock2 "doc-1" "u2" doc2 100
                  eq_refl eq_refl eq_refl) "u1" Hne Hheld).
Defined.




(** *** The cleanup pass *)

Lemma lookup_foldr_delete {V} (ids : list string) (m : gmap string V) key :
  foldr base.delete m ids !! key = if decide (key ∈ ids) then None else m !! key.
Proof.
  induction ids as [|i ids IH].
  - rewrite decide_False by apply not_elem_of_nil. done.
  - change (foldr base.delete m (i :: ids)) with (base.delete i (foldr base.delete m ids)).
    rewrite lookup_delete, IH. repeat case_decide; set_solver.
Qed.

Lemma empty_session_ids_spec (m : gmap string CollaborationSession) key :
  key ∈ empty_session_ids m <-> exists s, m !! key = Some s /\ cs_users s = [].
Proof.
  unfold empty_session_ids. rewrite list_elem_of_fmap. split.
  - intros ([k s] & -> & Hin). apply elem_of_map_to_list in Hin.
    apply map_lookup_filter_Some in Hin as [Hs Hlen]. simpl in *.
    exists s. split; [done|]. by destruct (cs_users s).
  - intros (s & Hs & Hnil). exists (key, s). split; [done|].
    apply elem_of_map_to_list, map_lookup_filter_Some. split; [done|].
    simpl. by rewrite Hnil.
Qed.

Lemma cleanup_run w now :
  Prisma.faults (prisma w) (length (Prisma.calls (prisma w))) = None ->
  sessions (cleanup now w).2
    = foldr base.delete (sessions w) (empty_session_ids (sessions w)) /\
  Prisma.assetLock (prisma (cleanup now w).2)
    = base.filter (fun kv => ~ (Prisma.al_expiresAt kv.2 < now)) (Prisma.assetLock (prisma w)) /\
  Prisma.calls (prisma (cleanup now w).2)
    = Prisma.calls (prisma w) ++ [Prisma.assetLock_deleteMany now] /\
  Prisma.faults (prisma (cleanup now w).2) = Prisma.faults (prisma w) /\
  emitted (cleanup now w).2 = emitted w.
Proof.
  intros Hf.
  unfold cleanup, bind, db, zoom, modify, Prisma.assetLock_.deleteMany_expired, Prisma.call.
  rewrite Hf. done.
Qed.

(** When [deleteMany] returns, [cleanup] has deleted from the store the
    rows of the locks whose [expiresAt] is before [now], and no other: a
    row that expires at [now] itself stays. It writes to no session: one
    that has a member is kept as it is, with its lock, expired or not. *)
Theorem cleanup_deletes_expired_rows w now :
  Prisma.faults (prisma w) (length (Prisma.calls (prisma w))) = None ->
  (cleanup now w).1 = Ret tt /\
  (forall key row,
     Prisma.assetLock (prisma (cleanup now w).2) !! key = Some row <->
     Prisma.assetLock (prisma w) !! key = Some row /\ now <= Prisma.al_expiresAt row) /\
  (forall key s,
     sessions (cleanup now w).2 !! key = Some s <->
     sessions w !! key = Some s /\ cs_users s <> []) /\
  Prisma.assetHistory (prisma (cleanup now w).2) = Prisma.assetHistory (prisma w).
Proof.
  intros Hf.
  unfold cleanup, bind, db, zoom, modify, Prisma.assetLock_.deleteMany_expired, Prisma.call.
  rewrite Hf. simpl. split; [done|]. split; [|split; [|done]].
  - intros key row. rewrite map_lookup_filter_Some. simpl. split.
    + intros [? ?]. split; [done|lia].
    + intros [? ?]. split; [done|lia].
  - intros key s. rewrite lookup_foldr_delete. case_decide as Hin.
    + apply empty_session_ids_spec in Hin as (s' & Hs' & Hnil). split; [done|].
      intros [Hs Hne]. rewrite Hs' in Hs. by injection Hs as <-.
    + split.
      * intros Hs. split; [done|]. intros Hnil. apply Hin, empty_session_ids_spec. eauto.
      * by intros [? _].
Qed.

Lemma cleanup_deletes_expired_rows_witness :
  Prisma.assetLock (prisma (cleanup 500 locked_world).2) !! "doc-1"
    = Some (Prisma.mkAssetLockRow "u1" 500) /\
  sessions (cleanup 500 locked_world).2 !! "doc-1" = Some (doc1 (Some held)).
Proof.
  destruct (cleanup_deletes_expired_rows locked_world 500 eq_refl) as (_ & Hrows & Hsessions & _).
  split.
  - apply Hrows. split; [reflexivity|]. vm_compute. discriminate.
  - apply Hsessions. split; [reflexivity|discriminate].
Defined.

(** When the row of a lock has been deleted by [cleanup] after its
    expiry, the release by the user of the lock removes the lock from
    the session, the [delete] of the store throws for the missing row,
    and the handler emits that error to the sender and no lock state. *)
Theorem release_after_cleanup w sock sessionId userId s l row now :
  truthy (sock_sessionId sock) = Some sessionId ->
  truthy (sock_userId sock) = Some userId ->
  sessions w !! sessionId = Some s ->
  cs_users s <> [] ->
  cs_locked s = Some l ->
  lock_userId l = userId ->
  Prisma.assetLock (prisma w) !! sessionId = Some row ->
  Prisma.al_expiresAt row < now ->
  (forall k, (k < 2)%nat ->
     Prisma.faults (prisma w) (length (Prisma.calls (prisma w)) + k) = None) ->
  let w1 := (cleanup now w).2 in
  let w2 := (on_release_lock sock w1).2 in
  (releaseLock sessionId userId w1).1 = Throw (PrismaError Prisma.record_not_found) /\
  sessions w2 !! sessionId = Some (set_locked None s) /\
  emitted w2 = emitted w ++ [mkEmit ToSender "error" (PError Prisma.record_not_found)].
Proof.
  intros Hsid Huid Hs Hne Hl Hu Hrow Hexp Hf. cbv zeta.
  pose proof (Hf 0%nat ltac:(lia)) as Hf0. rewrite Nat.add_0_r in Hf0.
  pose proof (Hf 1%nat ltac:(lia)) as Hf1.
  destruct (cleanup_run w now Hf0) as (Hs1 & Hrows1 & Hcalls1 & Hfaults1 & Hemit1).
  assert (Hs1' : sessions (cleanup now w).2 !! sessionId = Some s).
  { rewrite Hs1, lookup_foldr_delete. case_decide as Hin; [|done].
    apply empty_session_ids_spec in Hin as (s' & Hs' & Hnil).
    rewrite Hs in Hs'. by injection Hs' as <-. }
  assert (Hrow1 : Prisma.assetLock (prisma (cleanup now w).2) !! sessionId = None).
  { rewrite Hrows1. apply map_lookup_filter_None. right. intros row' Hrow'.
    rewrite Hrow in Hrow'. injection Hrow' as <-. simpl. lia. }
  assert (Hf1' : Prisma.faults (prisma (cleanup now w).2)
                   (length (Prisma.calls (prisma (cleanup now w).2))) = None).
  { rewrite Hfaults1, Hcalls1, length_app. done. }
  assert (Hrel : releaseLock sessionId userId (cleanup now w).2 =
            (Throw (PrismaError Prisma.record_not_found),
             set_prisma (Prisma.log_call (Prisma.assetLock_delete sessionId)
                           (prisma (cleanup now w).2))
               (set_sessions (<[sessionId := set_locked None s]>
                                (sessions (cleanup now w).2)) (cleanup now w).2))).
  { unfold releaseLock, bind, gets, store_session, modify, db, zoom,
      Prisma.assetLock_.delete_, Prisma.call, throw.
    rewrite Hs1', Hl, Hu, String.eqb_refl. simpl. rewrite Hf1'. simpl. by rewrite Hrow1. }
  split; [by rewrite Hrel|].
  unfold on_release_lock. rewrite (with_ids_joined _ _ _ _ Hsid Huid).
  unfold report, emit. unfold try_catch, bind, modify. rewrite Hrel.
  unfold set_prisma, set_sessions. simpl. rewrite lookup_insert_eq, Hemit1. done.
Qed.


Lemma release_after_cleanup_witness :
  sessions (on_release_lock sock1 (cleanup 1000 locked_world).2).2 !! "doc-1"
    = Some (doc1 None) /\
  emitted (on_release_lock sock1 (cleanup 1000 locked_world).2).2
    = [mkEmit ToSender "error" (PError Prisma.record_not_found)].
Proof.
  assert (Hne : cs_users (doc1 (Some held)) <> []) by discriminate.
  assert (Hexp : Prisma.al_expiresAt (Prisma.mkAssetLockRow "u1" 500) < 1000)
    by (vm_compute; reflexivity).
  destruct (release_after_cleanup locked_world sock1 "doc-1" "u1" (doc1 (Some held)) held
              (Prisma.mkAssetLockRow "u1" 500) 1000
              eq_refl eq_refl eq_refl Hne eq_refl eq_refl eq_refl Hexp (fun k _ => eq_refl))
    as (_ & Hs & Hemit).
  split; [exact Hs|exact Hemit].
Defined.

(** *** Presence *)

Lemma find_update_first userId (f : SessionUser -> SessionUser) us :
  (forall u, su_id (f u) = su_id u) ->
  List.find (has_id userId) (update_first userId f us)
    = f <$> List.find (has_id userId) us.
Proof.
  intros Hf. induction us as [|u us IH]; simpl; [done|].
  destruct (has_id userId u) eqn:Hu; simpl.
  - unfold has_id in *. by rewrite Hf, Hu.
  - by rewrite Hu.
Qed.

Lemma update_first_others userId (f : SessionUser -> SessionUser) us :
  (forall u, su_id (f u) = su_id u) ->
  List.filter (fun u => negb (has_id userId u)) (update_first userId f us)
    = List.filter (fun u => negb (has_id userId u)) us.
Proof.
  intros Hf. induction us as [|u us IH]; simpl; [done|].
  destruct (has_id userId u) eqn:Hu; simpl.
  - unfold has_id in *. by rewrite Hf, Hu.
  - by rewrite Hu, IH.
Qed.

Lemma update_first_length userId (f : SessionUser -> SessionUser) us :
  length (update_first userId f us) = length us.
Proof.
  induction us as [|u us IH]; simpl; [done|].
  destruct (has_id userId u); simpl; [done|by rewrite IH].
Qed.

(** A cursor move on a socket that has joined is emitted to the others
    of the room, once, whether or not the session or the member exists.
    It calls no store and touches no buffer; in the session it sets the
    cursor of the member with that id and nothing else: the other
    members, the ids, the lock and [lastModified] are as before. *)
Theorem cursor_move_is_presence_only w sock sessionId userId data :
  truthy (sock_sessionId sock) = Some sessionId ->
  truthy (sock_userId sock) = Some userId ->
  let w' := (on_cursor_move sock data w).2 in
  let moved u := mkSessionUser (su_id u) (su_name u) (Some data) (su_selection u) in
  (on_cursor_move sock data w).1 = Ret tt /\
  emitted w' = emitted w
                 ++ [mkEmit (ToOthers sessionId) "cursor-update" (PCursorUpdate userId data)] /\
  prisma w' = prisma w /\
  operations w' = operations w /\
  (sessions w !! sessionId = None -> sessions w' = sessions w) /\
  (forall s,
     sessions w !! sessionId = Some s ->
     exists s',
       sessions w' = <[sessionId := s']> (sessions w) /\
       cs_locked s' = cs_locked s /\
       cs_lastModified s' = cs_lastModified s /\
       length (cs_users s') = length (cs_users s) /\
       map su_id (cs_users s') = map su_id (cs_users s) /\
       List.find (has_id userId) (cs_users s')
         = moved <$> List.find (has_id userId) (cs_users s) /\
       List.filter (fun u => negb (has_id userId u)) (cs_users s')
         = List.filter (fun u => negb (has_id userId u)) (cs_users s)).
Proof.
  intros Hsid Huid. cbv zeta.
  unfold on_cursor_move. rewrite (with_ids_joined _ _ _ _ Hsid Huid).
  unfold updateUserCursor, emit, store_session. unfold bind, gets, modify, ret.
  destruct (sessions w !! sessionId) as [s|] eqn:Hs; simpl.
  - split; [done|]. split; [done|]. split; [done|]. split; [done|]. split; [done|].
    intros s' [= <-]. eexists. split; [done|]. simpl.
    split; [done|]. split; [done|]. split; [apply update_first_length|].
    split; [by apply map_su_id_update_first|].
    split; [by apply find_update_first|by apply update_first_others].
  - by repeat split.
Qed.

Lemma cursor_move_is_presence_only_witness :
  emitted (on_cursor_move sock9 (3, 4) unjoined).2
    = emitted unjoined ++ [mkEmit (ToOthers "doc-1") "cursor-update" (PCursorUpdate "u9" (3, 4))] /\
  sessions (on_cursor_move sock9 (3, 4) unjoined).2 = sessions unjoined.
Proof.
  destruct (cursor_move_is_presence_only unjoined sock9 "doc-1" "u9" (3, 4) eq_refl eq_refl)
    as (_ & Hemit & _ & _ & Hnone & _).
  split; [exact Hemit|]. apply Hnone. reflexivity.
Defined.

(** The same for a change of selection. *)
Theorem selection_change_is_presence_only w sock sessionId userId data :
  truthy (sock_sessionId sock) = Some sessionId ->
  truthy (sock_userId sock) = Some userId ->
  let w' := (on_selection_change sock data w).2 in
  let selected u := mkSessionUser (su_id u) (su_name u) (su_cursor u) (Some data) in
  (on_selection_change sock data w).1 = Ret tt /\
  emitted w' = emitted w
                 ++ [mkEmit (ToOthers sessionId) "selection-update"
                            (PSelectionUpdate userId data)] /\
  prisma w' = prisma w /\
  operations w' = operations w /\
  (sessions w !! sessionId = None -> sessions w' = sessions w) /\
  (forall s,
     sessions w !! sessionId = Some s ->
     exists s',
       sessions w' = <[sessionId := s']> (sessions w) /\
       cs_locked s' = cs_locked s /\
       cs_lastModified s' = cs_lastModified s /\
       length (cs_users s') = length (cs_users s) /\
       map su_id (cs_users s') = map su_id (cs_users s) /\
       List.find (has_id userId) (cs_users s')
         = selected <$> List.find (has_id userId) (cs_users s) /\
       List.filter (fun u => negb (has_id userId u)) (cs_users s')
         = List.filter (fun u => negb (has_id userId u)) (cs_users s)).
Proof.
  intros Hsid Huid. cbv zeta.
  unfold on_selection_change. rewrite (with_ids_joined _ _ _ _ Hsid Huid).
  unfold updateUserSelection, emit, store_session. unfold bind, gets, modify, ret.
  destruct (sessions w !! sessionId) as [s|] eqn:Hs; simpl.
  - split; [done|]. split; [done|]. split; [done|]. split; [done|]. split; [done|].
    intros s' [= <-]. eexists. split; [done|]. simpl.
    split; [done|]. split; [done|]. split; [apply update_first_length|].
    split; [by apply map_su_id_update_first|].
    split; [by apply find_update_first|by apply update_first_others].
  - by repeat split.
Qed.

Lemma selection_change_is_presence_only_witness :
  exists s',
    sessions (on_selection_change sock2 (1, 5) shared_world).2
      = <["doc-1" := s']> (sessions shared_world) /\
    cs_locked s' = Some held /\
    List.find (has_id "u2") (cs_users s')
      = Some (mkSessionUser "u2" "Bob" None (Some (1, 5))).
Proof.
  destruct (selection_change_is_presence_only shared_world sock2 "doc-1" "u2" (1, 5)
              eq_refl eq_refl) as (_ & _ & _ & _ & _ & Hsome).
  destruct (Hsome doc2 eq_refl) as (s' & Hs & Hlock & _ & _ & _ & Hfind & _).
  exists s'. split; [exact Hs|]. split; [exact Hlock|exact Hfind].
Defined.


(** *** Joining and disconnecting *)

Lemma joinSession_run w sessionId userId name now :
  exists s u,
    (joinSession sessionId userId name now w).1 = Ret tt /\
    sessions (joinSession sessionId userId name now w).2 !! sessionId = Some s /\
    List.find (has_id userId) (cs_users s) = Some u /\
    prisma (joinSession sessionId userId name now w).2 = prisma w /\
    emitted (joinSession sessionId userId name now w).2 = emitted w /\
    (sessions w !! sessionId = None ->
     s = mkSession sessionId sessionId [mkSessionUser userId name None None] now None /\
     operations (joinSession sessionId userId name now w).2 !! sessionId = Some []) /\
    (is_Some (sessions w !! sessionId) ->
     operations (joinSession sessionId userId name now w).2 = operations w).
Proof.
  unfold joinSession, bind, store_session, modify, ret.
  destruct (sessions w !! sessionId) as [s|] eqn:Hs; simpl.
  - destruct (List.find (has_id userId) (cs_users s)) as [u|] eqn:Hfind; simpl.
    + exists s, u. repeat split; try done.
    + eexists _, _. rewrite lookup_insert_eq. simpl.
      split; [done|]. split; [done|].
      split; [apply find_has_id_app; [done|apply String.eqb_refl]|].
      repeat split; try done.
  - eexists _, _. rewrite !lookup_insert_eq. simpl.
    split; [done|]. split; [done|].
    split; [unfold has_id; simpl; by rewrite String.eqb_refl|].
    repeat split; try done; try (by intros [? ?]).
Qed.

Lemma on_join_run w userId assetId now :
  on_join userId assetId now w =
    let logged := set_prisma (Prisma.log_call (Prisma.user_findUnique userId) (prisma w)) w in
    match Prisma.faults (prisma w) (length (Prisma.calls (prisma w))) with
    | Some msg => (Throw (PrismaError msg), logged)
    | None =>
        match Prisma.user (prisma w) !! userId with
        | None => emit ToSender "error" (PError "User not found") logged
        | Some row =>
            (do _ <- joinSession assetId (Prisma.user_id row)
                       (default "Anonymous" (truthy (Prisma.user_name row))) now;
             do state <- getSessionState assetId;
             do _ <- emit ToSender "session-state" state;
             broadcastUserList assetId) logged
        end
    end.
Proof.
  unfold on_join. unfold bind at 1. unfold db, zoom, Prisma.user_.findUnique, Prisma.call, gets.
  destruct (Prisma.faults (prisma w) (length (Prisma.calls (prisma w)))); simpl; [done|].
  destruct (Prisma.user (prisma w) !! userId) as [row|]; [|done].
  by destruct (truthy (Prisma.user_name row)).
Qed.

(** The join handler. When the lookup of the user throws, the error
    leaves the handler and nothing is emitted. When the store has no
    such user, the sender gets "User not found" and no session is
    touched. Otherwise the user is a member of the session of the asset
    afterwards, the sender gets the state of the session, and the room
    gets the list of members; on an asset without a session the session
    is new, with that one member, named "Anonymous" when the row has no
    name or an empty one. *)
Theorem join_admits_known_users w userId assetId now :
  let w' := (on_join userId assetId now w).2 in
  let logged := set_prisma (Prisma.log_call (Prisma.user_findUnique userId) (prisma w)) w in
  match Prisma.faults (prisma w) (length (Prisma.calls (prisma w))) with
  | Some msg => on_join userId assetId now w = (Throw (PrismaError msg), logged)
  | None =>
      match Prisma.user (prisma w) !! userId with
      | None =>
          on_join userId assetId now w
            = (Ret tt,
               set_emitted (emitted w ++ [mkEmit ToSender "error" (PError "User not found")])
                           logged)
      | Some row =>
          (on_join userId assetId now w).1 = Ret tt /\
          exists s u,
            sessions w' !! assetId = Some s /\
            List.find (has_id (Prisma.user_id row)) (cs_users s) = Some u /\
            emitted w'
              = emitted w
                  ++ [mkEmit ToSender "session-state"
                             (PSessionState (Some s) (default [] (operations w' !! assetId)));
                      mkEmit (ToRoom assetId) "users" (PUsers (cs_users s))] /\
            (sessions w !! assetId = None ->
             s = mkSession assetId assetId
                   [mkSessionUser (Prisma.user_id row)
                      (default "Anonymous" (truthy (Prisma.user_name row))) None None]
                   now None /\
             operations w' !! assetId = Some [])
      end
  end.
Proof.
  cbv zeta. rewrite on_join_run. cbv zeta.
  destruct (Prisma.faults (prisma w) (length (Prisma.calls (prisma w)))) as [msg|]; [done|].
  destruct (Prisma.user (prisma w) !! userId) as [row|] eqn:Hrow; [|done].
  set (name := default "Anonymous" (truthy (Prisma.user_name row))).
  set (logged := set_prisma (Prisma.log_call (Prisma.user_findUnique userId) (prisma w)) w).
  destruct (joinSession_run logged assetId (Prisma.user_id row) name now)
    as (s & u & Hret & Hs & Hfind & Hstore & Hemit & Hnew & _).
  unfold getSessionState, broadcastUserList, emit. unfold bind, gets, modify.
  destruct (joinSession assetId (Prisma.user_id row) name now logged) as [r wj].
  simpl in *. subst r. simpl. rewrite Hs. simpl.
  split; [done|]. exists s, u. rewrite Hemit, <- app_assoc. simpl.
  split; [done|]. split; [done|]. split; [done|].
  intros Hnone. by apply Hnew.
Qed.

(** The disconnect handler on a socket that has joined a session: it
    calls no store; when no member is left the session and its buffer
    are deleted and nothing is emitted; otherwise the session keeps the
    others and their list goes to the room. *)
Theorem disconnect_tells_the_remaining w sock sessionId userId s :
  truthy (sock_sessionId sock) = Some sessionId ->
  truthy (sock_userId sock) = Some userId ->
  sessions w !! sessionId = Some s ->
  let rest := List.filter (fun u => negb (has_id userId u)) (cs_users s) in
  let w' := (on_disconnect sock w).2 in
  prisma w' = prisma w /\
  (rest = [] ->
   sessions w' = base.delete sessionId (sessions w) /\
   operations w' = base.delete sessionId (operations w) /\
   emitted w' = emitted w) /\
  (rest <> [] ->
   sessions w' = <[sessionId := set_users rest s]> (sessions w) /\
   operations w' = operations w /\
   emitted w' = emitted w ++ [mkEmit (ToRoom sessionId) "users" (PUsers rest)]).
Proof.
  intros Hsid Huid Hs. cbv zeta.
  unfold on_disconnect. rewrite (with_ids_joined _ _ _ _ Hsid Huid).
  unfold leaveSession, broadcastUserList, store_session, emit.
  unfold bind, gets, modify, ret. rewrite Hs. simpl.
  destruct (List.filter _ (cs_users s)) as [|u rest] eqn:Hrest; simpl.
  - rewrite lookup_delete_eq. simpl. rewrite delete_insert_eq. done.
  - rewrite lookup_insert_eq. simpl. done.
Qed.

Lemma disconnect_tells_the_remaining_witness :
  sessions (on_disconnect sock1 shared_world).2
    = <["doc-1" := set_users [bob] doc2]> (sessions shared_world) /\
  emitted (on_disconnect sock1 shared_world).2
    = [mkEmit (ToRoom "doc-1") "users" (PUsers [bob])].
Proof.
  destruct (disconnect_tells_the_remaining shared_world sock1 "doc-1" "u1" doc2
              eq_refl eq_refl eq_refl) as (_ & _ & Hrest).
  assert (Hne : List.filter (fun u => negb (has_id "u1" u)) (cs_users doc2) <> [])
    by discriminate.
  destruct (Hrest Hne) as (Hs & _ & Hemit).
  split; [exact Hs|exact Hemit].
Defined.


(** *** Two operations *)



End RegistryMore.

(** * More on the version store *)

Section VersionsMore.

Import VersionManager VersionViews VersionExamples.
Import Prisma.assetVersion_.

Implicit Types (store : Prisma.Store) (v : Version) (t : list Version).

Lemma calls_pass_two n store :
  (2 <= n)%nat -> calls_pass n store -> two_calls_pass store.
Proof.
  intros Hn Hpass. split.
  - rewrite <- (Nat.add_0_r (length _)). apply Hpass. lia.
  - rewrite <- Nat.add_1_r. apply Hpass. lia.
Qed.

Lemma find_by_id_app_none t t' id :
  find_by_id id t = None -> find_by_id id (t ++ t') = find_by_id id t'.
Proof.
  unfold find_by_id. induction t as [|x t IH]; simpl; [done|].
  destruct (String.eqb (v_id x) id); [done|]. apply IH.
Qed.

Lemma inverse_inverse (change : Change) :
  inverse (inverse change) = essential change.
Proof. destruct change as [[] ? ? ? ?]; reflexivity. Qed.

(** The run of [revertToVersion] on a target that resolves, with a
    fresh id, when its two calls return. *)
Lemma revertToVersion_run store uuid now assetId versionId userId target :
  two_calls_pass store ->
  find_by_id versionId (Prisma.assetVersion store) = Some target ->
  find_by_id uuid (Prisma.assetVersion store) = None ->
  let created :=
    mkVersion uuid assetId userId now (map inverse (v_changes target)) "{}"
              ["revert"] (String.append "Reverted to version " versionId) in
  revertToVersion uuid now assetId versionId userId store
    = (Ret created,
       Prisma.set_assetVersion (Prisma.assetVersion store ++ [created])
         (Prisma.log_call (Prisma.assetVersion_create created)
            (Prisma.log_call (Prisma.assetVersion_findUnique versionId) store))).
Proof.
  intros [Hf1 Hf2] Hfound Hfresh. cbv zeta.
  unfold revertToVersion, getVersion, createVersion, findUnique, create,
    Prisma.call, bind, gets, ret, throw.
  rewrite Hf1. simpl. rewrite Hfound. simpl.
  rewrite length_app. simpl. rewrite Nat.add_1_r, Hf2. simpl.
  by rewrite Hfresh.
Qed.

(** Reverting to a version and then reverting to the version this
    created gives a version whose changes are those of the first
    target, reduced to the fields that their type uses (the content of
    an add, the previous content of a delete, both for a modify, no
    metadata); the table has the two new versions at its end (the four
    calls of the client returning, the two ids being fresh). *)
Theorem revert_of_revert_restores
        store uuid1 uuid2 now1 now2 assetId versionId userId target :
  calls_pass 4 store ->
  find_by_id versionId (Prisma.assetVersion store) = Some target ->
  find_by_id uuid1 (Prisma.assetVersion store) = None ->
  find_by_id uuid2 (Prisma.assetVersion store) = None ->
  uuid1 <> uuid2 ->
  let once := revertToVersion uuid1 now1 assetId versionId userId store in
  let twice := revertToVersion uuid2 now2 assetId uuid1 userId once.2 in
  exists v1 v2,
    once.1 = Ret v1 /\ twice.1 = Ret v2 /\
    v_changes v1 = map inverse (v_changes target) /\
    v_changes v2 = map essential (v_changes target) /\
    Prisma.assetVersion twice.2 = Prisma.assetVersion store ++ [v1; v2].
Proof.
  intros Hpass Hfound Hfresh1 Hfresh2 Hne. cbv zeta.
  rewrite (revertToVersion_run _ _ _ _ _ _ target (calls_pass_two 4 _ ltac:(lia) Hpass)
             Hfound Hfresh1). simpl.
  set (v1 := mkVersion uuid1 assetId userId now1 (map inverse (v_changes target)) "{}"
                       ["revert"] (String.append "Reverted to version " versionId)).
  match goal with
  | |- context [revertToVersion uuid2 now2 assetId uuid1 userId ?S] => set (store1 := S)
  end.
  assert (Hpass1 : two_calls_pass store1).
  { unfold store1. split; simpl; rewrite !length_app; simpl.
    - replace (length (Prisma.calls store) + 1 + 1)%nat
        with (length (Prisma.calls store) + 2)%nat by lia. apply Hpass. lia.
    - replace (S (length (Prisma.calls store) + 1 + 1))
        with (length (Prisma.calls store) + 3)%nat by lia. apply Hpass. lia. }
  assert (Hfound1 : find_by_id uuid1 (Prisma.assetVersion store1) = Some v1).
  { unfold store1. simpl. rewrite (find_by_id_app_none _ _ _ Hfresh1).
    unfold find_by_id. simpl. by rewrite String.eqb_refl. }
  assert (Hfresh : find_by_id uuid2 (Prisma.assetVersion store1) = None).
  { unfold store1. simpl. rewrite (find_by_id_app_none _ _ _ Hfresh2).
    unfold find_by_id. simpl. by destruct (String.eqb_spec uuid1 uuid2). }
  rewrite (revertToVersion_run _ _ _ _ _ _ v1 Hpass1 Hfound1 Hfresh). simpl.
  eexists _, _. split; [done|]. split; [done|]. split; [done|]. split.
  - rewrite map_map. apply map_ext. intros c. apply inverse_inverse.
  - unfold store1. simpl. by rewrite <- app_assoc.
Qed.

Lemma revert_of_revert_restores_witness :
  exists v1 v2,
    (revertToVersion "V4" 8 "asset-1" "V3" "user-2"
       (revertToVersion "V3" 7 "asset-1" "V1" "user-2" (store_of [V1])).2).1 = Ret v2 /\
    v_changes v1 = map inverse (v_changes V1) /\
    v_changes v2 = map essential (v_changes V1).
Proof.
  assert (Hne : "V3" <> "V4") by discriminate.
  destruct (revert_of_revert_restores (store_of [V1]) "V3" "V4" 7 8 "asset-1" "V1" "user-2" V1
              (fun k _ => eq_refl) eq_refl eq_refl eq_refl Hne)
    as (v1 & v2 & _ & Htwice & Hc1 & Hc2 & _).
  exists v1, v2. split; [exact Htwice|]. split; [exact Hc1|exact Hc2].
Defined.


(** *** Comparing *)

Section CompareMore.

Variable diff_main : string -> string -> list Diff.
Variable diff_cleanupSemantic : list Diff -> list Diff.

Local Abbreviation compare_path :=
  (VersionManager.compare_path diff_main diff_cleanupSemantic).
Local Abbreviation compareVersions :=
  (VersionManager.compareVersions diff_main diff_cleanupSemantic).

(** The changes that [compareVersions] computes from two change lists. *)
Local Abbreviation compared changes1 changes2 :=
  (flat_map (compare_path changes1 changes2)
            (path_set (map ch_path changes1 ++ map ch_path changes2))).

Lemma compareVersions_run store versionId1 versionId2 :
  two_calls_pass store ->
  (compareVersions versionId1 versionId2 store).1 =
    match find_by_id versionId1 (Prisma.assetVersion store),
          find_by_id versionId2 (Prisma.assetVersion store) with
    | Some A, Some B => Ret (compared (v_changes A) (v_changes B))
    | _, _ => Throw versions_not_found
    end /\
  Prisma.assetVersion (compareVersions versionId1 versionId2 store).2
    = Prisma.assetVersion store.
Proof.
  intros [Hf1 Hf2].
  unfold VersionManager.compareVersions, promise_all2, getVersion,
    findUnique, Prisma.call, bind, gets, ret, throw.
  rewrite Hf1. simpl.
  destruct (find_by_id versionId1 (Prisma.assetVersion store)); simpl;
    rewrite length_app; simpl; rewrite Nat.add_1_r, Hf2; simpl;
    by destruct (find_by_id versionId2 (Prisma.assetVersion store)).
Qed.

Lemma flat_map_all_nil {A B} (f : A -> list B) (l : list A) :
  (forall x, In x l -> f x = []) -> flat_map f l = [].
Proof.
  induction l as [|x l IH]; simpl; intros Hall; [done|].
  rewrite (Hall x) by auto. apply IH. auto.
Qed.

Lemma entry_of_path changes path :
  In path (map ch_path changes) -> exists c, entry changes path = Some c.
Proof.
  intros Hin. destruct (entry changes path) as [c|] eqn:E; [by exists c|].
  by apply entry_None in E.
Qed.

Lemma compare_path_same changes path :
  In path (map ch_path changes) -> compare_path changes changes path = [].
Proof.
  intros Hin. destruct (entry_of_path _ _ Hin) as [c Hc].
  unfold VersionManager.compare_path. unfold entry in Hc. rewrite Hc.
  by rewrite bool_decide_eq_true_2.
Qed.

(** A version compared with itself has no changes: when the id
    resolves and the two calls return, [compareVersions] returns the
    empty list and leaves the table as it is. *)
Theorem compare_with_itself store versionId v :
  two_calls_pass store ->
  find_by_id versionId (Prisma.assetVersion store) = Some v ->
  (compareVersions versionId versionId store).1 = Ret [] /\
  Prisma.assetVersion (compareVersions versionId versionId store).2
    = Prisma.assetVersion store.
Proof.
  intros Hpass Hfound. destruct (compareVersions_run store versionId versionId Hpass)
    as [Hrun Htable].
  split; [|done]. rewrite Hrun, Hfound. f_equal.
  apply flat_map_all_nil. intros p Hp. apply compare_path_same.
  rewrite path_set_In, in_app_iff in Hp. by destruct Hp.
Qed.

Lemma compare_path_swap changes1 changes2 path :
  In path (map ch_path changes1) \/ In path (map ch_path changes2) ->
  map inverse (compare_path changes1 changes2 path)
    = map without_metadata (compare_path changes2 changes1 path).
Proof.
  intros Hin. unfold VersionManager.compare_path.
  destruct (List.find (has_path path) changes1) as [c1|] eqn:E1;
    destruct (List.find (has_path path) changes2) as [c2|] eqn:E2; simpl.
  - repeat case_bool_decide; try done; congruence.
  - done.
  - done.
  - exfalso. destruct Hin as [Hin|Hin]; by apply entry_None in Hin.
Qed.

(** Comparing B with A gives the inverses of the changes of comparing A
    with B, metadata apart: a change is the inverse of one of the
    first list exactly when it is, without its metadata, in the
    second. *)
Theorem compare_swapped_is_inverse store versionId1 versionId2 A B :
  two_calls_pass store ->
  find_by_id versionId1 (Prisma.assetVersion store) = Some A ->
  find_by_id versionId2 (Prisma.assetVersion store) = Some B ->
  exists forth back,
    (compareVersions versionId1 versionId2 store).1 = Ret forth /\
    (compareVersions versionId2 versionId1 store).1 = Ret back /\
    forall c, In c (map inverse forth) <-> In c (map without_metadata back).
Proof.
  intros Hpass HA HB.
  destruct (compareVersions_run store versionId1 versionId2 Hpass) as [Hforth _].
  destruct (compareVersions_run store versionId2 versionId1 Hpass) as [Hback _].
  rewrite HA, HB in Hforth. rewrite HA, HB in Hback.
  eexists _, _. split; [exact Hforth|]. split; [exact Hback|].
  intros c. rewrite !in_map_iff. split.
  - intros (x & Hx & Hin). apply in_flat_map in Hin as (p & Hp & Hin).
    rewrite path_set_In, in_app_iff in Hp.
    assert (Hc : In c (map inverse (compare_path (v_changes A) (v_changes B) p))).
    { apply in_map_iff. by exists x. }
    rewrite compare_path_swap in Hc by done.
    apply in_map_iff in Hc as (y & Hy & Hin'). exists y. split; [done|].
    apply in_flat_map. exists p. split; [|done].
    rewrite path_set_In, in_app_iff. tauto.
  - intros (y & Hy & Hin). apply in_flat_map in Hin as (p & Hp & Hin).
    rewrite path_set_In, in_app_iff in Hp.
    assert (Hc : In c (map without_metadata (compare_path (v_changes B) (v_changes A) p))).
    { apply in_map_iff. by exists y. }
    rewrite <- compare_path_swap in Hc by tauto.
    apply in_map_iff in Hc as (x & Hx & Hin'). exists x. split; [done|].
    apply in_flat_map. exists p. split; [|done].
    rewrite path_set_In, in_app_iff. tauto.
Qed.

End CompareMore.

Lemma compare_with_itself_witness :
  (VersionManager.compareVersions replace_all keep "V2" "V2" (store_of [V1; V2])).1 = Ret [].
Proof.
  assert (Hpass : two_calls_pass (store_of [V1; V2])) by (split; reflexivity).
  exact (proj1 (compare_with_itself replace_all keep (store_of [V1; V2]) "V2" V2
                  Hpass eq_refl)).
Defined.

Lemma compare_swapped_is_inverse_witness :
  exists forth back,
    (VersionManager.compareVersions replace_all keep "V1" "V2" (store_of [V1; V2])).1
      = Ret forth /\
    (VersionManager.compareVersions replace_all keep "V2" "V1" (store_of [V1; V2])).1
      = Ret back /\
    forall c, In c (map inverse forth) <-> In c (map without_metadata back).
Proof.
  assert (Hpass : two_calls_pass (store_of [V1; V2])) by (split; reflexivity).
  exact (compare_swapped_is_inverse replace_all keep (store_of [V1; V2]) "V1" "V2" V1 V2
           Hpass eq_refl eq_refl).
Defined.


(** *** Tags *)

Lemma addTag_run store versionId tag v :
  two_calls_pass store ->
  find_by_id versionId (Prisma.assetVersion store) = Some v ->
  addTag versionId tag store
    = (Ret tt,
       Prisma.set_assetVersion
         (update_tags_in versionId (fun tags => (tags ++ [tag])%list)
                         (Prisma.assetVersion store))
         (Prisma.log_call (Prisma.assetVersion_update_push versionId tag)
            (Prisma.log_call (Prisma.assetVersion_findUnique versionId) store))).
Proof.
  intros [Hf1 Hf2] Hfound.
  unfold addTag, findUnique, update_push_tag, update_with, Prisma.call, bind, gets, throw.
  rewrite Hf1. simpl. rewrite Hfound. simpl.
  rewrite length_app. simpl. rewrite Nat.add_1_r, Hf2. simpl. by rewrite Hfound.
Qed.

Lemma removeTag_run store versionId tag v :
  two_calls_pass store ->
  find_by_id versionId (Prisma.assetVersion store) = Some v ->
  let kept := List.filter (fun x => negb (String.eqb x tag)) (v_tags v) in
  removeTag versionId tag store
    = (Ret tt,
       Prisma.set_assetVersion
         (update_tags_in versionId (fun _ => kept) (Prisma.assetVersion store))
         (Prisma.log_call (Prisma.assetVersion_update_tags versionId kept)
            (Prisma.log_call (Prisma.assetVersion_findUnique versionId) store))).
Proof.
  intros [Hf1 Hf2] Hfound. cbv zeta.
  unfold removeTag, findUnique, update_tags, update_with, Prisma.call, bind, gets, throw.
  rewrite Hf1. simpl. rewrite Hfound. simpl.
  rewrite length_app. simpl. rewrite Nat.add_1_r, Hf2. simpl. by rewrite Hfound.
Qed.

Lemma calls_pass_later store store' n :
  calls_pass (n + 2) store ->
  Prisma.faults store' = Prisma.faults store ->
  length (Prisma.calls store') = (length (Prisma.calls store) + 2)%nat ->
  calls_pass n store'.
Proof.
  intros Hpass Hfaults Hlen k Hk. rewrite Hfaults, Hlen, <- Nat.add_assoc.
  apply Hpass. lia.
Qed.

Lemma filter_out_snoc (tags : list string) tag :
  List.filter (fun x => negb (String.eqb x tag)) (tags ++ [tag])
    = List.filter (fun x => negb (String.eqb x tag)) tags.
Proof.
  rewrite List.filter_app. simpl. rewrite String.eqb_refl. simpl. apply app_nil_r.
Qed.

Lemma count_occ_filtered_out (tags : list string) tag :
  count_occ string_dec (List.filter (fun x => negb (String.eqb x tag)) tags) tag = 0%nat.
Proof.
  apply count_occ_not_In. intros Hin. apply filter_In in Hin as [_ Hin].
  by rewrite String.eqb_refl in Hin.
Qed.

(** [addTag] after [removeTag] leaves the tag exactly once in the tags
    of the version, whatever they were; [removeTag] after [addTag]
    leaves none, also when the tag was there before the add (the four
    calls of the client returning). *)
Theorem tag_add_and_remove_compose store versionId tag v :
  calls_pass 4 store ->
  find_by_id versionId (Prisma.assetVersion store) = Some v ->
  let kept := List.filter (fun x => negb (String.eqb x tag)) (v_tags v) in
  let remove_add := addTag versionId tag (removeTag versionId tag store).2 in
  let add_remove := removeTag versionId tag (addTag versionId tag store).2 in
  remove_add.1 = Ret tt /\
  find_by_id versionId (Prisma.assetVersion remove_add.2) = Some (set_tags (kept ++ [tag]) v) /\
  count_occ string_dec (kept ++ [tag]) tag = 1%nat /\
  add_remove.1 = Ret tt /\
  find_by_id versionId (Prisma.assetVersion add_remove.2) = Some (set_tags kept v) /\
  ~ In tag kept.
Proof.
  intros Hpass Hfound. cbv zeta.
  pose proof (calls_pass_two 4 _ ltac:(lia) Hpass) as Hpass2.
  rewrite (removeTag_run _ _ _ v Hpass2 Hfound).
  rewrite (addTag_run _ _ _ v Hpass2 Hfound). simpl.
  set (kept := List.filter (fun x => negb (String.eqb x tag)) (v_tags v)).
  match goal with
  | |- context [addTag versionId tag ?S] => set (removed := S)
  end.
  match goal with
  | |- context [removeTag versionId tag ?S] => set (added := S)
  end.
  assert (Hremoved : find_by_id versionId (Prisma.assetVersion removed)
                     = Some (set_tags kept v)).
  { unfold removed. simpl. by apply (find_by_id_updated _ _ (fun _ => kept)). }
  assert (Hadded : find_by_id versionId (Prisma.assetVersion added)
                   = Some (set_tags (v_tags v ++ [tag]) v)).
  { unfold added. simpl. by apply find_by_id_updated. }
  assert (Hpass_removed : two_calls_pass removed).
  { apply (calls_pass_two 2); [lia|]. apply (calls_pass_later store); [done|done|].
    unfold removed. simpl. rewrite !length_app. simpl. lia. }
  assert (Hpass_added : two_calls_pass added).
  { apply (calls_pass_two 2); [lia|]. apply (calls_pass_later store); [done|done|].
    unfold added. simpl. rewrite !length_app. simpl. lia. }
  rewrite (addTag_run _ _ _ _ Hpass_removed Hremoved).
  rewrite (removeTag_run _ _ _ _ Hpass_added Hadded). simpl.
  rewrite (find_by_id_updated _ _ _ _ Hremoved).
  rewrite (find_by_id_updated _ _ (fun _ => _) _ Hadded). simpl.
  rewrite filter_out_snoc. fold kept.
  split; [done|]. split; [by destruct v|]. split.
  { rewrite count_occ_snoc. unfold kept. by rewrite count_occ_filtered_out. }
  split; [done|]. split; [by destruct v|].
  intros Hin. apply filter_In in Hin as [_ Hin]. by rewrite String.eqb_refl in Hin.
Qed.

Lemma tag_add_and_remove_compose_witness :
  find_by_id "V1"
    (Prisma.assetVersion (addTag "V1" "stable" (removeTag "V1" "stable" (store_of [tagged])).2).2)
    = Some (set_tags ["stable"] tagged) /\
  find_by_id "V1"
    (Prisma.assetVersion (removeTag "V1" "stable" (addTag "V1" "stable" (store_of [tagged])).2).2)
    = Some (set_tags [] tagged).
Proof.
  destruct (tag_add_and_remove_compose (store_of [tagged]) "V1" "stable" tagged
              (fun k _ => eq_refl) eq_refl) as (_ & Hra & _ & _ & Har & _).
  split; [exact Hra|exact Har].
Defined.


Lemma update_tags_in_without_tags t id (f : list string -> list string) :
  map without_tags (update_tags_in id f t) = map without_tags t.
Proof.
  induction t as [|x t IH]; simpl; [done|].
  destruct (String.eqb (v_id x) id); simpl; [done|by rewrite IH].
Qed.

Lemma update_tags_in_other t id id' (f : list string -> list string) :
  id' <> id -> find_by_id id' (update_tags_in id f t) = find_by_id id' t.
Proof.
  intros Hne. unfold find_by_id. induction t as [|x t IH]; simpl; [done|].
  destruct (String.eqb_spec (v_id x) id) as [E|E]; simpl.
  - destruct (String.eqb_spec (v_id x) id') as [E'|E']; [congruence|done].
  - by rewrite IH.
Qed.

(** Whatever the store answers, [addTag] and [removeTag] change nothing
    of the table but the tags of the version named: the versions are
    the same, in the same order, tags apart, and a version with another
    id resolves as before. *)
Theorem tag_operations_touch_only_tags store versionId tag :
  map without_tags (Prisma.assetVersion (addTag versionId tag store).2)
    = map without_tags (Prisma.assetVersion store) /\
  map without_tags (Prisma.assetVersion (removeTag versionId tag store).2)
    = map without_tags (Prisma.assetVersion store) /\
  (forall other,
     other <> versionId ->
     find_by_id other (Prisma.assetVersion (addTag versionId tag store).2)
       = find_by_id other (Prisma.assetVersion store) /\
     find_by_id other (Prisma.assetVersion (removeTag versionId tag store).2)
       = find_by_id other (Prisma.assetVersion store)).
Proof.
  unfold addTag, removeTag, findUnique, update_push_tag, update_tags, update_with,
    Prisma.call, bind, gets, throw.
  destruct (Prisma.faults store (length (Prisma.calls store))); simpl.
  { by repeat split. }
  destruct (find_by_id versionId (Prisma.assetVersion store)) as [v|] eqn:Hfound; simpl.
  2: { by repeat split. }
  destruct (Prisma.faults store (length (Prisma.calls store ++ [_]))); simpl.
  { by repeat split. }
  rewrite Hfound. simpl. rewrite !update_tags_in_without_tags.
  split; [done|]. split; [done|]. intros other Hne.
  by rewrite !update_tags_in_other.
Qed.

(** *** Creating *)

(** [createVersion] with a fresh id stores the version at the end of
    the table and returns it, with the fields given, no metadata and
    the instant of the call; [getVersion] of its id then returns the
    same version, and the asset has one version more. With an id that
    is taken, the store refuses the row and the table is as before. *)
Theorem created_version_resolves
        store uuid now assetId userId changes description tags :
  calls_pass 2 store ->
  let version := mkVersion uuid assetId userId now changes "{}" tags description in
  let created := createVersion uuid now assetId userId changes description tags store in
  (find_by_id uuid (Prisma.assetVersion store) = None ->
   created.1 = Ret version /\
   Prisma.assetVersion created.2 = Prisma.assetVersion store ++ [version] /\
   (getVersion uuid created.2).1 = Ret (Some version) /\
   length (versions_of assetId created.2) = S (length (versions_of assetId store))) /\
  (is_Some (find_by_id uuid (Prisma.assetVersion store)) ->
   created.1 = Throw (PrismaError Prisma.unique_constraint_failed) /\
   Prisma.assetVersion created.2 = Prisma.assetVersion store).
Proof.
  intros Hpass. cbv zeta.
  pose proof (Hpass 0%nat ltac:(lia)) as Hf0. rewrite Nat.add_0_r in Hf0.
  pose proof (Hpass 1%nat ltac:(lia)) as Hf1.
  unfold createVersion, getVersion, create, findUnique, Prisma.call, bind, gets, ret.
  rewrite Hf0. simpl. split.
  - intros Hfresh. rewrite Hfresh. simpl. rewrite length_app. simpl. rewrite Hf1. simpl.
    rewrite (find_by_id_app_none _ _ _ Hfresh). unfold find_by_id at 1. simpl.
    rewrite String.eqb_refl. simpl.
    split; [done|]. split; [done|]. split; [done|].
    unfold versions_of. simpl. rewrite List.filter_app, length_app. simpl.
    rewrite String.eqb_refl. simpl. lia.
  - intros [old Hold]. by rewrite Hold.
Qed.

Lemma created_version_resolves_witness :
  (getVersion "V9"
     (createVersion "V9" 3 "asset-1" "user-1" [] "empty" ["draft"] (store_of [V1])).2).1
    = Ret (Some (mkVersion "V9" "asset-1" "user-1" 3 [] "{}" ["draft"] "empty")) /\
  (createVersion "V1" 3 "asset-1" "user-1" [] "empty" ["draft"] (store_of [V1])).1
    = Throw (PrismaError Prisma.unique_constraint_failed).
Proof.
  destruct (created_version_resolves (store_of [V1]) "V9" 3 "asset-1" "user-1" [] "empty"
              ["draft"] (fun k _ => eq_refl)) as [Hfresh _].
  destruct (created_version_resolves (store_of [V1]) "V1" 3 "asset-1" "user-1" [] "empty"
              ["draft"] (fun k _ => eq_refl)) as [_ Htaken].
  destruct (Hfresh eq_refl) as (_ & _ & Hget & _).
  split; [exact Hget|]. apply Htaken. exists V1. reflexivity.
Defined.

End VersionsMore.

(** * The queries and the branches *)

Section Queries.

Import PrismaQueries VersionQueries CollaborationQueries QueryViews VersionViews.
Import Sorted.

Implicit Types (s : Store) (v : Version) (t : list Version).

(** *** Order *)

Lemma insert_desc_In v t x : In x (insert_desc v t) <-> x = v \/ In x t.
Proof.
  induction t as [|y t IH]; simpl; [naive_solver|].
  destruct (v_timestamp y <=? v_timestamp v); simpl; [naive_solver|].
  rewrite IH. naive_solver.
Qed.

Lemma newest_first_In t x : In x (newest_first t) <-> In x t.
Proof.
  unfold newest_first. induction t as [|y t IH]; simpl; [done|].
  rewrite insert_desc_In, IH. naive_solver.
Qed.

Lemma insert_desc_sorted v t :
  StronglySorted not_older t -> StronglySorted not_older (insert_desc v t).
Proof.
  induction 1 as [|y t Hsorted IH Hall]; simpl.
  - repeat constructor.
  - destruct (Z.leb_spec (v_timestamp y) (v_timestamp v)) as [Hle|Hgt].
    + constructor; [by constructor|]. constructor; [done|].
      apply Forall_forall. intros x Hx. rewrite Forall_forall in Hall.
      specialize (Hall x Hx). unfold not_older in *. lia.
    + constructor; [done|]. apply Forall_forall. intros x Hx.
      apply list_elem_of_In, insert_desc_In in Hx as [-> | Hx].
      * unfold not_older. lia.
      * rewrite Forall_forall in Hall. apply Hall. by apply list_elem_of_In.
Qed.

Lemma newest_first_sorted t : StronglySorted not_older (newest_first t).
Proof.
  unfold newest_first. induction t as [|y t IH]; simpl; [constructor|].
  by apply insert_desc_sorted.
Qed.

Lemma filter_sorted {A} (R : A -> A -> Prop) (P : A -> bool) (l : list A) :
  StronglySorted R l -> StronglySorted R (List.filter P l).
Proof.
  induction 1 as [|y l Hsorted IH Hall]; simpl; [constructor|].
  destruct (P y); [|done]. constructor; [done|].
  apply Forall_forall. intros x Hx. apply list_elem_of_In, filter_In in Hx as [Hx _].
  rewrite Forall_forall in Hall. apply Hall. by apply list_elem_of_In.
Qed.

Lemma drop_sorted {A} (R : A -> A -> Prop) n (l : list A) :
  StronglySorted R l -> StronglySorted R (drop n l).
Proof.
  intros Hl. revert n. induction Hl as [|y l Hsorted IH Hall]; intros [|n]; simpl.
  - constructor.
  - constructor.
  - by constructor.
  - apply IH.
Qed.

Lemma take_sorted {A} (R : A -> A -> Prop) n (l : list A) :
  StronglySorted R l -> StronglySorted R (take n l).
Proof.
  intros Hl. revert n. induction Hl as [|y l Hsorted IH Hall]; intros [|n]; simpl.
  - constructor.
  - constructor.
  - constructor.
  - constructor; [apply IH|].
    apply Forall_forall. intros x Hx. apply elem_of_take in Hx as (i & Hx & _).
    rewrite Forall_forall in Hall. apply Hall. by apply list_elem_of_lookup_2 in Hx.
Qed.

Lemma selected_sorted q t : StronglySorted not_older (selected q t).
Proof.
  unfold selected, take_rows, skip_rows.
  pose proof (filter_sorted not_older (matches q) _ (newest_first_sorted t)) as Hf.
  destruct (q_skip q), (q_take q); auto using take_sorted, drop_sorted.
Qed.

Lemma In_take_rows {A} n (l : list A) x : In x (take_rows n l) -> In x l.
Proof.
  destruct n as [k|]; simpl; [|done]. rewrite <- !list_elem_of_In. apply subseteq_take.
Qed.

Lemma In_skip_rows {A} n (l : list A) x : In x (skip_rows n l) -> In x l.
Proof.
  destruct n as [k|]; simpl; [|done]. rewrite <- !list_elem_of_In. apply subseteq_drop.
Qed.

Lemma selected_In q t v :
  In v (selected q t) -> In v t /\ matches q v = true.
Proof.
  unfold selected. intros Hin. apply In_take_rows, In_skip_rows in Hin.
  apply filter_In in Hin as [Hin ?]. split; [|done]. by apply newest_first_In.
Qed.

Lemma selected_all q t v :
  q_skip q = None -> q_take q = None ->
  In v t -> matches q v = true -> In v (selected q t).
Proof.
  unfold selected. intros -> -> Hin Hm. simpl.
  apply filter_In. split; [|done]. by apply newest_first_In.
Qed.

Lemma selected_length q t n : q_take q = Some n -> (length (selected q t) <= n)%nat.
Proof. unfold selected. intros ->. simpl. rewrite length_take. lia. Qed.

Lemma has_tag_In v tag : has_tag v tag = true <-> In tag (v_tags v).
Proof.
  unfold has_tag. rewrite existsb_exists. split.
  - intros (x & Hx & Heq). apply String.eqb_eq in Heq. by subst.
  - intros Hin. exists tag. split; [done|apply String.eqb_refl].
Qed.

Lemma matches_satisfies assetId options v :
  matches (query_of assetId options) v = true <-> satisfies assetId options v.
Proof.
  unfold matches, satisfies, query_of. simpl.
  rewrite !andb_true_iff, String.eqb_eq. split.
  - intros [[[Ha Hg] Hl] Ht]. split; [done|]. split; [|split].
    + intros t' Hfrom. rewrite Hfrom in Hg. lia.
    + intros t' Hto. rewrite Hto in Hl. lia.
    + intros wanted tag Htags Hin. rewrite Htags in Ht.
      rewrite forallb_forall in Ht. by apply has_tag_In, Ht.
  - intros (Ha & Hg & Hl & Ht). repeat split; [done| | |].
    + destruct (fromDate options) as [t'|]; [|done]. specialize (Hg t' eq_refl). lia.
    + destruct (toDate options) as [t'|]; [|done]. specialize (Hl t' eq_refl). lia.
    + destruct (tags options) as [wanted|]; [|done]. apply forallb_forall.
      intros tag Hin. apply has_tag_In. by apply (Ht wanted).
Qed.

Lemma getVersions_run s assetId options :
  getVersions assetId options s =
    match faults s (length (calls s)) with
    | Some msg => (Throw (PrismaError msg),
                   logged (assetVersion_findMany (query_of assetId options)) s)
    | None => (Ret (selected (query_of assetId options) (Prisma.assetVersion (core s))),
               logged (assetVersion_findMany (query_of assetId options)) s)
    end.
Proof.
  unfold getVersions, assetVersion_findMany_, call, bind, gets, ret, logged.
  by destruct (faults s (length (calls s))).
Qed.

(** When its call returns, [getVersions] returns versions of the table,
    newest first, each of the asset, within the two dates and with
    every tag asked; at most [limit] of them; and, without [limit] and
    [offset], every version of the table that meets the options. *)
Theorem getVersions_selects s assetId options :
  faults s (length (calls s)) = None ->
  exists result,
    (getVersions assetId options s).1 = Ret result /\
    core (getVersions assetId options s).2 = core s /\
    StronglySorted not_older result /\
    (forall v, In v result ->
               In v (Prisma.assetVersion (core s)) /\ satisfies assetId options v) /\
    (forall n, limit options = Some n -> (length result <= n)%nat) /\
    (limit options = None -> offset options = None ->
     forall v, In v (Prisma.assetVersion (core s)) -> satisfies assetId options v ->
               In v result).
Proof.
  intros Hf. rewrite getVersions_run, Hf. eexists. split; [done|]. split; [done|].
  split; [apply selected_sorted|]. split; [|split].
  - intros v Hin. apply selected_In in Hin as [Hin Hm]. split; [done|].
    by apply matches_satisfies.
  - intros n Hn. by apply selected_length.
  - intros Hl Ho v Hin Hsat. apply selected_all; [done|done|done|].
    by apply matches_satisfies.
Qed.

Lemma getVersions_selects_witness :
  exists result,
    (getVersions "asset-1" (mkOptions (Some 2%nat) None None None (Some ["stable"])) library).1
      = Ret result /\
    (length result <= 2)%nat /\
    (forall v, In v result -> v_assetId v = "asset-1" /\ In "stable" (v_tags v)).
Proof.
  destruct (getVersions_selects library "asset-1"
              (mkOptions (Some 2%nat) None None None (Some ["stable"])) eq_refl)
    as (result & Hret & _ & _ & Hsound & Hlimit & _).
  exists result. split; [exact Hret|]. split; [exact (Hlimit 2%nat eq_refl)|].
  intros v Hin. destruct (Hsound v Hin) as (_ & Ha & _ & _ & Ht).
  split; [exact Ha|]. apply (Ht ["stable"]); [reflexivity|left; reflexivity].
Defined.

(** When its call returns, [getVersionsByTag] returns, newest first, the
    versions of the asset that carry the tag, and all of them. *)
Theorem getVersionsByTag_has_the_tag s assetId tag :
  faults s (length (calls s)) = None ->
  exists result,
    (getVersionsByTag assetId tag s).1 = Ret result /\
    StronglySorted not_older result /\
    (forall v, In v result <->
               In v (Prisma.assetVersion (core s)) /\
               v_assetId v = assetId /\ In tag (v_tags v)).
Proof.
  intros Hf. unfold getVersionsByTag.
  rewrite getVersions_run, Hf. eexists. split; [done|]. split; [apply selected_sorted|].
  intros v. split.
  - intros Hin. apply selected_In in Hin as [Hin Hm]. split; [done|].
    apply matches_satisfies in Hm as (Ha & _ & _ & Ht). split; [done|].
    apply (Ht [tag]); [done|by left].
  - intros (Hin & Ha & Ht). apply selected_all; [done|done|done|].
    apply matches_satisfies. split; [done|]. split; [done|]. split; [done|].
    intros wanted tag' [= <-] [<- | []]. done.
Qed.

Lemma getVersionsByTag_has_the_tag_witness :
  exists result,
    (getVersionsByTag "asset-1" "stable" library).1 = Ret result /\
    In a1 result /\ In a3 result /\ ~ In a2 result /\ ~ In b1 result.
Proof.
  destruct (getVersionsByTag_has_the_tag library "asset-1" "stable" eq_refl)
    as (result & Hret & _ & Hiff).
  exists result. split; [exact Hret|]. split; [|split; [|split]].
  - apply Hiff. split; [left; reflexivity|]. split; [reflexivity|left; reflexivity].
  - apply Hiff. split; [right; right; left; reflexivity|].
    split; [reflexivity|left; reflexivity].
  - intros Hin. apply Hiff in Hin as (_ & _ & []).
  - intros Hin. apply Hiff in Hin as (_ & Ha & _). discriminate Ha.
Defined.


(** *** Branches *)

Lemma head_selected q t :
  match head (selected q t) with
  | Some base =>
      In base t /\ matches q base = true /\
      (q_skip q = None ->
       forall v, In v t -> matches q v = true -> v_timestamp v <= v_timestamp base)
  | None =>
      q_skip q = None -> q_take q <> Some 0%nat ->
      forall v, In v t -> matches q v = false
  end.
Proof.
  destruct (head (selected q t)) as [base|] eqn:Hhead.
  - assert (Hin : In base (selected q t)).
    { destruct (selected q t); [done|]. injection Hhead as ->. by left. }
    destruct (selected_In _ _ _ Hin) as [Ht Hm]. split; [done|]. split; [done|].
    intros Hskip v Hv Hmv. unfold selected in Hhead. rewrite Hskip in Hhead. simpl in Hhead.
    assert (Hfv : In v (List.filter (matches q) (newest_first t))).
    { apply filter_In. split; [by apply newest_first_In|done]. }
    pose proof (filter_sorted not_older (matches q) _ (newest_first_sorted t)) as Hsorted.
    destruct (List.filter (matches q) (newest_first t)) as [|x rest].
    + by destruct (q_take q) as [[|?]|].
    + assert (x = base) as ->.
      { destruct (q_take q) as [[|?]|]; simpl in Hhead; congruence. }
      destruct Hfv as [<- | Hfv]; [lia|].
      apply StronglySorted_inv in Hsorted as [_ Hall]. rewrite Forall_forall in Hall.
      apply (Hall v). by apply list_elem_of_In.
  - intros Hskip Htake v Hv. destruct (matches q v) eqn:Hm; [|done]. exfalso.
    unfold selected in Hhead. rewrite Hskip in Hhead. simpl in Hhead.
    assert (Hfv : In v (List.filter (matches q) (newest_first t))).
    { apply filter_In. split; [by apply newest_first_In|done]. }
    destruct (List.filter (matches q) (newest_first t)) as [|x rest]; [done|].
    by destruct (q_take q) as [[|?]|].
Qed.

Lemma find_by_id_id t id v : Prisma.assetVersion_.find_by_id id t = Some v -> v_id v = id.
Proof.
  unfold Prisma.assetVersion_.find_by_id. intros H. apply find_some in H as [_ H].
  by apply String.eqb_eq.
Qed.

Lemma find_by_id_In t id v : Prisma.assetVersion_.find_by_id id t = Some v -> In v t.
Proof.
  unfold Prisma.assetVersion_.find_by_id. intros H. by apply find_some in H as [H _].
Qed.

Lemma createBranch_given s now assetId name fromVersionId id :
  CollaborationManager.truthy fromVersionId = Some id ->
  Prisma.faults (core s) (length (Prisma.calls (core s))) = None ->
  createBranch now assetId name fromVersionId s
    = match Prisma.assetVersion_.find_by_id id (Prisma.assetVersion (core s)) with
      | None => throw base_version_not_found
      | Some base => assetBranch_create_ (mkAssetBranchRow assetId name (v_id base) now)
      end (set_core (Prisma.log_call (Prisma.assetVersion_findUnique id) (core s)) s).
Proof.
  intros Hid Hf. unfold createBranch. rewrite Hid.
  unfold on_core, zoom, VersionManager.getVersion, Prisma.assetVersion_.findUnique,
    Prisma.call. unfold bind at 1 2. unfold gets. rewrite Hf. simpl.
  by destruct (Prisma.assetVersion_.find_by_id id (Prisma.assetVersion (core s))).
Qed.

Lemma createBranch_latest s now assetId name fromVersionId :
  CollaborationManager.truthy fromVersionId = None ->
  faults s (length (calls s)) = None ->
  let q := query_of assetId (mkOptions (Some 1%nat) None None None None) in
  createBranch now assetId name fromVersionId s
    = match head (selected q (Prisma.assetVersion (core s))) with
      | None => throw base_version_not_found
      | Some base => assetBranch_create_ (mkAssetBranchRow assetId name (v_id base) now)
      end (logged (assetVersion_findMany q) s).
Proof.
  intros Hnone Hf. cbv zeta. unfold createBranch. rewrite Hnone.
  unfold bind at 1 2. rewrite getVersions_run, Hf. unfold ret at 1.
  by destruct (head _).
Qed.

(** [createBranch] with the id of a version, when the lookup returns:
    an id that does not resolve throws "Base version not found" and adds
    no branch; an id that resolves adds the branch with that base, of
    whatever asset the version is. Without an id (or with the empty one),
    when the two calls return: an asset without versions throws "Base
    version not found"; otherwise the base is a version of the asset that
    none of its versions is newer than. *)
Theorem createBranch_picks_its_base s now assetId name fromVersionId :
  (forall id,
     CollaborationManager.truthy fromVersionId = Some id ->
     Prisma.faults (core s) (length (Prisma.calls (core s))) = None ->
     faults s (length (calls s)) = None ->
     match Prisma.assetVersion_.find_by_id id (Prisma.assetVersion (core s)) with
     | None =>
         (createBranch now assetId name fromVersionId s).1 = Throw base_version_not_found /\
         assetBranch (createBranch now assetId name fromVersionId s).2 = assetBranch s
     | Some base =>
         (createBranch now assetId name fromVersionId s).1 = Ret tt /\
         assetBranch (createBranch now assetId name fromVersionId s).2
           = assetBranch s ++ [mkAssetBranchRow assetId name id now]
     end) /\
  (CollaborationManager.truthy fromVersionId = None ->
   queries_pass 2 s ->
   ((forall v, In v (Prisma.assetVersion (core s)) -> v_assetId v <> assetId) /\
    (createBranch now assetId name fromVersionId s).1 = Throw base_version_not_found /\
    assetBranch (createBranch now assetId name fromVersionId s).2 = assetBranch s) \/
   (exists base,
      In base (Prisma.assetVersion (core s)) /\ v_assetId base = assetId /\
      (forall v, In v (Prisma.assetVersion (core s)) -> v_assetId v = assetId ->
                 v_timestamp v <= v_timestamp base) /\
      (createBranch now assetId name fromVersionId s).1 = Ret tt /\
      assetBranch (createBranch now assetId name fromVersionId s).2
        = assetBranch s ++ [mkAssetBranchRow assetId name (v_id base) now])).
Proof.
  split.
  - intros id Hid Hcore Hf. rewrite (createBranch_given _ _ _ _ _ id Hid Hcore).
    destruct (Prisma.assetVersion_.find_by_id id (Prisma.assetVersion (core s)))
      as [base|] eqn:Hfound; [|done].
    unfold assetBranch_create_, call, modify. simpl. rewrite Hf. simpl.
    split; [done|]. do 3 f_equal. by apply (find_by_id_id _ _ _ Hfound).
  - intros Hnone Hpass.
    pose proof (Hpass 0%nat ltac:(lia)) as Hf0. rewrite Nat.add_0_r in Hf0.
    pose proof (Hpass 1%nat ltac:(lia)) as Hf1.
    set (q := query_of assetId (mkOptions (Some 1%nat) None None None None)).
    pose proof (head_selected q (Prisma.assetVersion (core s))) as Hhead.
    assert (Hm : forall v, matches q v = String.eqb (v_assetId v) assetId).
    { intros v. unfold matches, q. simpl. by rewrite !andb_true_r. }
    rewrite (createBranch_latest _ _ _ _ _ Hnone Hf0). cbv zeta. fold q.
    destruct (head (selected q (Prisma.assetVersion (core s)))) as [base|].
    + right. destruct Hhead as (Hin & Hbase & Hmax). exists base.
      rewrite Hm in Hbase. apply String.eqb_eq in Hbase.
      split; [done|]. split; [done|]. split.
      * intros v Hv Ha. apply (Hmax eq_refl v Hv). rewrite Hm. by apply String.eqb_eq.
      * unfold assetBranch_create_, call, modify, logged. simpl.
        rewrite length_app. simpl. by rewrite Hf1.
    + left. split; [|done]. intros v Hv Ha.
      specialize (Hhead eq_refl ltac:(discriminate) v Hv). rewrite Hm in Hhead.
      apply String.eqb_neq in Hhead. done.
Qed.


Lemma createBranch_picks_its_base_witness :
  (createBranch 9 "asset-1" "hotfix" (Some "B1") library).1 = Ret tt /\
  assetBranch (createBranch 9 "asset-1" "hotfix" (Some "B1") library).2
    = assetBranch library ++ [mkAssetBranchRow "asset-1" "hotfix" "B1" 9] /\
  exists base,
    v_assetId base = "asset-1" /\
    v_timestamp a3 <= v_timestamp base /\
    assetBranch (createBranch 9 "asset-1" "next" None library).2
      = assetBranch library ++ [mkAssetBranchRow "asset-1" "next" (v_id base) 9].
Proof.
  destruct (createBranch_picks_its_base library 9 "asset-1" "hotfix" (Some "B1")) as [Hgiven _].
  destruct (createBranch_picks_its_base library 9 "asset-1" "next" None) as [_ Hlatest].
  specialize (Hgiven "B1" eq_refl eq_refl eq_refl). simpl in Hgiven.
  destruct Hgiven as [Hret Hrows].
  split; [exact Hret|]. split; [exact Hrows|].
  destruct (Hlatest eq_refl (fun k _ => eq_refl))
    as [(Hnone & _) | (base & Hin & Ha & Hmax & _ & Hrow)].
  - exfalso. apply (Hnone a1); [left; reflexivity|reflexivity].
  - exists base. split; [exact Ha|]. split; [|exact Hrow].
    apply Hmax; [right; right; left; reflexivity|reflexivity].
Defined.

(** *** Merging *)

Lemma bind_returns {S A B} (m : M S A) (k : A -> M S B) st b st' :
  bind m k st = (Ret b, st') ->
  exists a st1, m st = (Ret a, st1) /\ k a st1 = (Ret b, st').
Proof.
  unfold bind. destruct (m st) as [[a|e] st1] eqn:E; [|done]. intros Hk. by exists a, st1.
Qed.

Lemma promise_all2_returns {S A B} (m1 : M S A) (m2 : M S B) st ab st' :
  promise_all2 m1 m2 st = (Ret ab, st') ->
  exists st1, m1 st = (Ret ab.1, st1) /\ m2 st1 = (Ret ab.2, st').
Proof.
  unfold promise_all2. destruct (m1 st) as [r1 st1]. destruct (m2 st1) as [r2 st2] eqn:E2.
  destruct r1, r2; intros Heq; simplify_eq. by exists st1.
Qed.

Lemma on_core_returns {A} (m : M Prisma.Store A) s a s' :
  on_core m s = (Ret a, s') ->
  exists db, m (core s) = (Ret a, db) /\ s' = set_core db s.
Proof.
  unfold on_core, zoom. destruct (m (core s)) as [r db] eqn:E. intros Heq; simplify_eq. by exists db.
Qed.

Lemma getVersionsInBranch_run s assetId name :
  getVersionsInBranch assetId name s =
    let asked := logged (assetBranch_findFirst assetId name) s in
    match faults s (length (calls s)) with
    | Some msg => (Throw (PrismaError msg), asked)
    | None =>
        match branch_of assetId name s with
        | None => (Throw (branch_not_found name), asked)
        | Some b => getVersions assetId (since (ab_createdAt b)) asked
        end
    end.
Proof.
  unfold getVersionsInBranch, assetBranch_findFirst_, call, bind, gets, throw, branch_of,
    logged, since.
  destruct (faults s (length (calls s))); [done|]. simpl.
  by destruct (List.find _ (assetBranch s)).
Qed.

Lemma getVersionsInBranch_keeps s assetId name :
  core (getVersionsInBranch assetId name s).2 = core s /\
  assetBranch (getVersionsInBranch assetId name s).2 = assetBranch s /\
  faults (getVersionsInBranch assetId name s).2 = faults s /\
  (forall l,
     (getVersionsInBranch assetId name s).1 = Ret l ->
     exists b, branch_of assetId name s = Some b /\
               l = selected (query_of assetId (since (ab_createdAt b)))
                            (Prisma.assetVersion (core s))).
Proof.
  rewrite getVersionsInBranch_run. cbv zeta.
  destruct (faults s (length (calls s))); [done|].
  destruct (branch_of assetId name s) as [b|]; [|done].
  rewrite getVersions_run. simpl.
  destruct (faults s (length (calls s ++ [_]))); [done|]. simpl.
  repeat split; try done. intros l [= <-]. by exists b.
Qed.

Lemma since_matches assetId time v :
  matches (query_of assetId (since time)) v
    = String.eqb (v_assetId v) assetId && (time <=? v_timestamp v).
Proof. unfold matches. simpl. by rewrite !andb_true_r. Qed.

Lemma selected_since assetId time t :
  selected (query_of assetId (since time)) t
    = List.filter (matches (query_of assetId (since time))) (newest_first t).
Proof. done. Qed.

(** The newest version at or after one instant and the newest at or
    after another are the same version. *)
Lemma same_latest assetId time1 time2 (l : list Version) x y :
  StronglySorted not_older l ->
  head (List.filter (matches (query_of assetId (since time1))) l) = Some x ->
  head (List.filter (matches (query_of assetId (since time2))) l) = Some y ->
  x = y.
Proof.
  induction 1 as [|z l Hsorted IH Hall]; simpl; [done|].
  rewrite Forall_forall in Hall. rewrite !since_matches.
  assert (Hlater : forall time v,
            In v (List.filter (matches (query_of assetId (since time))) l) ->
            String.eqb (v_assetId z) assetId = true ->
            (time <=? v_timestamp z) = true).
  { intros time v Hv Hz. apply filter_In in Hv as [Hv Hm].
    rewrite since_matches in Hm. apply andb_true_iff in Hm as [_ Hm].
    apply list_elem_of_In, Hall in Hv. unfold not_older in Hv. lia. }
  assert (Hhead : forall (k : list Version) v, head k = Some v -> In v k).
  { intros [|k0 k] v0; [done|]. intros [= ->]. by left. }
  destruct (String.eqb (v_assetId z) assetId) eqn:Hz; simpl; [|by apply IH].
  destruct (time1 <=? v_timestamp z) eqn:H1, (time2 <=? v_timestamp z) eqn:H2; simpl.
  - congruence.
  - intros _ Hy. apply Hhead in Hy. by rewrite (Hlater _ _ Hy) in H2.
  - intros Hx _. apply Hhead in Hx. by rewrite (Hlater _ _ Hx) in H1.
  - by apply IH.
Qed.


Lemma getVersion_returns store id found store' :
  VersionManager.getVersion id store = (Ret found, store') ->
  found = Prisma.assetVersion_.find_by_id id (Prisma.assetVersion store) /\
  Prisma.assetVersion store' = Prisma.assetVersion store.
Proof.
  unfold VersionManager.getVersion, Prisma.assetVersion_.findUnique, Prisma.call,
    bind, gets, ret.
  destruct (Prisma.faults store (length (Prisma.calls store))); simpl; [done|].
  destruct (Prisma.assetVersion_.find_by_id id (Prisma.assetVersion store));
    intros Heq; by simplify_eq.
Qed.

Lemma createVersion_returns store uuid now assetId userId changes description tags v store' :
  VersionManager.createVersion uuid now assetId userId changes description tags store
    = (Ret v, store') ->
  v = mkVersion uuid assetId userId now changes "{}" tags description /\
  Prisma.assetVersion store' = Prisma.assetVersion store ++ [v].
Proof.
  unfold VersionManager.createVersion, Prisma.assetVersion_.create, Prisma.call, bind, ret.
  destruct (Prisma.faults store (length (Prisma.calls store))); simpl; [done|].
  destruct (Prisma.assetVersion_.find_by_id uuid (Prisma.assetVersion store));
    intros Heq; by simplify_eq.
Qed.

Lemma createVersion_run store uuid now assetId userId changes description tags :
  Prisma.faults store (length (Prisma.calls store)) = None ->
  Prisma.assetVersion_.find_by_id uuid (Prisma.assetVersion store) = None ->
  (VersionManager.createVersion uuid now assetId userId changes description tags store).1
    = Ret (mkVersion uuid assetId userId now changes "{}" tags description).
Proof.
  intros Hf Hfresh.
  unfold VersionManager.createVersion, Prisma.assetVersion_.create, Prisma.call, bind, ret.
  rewrite Hf. simpl. by rewrite Hfresh.
Qed.

Lemma find_by_id_exists t v :
  In v t -> exists x, Prisma.assetVersion_.find_by_id (v_id v) t = Some x.
Proof.
  intros Hin. destruct (Prisma.assetVersion_.find_by_id (v_id v) t) as [x|] eqn:E; [by exists x|].
  unfold Prisma.assetVersion_.find_by_id in E. apply (find_none _ _ E) in Hin.
  by rewrite String.eqb_refl in Hin.
Qed.

Lemma head_In {A} (l : list A) x : head l = Some x -> In x l.
Proof. destruct l; [done|]. intros [= ->]. by left. Qed.

Lemma head_since s assetId time :
  has_version_since assetId time s ->
  exists x, head (selected (query_of assetId (since time))
                           (Prisma.assetVersion (core s))) = Some x.
Proof.
  intros (v & Hin & Ha & Ht).
  assert (Hv : In v (selected (query_of assetId (since time))
                              (Prisma.assetVersion (core s)))).
  { apply selected_all; [done|done|done|]. rewrite since_matches.
    apply andb_true_iff. split; [by apply String.eqb_eq|lia]. }
  destruct (selected _ _) as [|x l]; [done|]. by exists x.
Qed.

Section MergeMore.

Variable diff_main : string -> string -> list Diff.
Variable diff_cleanupSemantic : list Diff -> list Diff.

Local Abbreviation compareVersions :=
  (VersionManager.compareVersions diff_main diff_cleanupSemantic).
Local Abbreviation mergeBranches :=
  (VersionQueries.mergeBranches diff_main diff_cleanupSemantic).

Lemma compare_same_returns store id changes store' :
  compareVersions id id store = (Ret changes, store') ->
  changes = [] /\ Prisma.assetVersion store' = Prisma.assetVersion store.
Proof.
  unfold VersionManager.compareVersions. intros Hrun.
  apply bind_returns in Hrun as ([a b] & st & Hall & Hk).
  apply promise_all2_returns in Hall as (st1 & H1 & H2). simpl in *.
  apply getVersion_returns in H1 as [-> Ht1].
  apply getVersion_returns in H2 as [-> Ht2]. rewrite Ht1 in *.
  destruct (Prisma.assetVersion_.find_by_id id (Prisma.assetVersion store)) as [A|];
    [|by simplify_eq].
  unfold ret in Hk. simplify_eq. split; [|congruence].
  apply flat_map_all_nil. intros p Hp. apply compare_path_same.
  rewrite path_set_In, in_app_iff in Hp. by destruct Hp.
Qed.

Lemma compareVersions_state store id1 id2 :
  Prisma.faults (compareVersions id1 id2 store).2 = Prisma.faults store /\
  Prisma.calls (compareVersions id1 id2 store).2
    = Prisma.calls store ++ [Prisma.assetVersion_findUnique id1;
                             Prisma.assetVersion_findUnique id2] /\
  Prisma.assetVersion (compareVersions id1 id2 store).2 = Prisma.assetVersion store.
Proof.
  unfold VersionManager.compareVersions, promise_all2, VersionManager.getVersion,
    Prisma.assetVersion_.findUnique, Prisma.call, bind, gets, ret, throw.
  destruct (Prisma.faults store (length (Prisma.calls store))); simpl.
  - destruct (Prisma.faults store (length (Prisma.calls store ++ [_]))); simpl.
    + by rewrite <- app_assoc.
    + destruct (Prisma.assetVersion_.find_by_id id2 _); simpl; by rewrite <- app_assoc.
  - destruct (Prisma.assetVersion_.find_by_id id1 _); simpl;
      destruct (Prisma.faults store (length (Prisma.calls store ++ [_]))); simpl;
      try (by rewrite <- app_assoc);
      destruct (Prisma.assetVersion_.find_by_id id2 _); simpl; by rewrite <- app_assoc.
Qed.

(** Whenever [mergeBranches] returns a version, the version has no
    changes: the two branches of an asset have the same newest version,
    which is compared with itself. The version is tagged [merge], named
    after the two branches, and is the one row added to the table. It
    does return when both branches exist, the asset has a version at or
    after the creation of each, the calls return and the id is fresh. *)
Theorem mergeBranches_commits_no_changes s uuid now assetId source target userId :
  (forall v,
     (mergeBranches uuid now assetId source target userId s).1 = Ret v ->
     v = mkVersion uuid assetId userId now [] "{}" ["merge"]
                   ("Merged " +:+ source +:+ " into " +:+ target) /\
     Prisma.assetVersion (core (mergeBranches uuid now assetId source target userId s).2)
       = Prisma.assetVersion (core s) ++ [v]) /\
  (forall sb tb,
     branch_of assetId source s = Some sb ->
     branch_of assetId target s = Some tb ->
     has_version_since assetId (ab_createdAt sb) s ->
     has_version_since assetId (ab_createdAt tb) s ->
     queries_pass 4 s ->
     calls_pass 3 (core s) ->
     Prisma.assetVersion_.find_by_id uuid (Prisma.assetVersion (core s)) = None ->
     exists v, (mergeBranches uuid now assetId source target userId s).1 = Ret v).
Proof.
  split.
  - intros v Hret.
    destruct (mergeBranches uuid now assetId source target userId s) as [r s'] eqn:Hrun.
    simpl in Hret. subst r. simpl. unfold VersionQueries.mergeBranches in Hrun.
    apply bind_returns in Hrun as ([l1 l2] & s2 & Hall & Hk).
    apply promise_all2_returns in Hall as (s1 & H1 & H2). simpl in *.
    destruct (getVersionsInBranch_keeps s assetId source) as (Hc1 & _ & _ & Hl1).
    destruct (getVersionsInBranch_keeps s1 assetId target) as (Hc2 & _ & _ & Hl2).
    rewrite H1 in Hc1, Hl1. rewrite H2 in Hc2, Hl2. simpl in *.
    destruct (Hl1 l1 eq_refl) as (sb & _ & ->). destruct (Hl2 l2 eq_refl) as (tb & _ & ->).
    rewrite Hc1 in *.
    destruct (head (selected (query_of assetId (since (ab_createdAt sb))) _)) as [x|] eqn:Hx;
      [|done].
    destruct (head (selected (query_of assetId (since (ab_createdAt tb))) _)) as [y|] eqn:Hy;
      [|done].
    rewrite selected_since in Hx, Hy.
    pose proof (same_latest _ _ _ _ _ _ (newest_first_sorted _) Hx Hy) as <-.
    apply bind_returns in Hk as (changes & s3 & Hcompare & Hcreate).
    apply on_core_returns in Hcompare as (db3 & Hcompare & ->).
    apply compare_same_returns in Hcompare as [-> Ht3].
    apply on_core_returns in Hcreate as (db4 & Hcreate & ->).
    apply createVersion_returns in Hcreate as [-> Ht4]. simpl in *.
    split; [done|]. by rewrite Ht4, Ht3, Hc2.
  - intros sb tb Hsb Htb Hvs Hvt Hq Hc Hfresh.
    pose proof (Hq 0%nat ltac:(lia)) as Hq0. rewrite Nat.add_0_r in Hq0.
    pose proof (Hq 1%nat ltac:(lia)) as Hq1.
    pose proof (Hq 2%nat ltac:(lia)) as Hq2.
    pose proof (Hq 3%nat ltac:(lia)) as Hq3.
    destruct (head_since _ _ _ Hvs) as [x Hx]. destruct (head_since _ _ _ Hvt) as [y Hy].
    assert (x = y) as <-.
    { rewrite selected_since in Hx, Hy.
      by apply (same_latest _ _ _ _ _ _ (newest_first_sorted _) Hx Hy). }
    assert (Hin : In x (Prisma.assetVersion (core s))).
    { apply head_In in Hx. by apply selected_In in Hx as [? _]. }
    destruct (find_by_id_exists _ _ Hin) as [A HA].
    unfold VersionQueries.mergeBranches, promise_all2. unfold bind at 1.
    rewrite getVersionsInBranch_run, Hq0, Hsb. cbv zeta.
    rewrite getVersions_run. simpl. rewrite length_app. simpl. rewrite Hq1. simpl.
    rewrite getVersionsInBranch_run. simpl. rewrite !length_app. simpl.
    replace (length (calls s) + 1 + 1)%nat with (length (calls s) + 2)%nat by lia.
    rewrite Hq2. unfold branch_of in *. simpl. rewrite Htb.
    rewrite getVersions_run. simpl. rewrite !length_app. simpl.
    replace (length (calls s) + 1 + 1 + 1)%nat with (length (calls s) + 3)%nat by lia.
    rewrite Hq3. simpl. rewrite Hx, Hy.
    unfold bind, on_core, zoom. simpl.
    pose proof (calls_pass_two 3 _ ltac:(lia) Hc) as Hc2.
    destruct (compareVersions_run diff_main diff_cleanupSemantic (core s) (v_id x) (v_id x) Hc2)
      as [Hrun _].
    destruct (compareVersions_state (core s) (v_id x) (v_id x)) as (Hfaults & Hcalls & Htable).
    rewrite HA in Hrun.
    destruct (compareVersions (v_id x) (v_id x) (core s)) as [r db3]. simpl in *. subst r.
    match goal with
    | |- context [VersionManager.createVersion ?u ?n ?a ?us ?ch ?d ?tg db3] =>
        pose proof (createVersion_run db3 u n a us ch d tg) as Hcreate;
        destruct (VersionManager.createVersion u n a us ch d tg db3) as [r4 db4]
    end.
    simpl in *. eexists. apply Hcreate.
    + rewrite Hfaults, Hcalls, length_app. simpl. apply Hc. lia.
    + by rewrite Htable.
Qed.

Lemma createVersion_throws store uuid now assetId userId changes description tags e :
  (VersionManager.createVersion uuid now assetId userId changes description tags store).1
    = Throw e ->
  Prisma.assetVersion
    (VersionManager.createVersion uuid now assetId userId changes description tags store).2
    = Prisma.assetVersion store.
Proof.
  unfold VersionManager.createVersion, Prisma.assetVersion_.create, Prisma.call, bind, ret.
  destruct (Prisma.faults store (length (Prisma.calls store))); simpl; [done|].
  by destruct (Prisma.assetVersion_.find_by_id uuid (Prisma.assetVersion store)).
Qed.

Lemma head_selected_since s assetId time x :
  head (selected (query_of assetId (since time)) (Prisma.assetVersion (core s))) = Some x ->
  has_version_since assetId time s.
Proof.
  intros Hx. apply head_In, selected_In in Hx as [Hin Hm].
  rewrite since_matches in Hm. apply andb_true_iff in Hm as [Ha Ht].
  exists x. split; [done|]. split; [by apply String.eqb_eq|lia].
Qed.

(** A merge that throws has written nothing: the table of versions and
    the branches are as they were. *)
Theorem failed_merge_writes_nothing s uuid now assetId source target userId e :
  (mergeBranches uuid now assetId source target userId s).1 = Throw e ->
  Prisma.assetVersion (core (mergeBranches uuid now assetId source target userId s).2)
    = Prisma.assetVersion (core s) /\
  assetBranch (mergeBranches uuid now assetId source target userId s).2 = assetBranch s.
Proof.
  unfold VersionQueries.mergeBranches, promise_all2, bind.
  destruct (getVersionsInBranch_keeps s assetId source) as (Hc1 & Hb1 & _ & _).
  destruct (getVersionsInBranch assetId source s) as [r1 s1]. simpl in Hc1, Hb1.
  destruct (getVersionsInBranch_keeps s1 assetId target) as (Hc2 & Hb2 & _ & _).
  destruct (getVersionsInBranch assetId target s1) as [r2 s2]. simpl in Hc2, Hb2.
  assert (Hc : core s2 = core s) by congruence.
  assert (Hb : assetBranch s2 = assetBranch s) by congruence.
  destruct r1 as [l1|e1], r2 as [l2|e2]; simpl; try (intros _; split; congruence).
  destruct (head l1) as [x|]; [|simpl; intros _; split; congruence].
  destruct (head l2) as [y|]; [|simpl; intros _; split; congruence].
  unfold on_core, zoom.
  destruct (compareVersions_state (core s2) (v_id x) (v_id y)) as (_ & _ & Ht3).
  destruct (compareVersions (v_id x) (v_id y) (core s2)) as [r3 db3]. simpl in Ht3.
  destruct r3 as [changes|e3]; simpl; [|intros _; split; congruence].
  match goal with
  | |- context [VersionManager.createVersion ?u ?n ?a ?us ?ch ?d ?tg db3] =>
      pose proof (createVersion_throws db3 u n a us ch d tg) as Hcreate;
      destruct (VersionManager.createVersion u n a us ch d tg db3) as [r4 db4]
  end.
  simpl in *. intros ->. specialize (Hcreate e eq_refl). split; congruence.
Qed.

(** What a merge reports when something is missing, the four lookups of
    the branches and their versions returning: a source that is not
    there beside a target that is, by the source's name; a target that
    is not there, by its name; and a branch of an asset without a version
    at or after the branch's creation, as a missing version. *)
Theorem mergeBranches_reports_what_is_missing s uuid now assetId source target userId :
  queries_pass 4 s ->
  (branch_of assetId source s = None ->
   (exists tb, branch_of assetId target s = Some tb) ->
   (mergeBranches uuid now assetId source target userId s).1
     = Throw (branch_not_found source)) /\
  ((exists sb, branch_of assetId source s = Some sb) ->
   branch_of assetId target s = None ->
   (mergeBranches uuid now assetId source target userId s).1
     = Throw (branch_not_found target)) /\
  (forall sb tb,
     branch_of assetId source s = Some sb ->
     branch_of assetId target s = Some tb ->
     ~ has_version_since assetId (ab_createdAt sb) s \/
     ~ has_version_since assetId (ab_createdAt tb) s ->
     (mergeBranches uuid now assetId source target userId s).1
       = Throw source_or_target_not_found).
Proof.
  intros Hq.
  pose proof (Hq 0%nat ltac:(lia)) as Hq0. rewrite Nat.add_0_r in Hq0.
  pose proof (Hq 1%nat ltac:(lia)) as Hq1.
  pose proof (Hq 2%nat ltac:(lia)) as Hq2.
  pose proof (Hq 3%nat ltac:(lia)) as Hq3.
  split; [|split].
  - intros Hnone _.
    unfold VersionQueries.mergeBranches, promise_all2, bind.
    rewrite getVersionsInBranch_run, Hq0, Hnone. cbv zeta. cbv iota beta.
    match goal with
    | |- context [getVersionsInBranch assetId target ?S] =>
        by destruct (getVersionsInBranch assetId target S) as [r2 s2]
    end.
  - intros [sb Hsb] Hnone.
    unfold VersionQueries.mergeBranches, promise_all2, bind.
    rewrite getVersionsInBranch_run, Hq0, Hsb. cbv zeta.
    rewrite getVersions_run. simpl. rewrite length_app. simpl. rewrite Hq1. simpl.
    rewrite getVersionsInBranch_run. simpl. rewrite !length_app. simpl.
    replace (length (calls s) + 1 + 1)%nat with (length (calls s) + 2)%nat by lia.
    rewrite Hq2. unfold branch_of in *. simpl. by rewrite Hnone.
  - intros sb tb Hsb Htb Hno.
    unfold VersionQueries.mergeBranches, promise_all2. unfold bind at 1.
    rewrite getVersionsInBranch_run, Hq0, Hsb. cbv zeta.
    rewrite getVersions_run. simpl. rewrite length_app. simpl. rewrite Hq1. simpl.
    rewrite getVersionsInBranch_run. simpl. rewrite !length_app. simpl.
    replace (length (calls s) + 1 + 1)%nat with (length (calls s) + 2)%nat by lia.
    rewrite Hq2. unfold branch_of in *. simpl. rewrite Htb.
    rewrite getVersions_run. simpl. rewrite !length_app. simpl.
    replace (length (calls s) + 1 + 1 + 1)%nat with (length (calls s) + 3)%nat by lia.
    rewrite Hq3. simpl.
    destruct (head (selected (query_of assetId (since (ab_createdAt sb))) _)) as [x|] eqn:Hx;
      [|done].
    destruct (head (selected (query_of assetId (since (ab_createdAt tb))) _)) as [y|] eqn:Hy;
      [|done].
    apply head_selected_since in Hx, Hy. by destruct Hno.
Qed.

End MergeMore.

Lemma mergeBranches_commits_no_changes_witness :
  exists v,
    (VersionQueries.mergeBranches VersionExamples.replace_all VersionExamples.keep
       "M1" 9 "asset-1" "feature" "main" "user-2" library).1 = Ret v /\
    v_changes v = [] /\
    v_tags v = ["merge"] /\
    v_description v = "Merged feature into main".
Proof.
  destruct (mergeBranches_commits_no_changes VersionExamples.replace_all VersionExamples.keep
              library "M1" 9 "asset-1" "feature" "main" "user-2") as [Hsafe Hlive].
  destruct (Hlive feature_branch main_branch eq_refl eq_refl) as [v Hv].
  - exists a3. split; [right; right; left; reflexivity|]. split; [reflexivity|]. vm_compute.
    discriminate.
  - exists a3. split; [right; right; left; reflexivity|]. split; [reflexivity|]. vm_compute.
    discriminate.
  - intros k _. reflexivity.
  - intros k _. reflexivity.
  - reflexivity.
  - exists v. split; [exact Hv|]. destruct (Hsafe v Hv) as [-> _].
    split; [reflexivity|]. split; reflexivity.
Defined.

Lemma failed_merge_writes_nothing_witness :
  Prisma.assetVersion
    (core (VersionQueries.mergeBranches VersionExamples.replace_all VersionExamples.keep
             "M1" 9 "asset-1" "gone" "main" "user-2" library).2)
    = [a1; b1; a3; a2].
Proof.
  apply (failed_merge_writes_nothing VersionExamples.replace_all VersionExamples.keep
           library "M1" 9 "asset-1" "gone" "main" "user-2" (branch_not_found "gone")).
  reflexivity.
Defined.

Lemma mergeBranches_reports_what_is_missing_witness :
  (VersionQueries.mergeBranches VersionExamples.replace_all VersionExamples.keep
     "M1" 9 "asset-1" "gone" "main" "user-2" library).1 = Throw (branch_not_found "gone") /\
  (VersionQueries.mergeBranches VersionExamples.replace_all VersionExamples.keep
     "M1" 9 "asset-1" "main" "gone" "user-2" library).1 = Throw (branch_not_found "gone") /\
  (VersionQueries.mergeBranches VersionExamples.replace_all VersionExamples.keep
     "M1" 9 "asset-1" "late" "main" "user-2"
     (quiet [a1; a2] [main_branch; mkAssetBranchRow "asset-1" "late" "A2" 7])).1
    = Throw source_or_target_not_found.
Proof.
  destruct (mergeBranches_reports_what_is_missing VersionExamples.replace_all
              VersionExamples.keep library "M1" 9 "asset-1" "gone" "main" "user-2"
              (fun k _ => eq_refl)) as (Hsource & _ & _).
  destruct (mergeBranches_reports_what_is_missing VersionExamples.replace_all
              VersionExamples.keep library "M1" 9 "asset-1" "main" "gone" "user-2"
              (fun k _ => eq_refl)) as (_ & Htarget & _).
  destruct (mergeBranches_reports_what_is_missing VersionExamples.replace_all
              VersionExamples.keep
              (quiet [a1; a2] [main_branch; mkAssetBranchRow "asset-1" "late" "A2" 7])
              "M1" 9 "asset-1" "late" "main" "user-2" (fun k _ => eq_refl))
    as (_ & _ & Hversion).
  split; [|split].
  - apply Hsource; [reflexivity|]. exists main_branch. reflexivity.
  - apply Htarget; [|reflexivity]. exists main_branch. reflexivity.
  - apply (Hversion (mkAssetBranchRow "asset-1" "late" "A2" 7) main_branch eq_refl eq_refl).
    left. intros (v & Hin & _ & Ht). simpl in Hin, Ht.
    destruct Hin as [<-|[<-|[]]]; vm_compute in Ht; apply Ht; reflexivity.
Defined.

End Queries.
(** * The history of an asset *)

Section History.

Import CollaborationManager Examples PrismaQueries CollaborationQueries QueryViews HistoryViews.
Import Sorted.

Implicit Types (w : World) (h : Prisma.AssetHistoryRow).

(** *** Reading the history *)

Lemma insert_asc_Permutation h l : Permutation (insert_asc h l) (h :: l).
Proof.
  induction l as [|x l IH]; simpl; [done|].
  destruct (Prisma.ah_timestamp h <=? Prisma.ah_timestamp x); [done|].
  rewrite IH. apply perm_swap.
Qed.

Lemma oldest_first_Permutation l : Permutation (oldest_first l) l.
Proof.
  unfold oldest_first. induction l as [|x l IH]; simpl; [done|].
  by rewrite insert_asc_Permutation, IH.
Qed.

Lemma insert_asc_sorted h l :
  StronglySorted row_not_later l -> StronglySorted row_not_later (insert_asc h l).
Proof.
  induction 1 as [|y l Hsorted IH Hall]; simpl.
  - repeat constructor.
  - destruct (Z.leb_spec (Prisma.ah_timestamp h) (Prisma.ah_timestamp y)) as [Hle|Hgt].
    + constructor; [by constructor|]. constructor; [done|].
      apply Forall_forall. intros x Hx. rewrite Forall_forall in Hall.
      specialize (Hall x Hx). unfold row_not_later in *. lia.
    + constructor; [done|]. rewrite insert_asc_Permutation. constructor; [|done].
      unfold row_not_later. lia.
Qed.

Lemma oldest_first_sorted l : StronglySorted row_not_later (oldest_first l).
Proof.
  unfold oldest_first. induction l as [|y l IH]; simpl; [constructor|].
  by apply insert_asc_sorted.
Qed.

Lemma filter_Permutation_bool {A} (f : A -> bool) (l l' : list A) :
  Permutation l l' -> Permutation (List.filter f l) (List.filter f l').
Proof.
  induction 1 as [|x l l' _ IH|x y l|l l' l'' _ IH1 _ IH2]; simpl.
  - done.
  - destruct (f x); [by constructor|done].
  - destruct (f x), (f y); try done. apply perm_swap.
  - by etrans.
Qed.

Lemma map_sorted {A B} (R : A -> A -> Prop) (R' : B -> B -> Prop) (f : A -> B) (l : list A) :
  (forall a b, In a l -> In b l -> R a b -> R' (f a) (f b)) ->
  StronglySorted R l -> StronglySorted R' (map f l).
Proof.
  intros Hf Hl. induction Hl as [|y l Hsorted IH Hall]; simpl; [constructor|].
  constructor.
  - apply IH. intros a b Ha Hb. apply Hf; by right.
  - apply Forall_forall. intros b Hb. apply list_elem_of_In, in_map_iff in Hb as (a & <- & Ha).
    rewrite Forall_forall in Hall. apply Hf; [by left|by right|].
    by apply Hall, list_elem_of_In.
Qed.

(** When its call returns, [getAssetHistory] returns the operations of
    the rows of the asset, each row once, the rows ordered by their
    timestamps; where every row carries the timestamp of its operation,
    the operations are oldest first. The table is not changed. *)
Theorem getAssetHistory_reads_the_asset s assetId :
  faults s (length (calls s)) = None ->
  exists rows,
    (getAssetHistory assetId s).1 = Ret (map Prisma.ah_data rows) /\
    Permutation rows (List.filter (of_asset assetId) (Prisma.assetHistory (core s))) /\
    StronglySorted row_not_later rows /\
    ((forall h, In h (Prisma.assetHistory (core s)) ->
                Prisma.ah_timestamp h = op_timestamp (Prisma.ah_data h)) ->
     StronglySorted not_later (map Prisma.ah_data rows)) /\
    core (getAssetHistory assetId s).2 = core s.
Proof.
  intros Hf.
  unfold getAssetHistory, assetHistory_findMany_, call, bind, gets, ret. rewrite Hf. simpl.
  eexists. split; [reflexivity|].
  assert (Hperm : Permutation
            (List.filter (fun h => String.eqb (Prisma.ah_assetId h) assetId)
                         (oldest_first (Prisma.assetHistory (core s))))
            (List.filter (of_asset assetId) (Prisma.assetHistory (core s)))).
  { apply filter_Permutation_bool, oldest_first_Permutation. }
  assert (Hsorted : StronglySorted row_not_later
            (List.filter (fun h => String.eqb (Prisma.ah_assetId h) assetId)
                         (oldest_first (Prisma.assetHistory (core s))))).
  { apply filter_sorted, oldest_first_sorted. }
  split; [done|]. split; [done|]. split; [|done].
  intros Hstamp. apply (map_sorted row_not_later); [|done].
  intros a b Ha Hb. unfold row_not_later, not_later.
  rewrite !Hstamp; [done| |].
  - rewrite Hperm in Hb. by apply filter_In in Hb as [? _].
  - rewrite Hperm in Ha. by apply filter_In in Ha as [? _].
Qed.

Lemma getAssetHistory_reads_the_asset_witness :
  exists rows,
    (getAssetHistory "doc-1"
       (queries_on (prisma (on_operation sock1 typing 10 (joined no_faults)).2) no_faults)).1
      = Ret (map Prisma.ah_data rows) /\
    Permutation rows [history_row "doc-1" (stamp typing "u1" 10)].
Proof.
  destruct (getAssetHistory_reads_the_asset
              (queries_on (prisma (on_operation sock1 typing 10 (joined no_faults)).2) no_faults)
              "doc-1" eq_refl) as (rows & Hret & Hperm & _).
  exists rows. split; [exact Hret|exact Hperm].
Defined.

(** *** What is broadcast is in the history *)

Lemma silent_ret {A} (a : A) : silent (ret a).
Proof. intros w. split; [|done]. exists []. by rewrite app_nil_r. Qed.

Lemma silent_throw {A} e : silent (@throw World A e).
Proof. intros w. split; [|done]. exists []. by rewrite app_nil_r. Qed.

Lemma silent_gets {A} (f : World -> A) : silent (gets f).
Proof. intros w. split; [|done]. exists []. by rewrite app_nil_r. Qed.

Lemma silent_modify (f : World -> World) :
  (forall w, emitted (f w) = emitted w /\ prisma (f w) = prisma w) -> silent (modify f).
Proof.
  intros Hf w. destruct (Hf w) as [He Hp]. unfold modify. simpl. split; [|by rewrite Hp].
  exists []. by rewrite app_nil_r.
Qed.

Lemma silent_emit t event p : event <> "operation" -> silent (emit t event p).
Proof.
  intros Hev w. unfold emit, modify. simpl. split; [|done].
  eexists. split; [done|]. by repeat constructor.
Qed.

Lemma silent_bind {A B} (m : M World A) (k : A -> M World B) :
  silent m -> (forall a, silent (k a)) -> silent (bind m k).
Proof.
  intros Hm Hk w. unfold bind. destruct (Hm w) as [(es & He & Hes) Hp].
  destruct (m w) as [[a|e] w1]; simpl in *; [|by eauto].
  destruct (Hk a w1) as [(es' & He' & Hes') Hp']. split; [|congruence].
  exists (es ++ es'). rewrite He', He, app_assoc. split; [done|]. by apply Forall_app.
Qed.

Lemma silent_try_catch {A} (m : M World A) (handler : Thrown -> M World A) :
  silent m -> (forall e, silent (handler e)) -> silent (try_catch m handler).
Proof.
  intros Hm Hh w. unfold try_catch. destruct (Hm w) as [(es & He & Hes) Hp].
  destruct (m w) as [[a|e] w1]; simpl in *; [by eauto|].
  destruct (Hh e w1) as [(es' & He' & Hes') Hp']. split; [|congruence].
  exists (es ++ es'). rewrite He', He, app_assoc. split; [done|]. by apply Forall_app.
Qed.

Lemma silent_db {A} (m : M Prisma.Store A) :
  (forall store, Prisma.assetHistory (m store).2 = Prisma.assetHistory store) ->
  silent (db m).
Proof.
  intros Hm w. unfold db, zoom. specialize (Hm (prisma w)).
  destruct (m (prisma w)) as [r store]. simpl in *. split; [|done].
  exists []. by rewrite app_nil_r.
Qed.

Lemma silent_with_ids sock (k : string -> string -> M World unit) :
  (forall sessionId userId, silent (k sessionId userId)) -> silent (with_ids sock k).
Proof.
  intros Hk. unfold with_ids.
  destruct (truthy (sock_sessionId sock)); [|apply silent_ret].
  destruct (truthy (sock_userId sock)); [apply Hk|apply silent_ret].
Qed.

Lemma silent_covers {A} (m : M World A) w :
  silent m -> history_covers w -> history_covers (m w).2.
Proof.
  intros Hm Hw sessionId operation. destruct (Hm w) as [(es & -> & Hes) ->].
  rewrite in_app_iff. intros [Hin|Hin]; [by apply Hw|].
  rewrite Forall_forall in Hes. apply list_elem_of_In in Hin. by destruct (Hes _ Hin).
Qed.

Ltac silence :=
  repeat first
    [ apply silent_ret | apply silent_throw | apply silent_gets
    | apply silent_emit; discriminate
    | apply silent_modify; intros ?; split; reflexivity
    | apply silent_db; intros ?
    | apply silent_bind; [|intros ?]
    | apply silent_try_catch; [|intros ?]
    | apply silent_with_ids; intros ? ?
    | progress cbv zeta
    | match goal with
      | |- silent (match ?x with _ => _ end) => destruct x
      | |- silent (if ?x then _ else _) => destruct x
      end ].

Lemma silent_store_session sessionId session : silent (store_session sessionId session).
Proof. unfold store_session. silence. Qed.

Lemma silent_joinSession sessionId user_id user_name now :
  silent (joinSession sessionId user_id user_name now).
Proof.
  unfold joinSession. apply silent_bind.
  - intros w. destruct (sessions w !! sessionId); simpl; (split; [|done]);
      exists []; by rewrite app_nil_r.
  - intros session. destruct (List.find _ _); [apply silent_ret|apply silent_store_session].
Qed.

Lemma silent_broadcastUserList sessionId : silent (broadcastUserList sessionId).
Proof. unfold broadcastUserList. silence. Qed.

Lemma silent_broadcastLockState sessionId : silent (broadcastLockState sessionId).
Proof. unfold broadcastLockState. silence. Qed.

Lemma silent_report e : silent (report e).
Proof. unfold report. silence. Qed.

Lemma silent_on_join data_userId data_assetId now :
  silent (on_join data_userId data_assetId now).
Proof.
  unfold on_join. cbv zeta. apply silent_bind.
  - apply silent_db. intros store.
    unfold Prisma.user_.findUnique, Prisma.call, gets.
    by destruct (Prisma.faults store (length (Prisma.calls store))).
  - intros [user|]; [|silence].
    apply silent_bind; [apply silent_joinSession|intros _].
    unfold getSessionState. apply silent_bind; [apply silent_gets|intros state].
    apply silent_bind; [silence|intros _]. apply silent_broadcastUserList.
Qed.

Lemma silent_on_cursor_move sock data : silent (on_cursor_move sock data).
Proof.
  unfold on_cursor_move, updateUserCursor. silence; apply silent_store_session.
Qed.

Lemma silent_on_selection_change sock data : silent (on_selection_change sock data).
Proof.
  unfold on_selection_change, updateUserSelection. silence; apply silent_store_session.
Qed.

Lemma silent_on_request_lock sock now : silent (on_request_lock sock now).
Proof.
  unfold on_request_lock, lockAsset. apply silent_with_ids. intros sessionId userId.
  apply silent_try_catch; [|intros e; apply silent_report].
  apply silent_bind; [|intros _; apply silent_broadcastLockState].
  apply silent_bind; [apply silent_gets|intros [session|]; [|apply silent_throw]].
  cbv zeta.
  assert (Hgrant : silent
    (do _ <- store_session sessionId
               (set_locked (Some (mkLock userId (now + LOCK_DURATION))) session);
     db (Prisma.assetLock_.upsert sessionId
           (Prisma.mkAssetLockRow userId
              (lock_until (mkLock userId (now + LOCK_DURATION))))))).
  { apply silent_bind; [apply silent_store_session|intros _].
    apply silent_db. intros store.
    unfold Prisma.assetLock_.upsert, Prisma.call, modify.
    by destruct (Prisma.faults store (length (Prisma.calls store))). }
  destruct (cs_locked session) as [l|]; [|exact Hgrant].
  destruct (lock_until l >? now); [|exact Hgrant].
  destruct (negb _); [apply silent_throw|apply silent_ret].
Qed.

Lemma silent_on_release_lock sock : silent (on_release_lock sock).
Proof.
  unfold on_release_lock, releaseLock. apply silent_with_ids. intros sessionId userId.
  apply silent_try_catch; [|intros e; apply silent_report].
  apply silent_bind; [|intros _; apply silent_broadcastLockState].
  apply silent_bind; [apply silent_gets|intros [session|]; [|apply silent_throw]].
  destruct (cs_locked session) as [l|]; [|apply silent_throw].
  destruct (negb _); [apply silent_throw|].
  apply silent_bind; [apply silent_store_session|intros _].
  apply silent_db. intros store.
  unfold Prisma.assetLock_.delete_, Prisma.call.
  destruct (Prisma.faults store (length (Prisma.calls store))); [done|]. simpl.
  by destruct (Prisma.assetLock _ !! sessionId).
Qed.

Lemma silent_on_disconnect sock : silent (on_disconnect sock).
Proof.
  unfold on_disconnect, leaveSession. apply silent_with_ids. intros sessionId userId.
  apply silent_bind; [|intros _; apply silent_broadcastUserList].
  apply silent_bind; [apply silent_gets|intros [session|]; [|apply silent_ret]].
  cbv zeta. apply silent_bind; [apply silent_store_session|intros _].
  destruct (_ =? _)%nat; [|apply silent_ret]. silence.
Qed.

Lemma silent_cleanup now : silent (cleanup now).
Proof.
  unfold cleanup. apply silent_bind.
  - apply silent_db. intros store.
    unfold Prisma.assetLock_.deleteMany_expired, Prisma.call, modify.
    by destruct (Prisma.faults store (length (Prisma.calls store))).
  - intros _. silence.
Qed.

Lemma on_operation_covers w sock data now :
  buffers_match w -> history_covers w -> history_covers (on_operation sock data now w).2.
Proof.
  intros Hmatch Hw.
  destruct (truthy (sock_sessionId sock)) as [sessionId|] eqn:Hsid;
    [|by rewrite on_operation_unjoined; [|left]].
  destruct (truthy (sock_userId sock)) as [userId|] eqn:Huid;
    [|by rewrite on_operation_unjoined; [|right]].
  assert (Hrefused : history_covers (set_emitted (emitted w ++ [edit_refused]) w)).
  { intros sid op. simpl. rewrite in_app_iff. intros [Hin|[Hin|[]]]; [by apply Hw|done]. }
  destruct (sessions w !! sessionId) as [session|] eqn:Hs.
  - destruct (session_has_buffer _ _ _ Hmatch Hs) as [ops Hops].
    destruct (may_edit_dec session userId now) as [Hedit|Hno].
    + rewrite (on_operation_allowed _ _ _ _ _ _ data now Hsid Huid Hs Hops Hedit).
      destruct (Prisma.faults (prisma w) (length (Prisma.calls (prisma w)))) as [msg|];
        intros sid op; simpl; rewrite !in_app_iff.
      * intros [Hin|[Hin|[]]]; [by apply Hw|done].
      * intros [Hin|[Hin|[]]]; [left; by apply Hw|]. right. left.
        unfold broadcast_of in Hin. by simplify_eq.
    + rewrite (on_operation_refused _ _ _ _ data now Hsid Huid); [done|].
      intros session' Hs'. rewrite Hs in Hs'. by simplify_eq.
  - rewrite (on_operation_refused _ _ _ _ data now Hsid Huid); [done|].
    intros session' Hs'. rewrite Hs in Hs'. done.
Qed.

Lemma reachable_history_covers w : reachable w -> history_covers w.
Proof.
  induction 1 as [store|w ev now Hw IH].
  - intros sid op [].
  - apply reachable_buffers_match in Hw.
    destruct ev; simpl;
      [ apply silent_covers; [apply silent_on_join|done]
      | apply silent_covers; [apply silent_on_cursor_move|done]
      | apply silent_covers; [apply silent_on_selection_change|done]
      | by apply on_operation_covers
      | apply silent_covers; [apply silent_on_request_lock|done]
      | apply silent_covers; [apply silent_on_release_lock|done]
      | apply silent_covers; [apply silent_on_disconnect|done]
      | apply silent_covers; [apply silent_cleanup|done] ].
Qed.

(** In every state that the manager reaches, an operation that was
    broadcast to a room has its row in the history, and
    [getAssetHistory] of the room's asset, when its call returns, has the
    operation among those it returns. *)
Theorem broadcast_operations_are_in_history w sessionId operation queryFaults :
  reachable w ->
  In (broadcast_of sessionId operation) (emitted w) ->
  queryFaults 0%nat = None ->
  In (history_row sessionId operation) (Prisma.assetHistory (prisma w)) /\
  exists ops,
    (getAssetHistory sessionId (queries_on (prisma w) queryFaults)).1 = Ret ops /\
    In operation ops.
Proof.
  intros Hw Hin Hf. apply reachable_history_covers in Hw. specialize (Hw _ _ Hin).
  split; [done|].
  unfold getAssetHistory, assetHistory_findMany_, call, bind, gets, ret. simpl.
  rewrite Hf. simpl. eexists. split; [reflexivity|].
  apply in_map_iff. exists (history_row sessionId operation). split; [done|].
  apply filter_In. split; [|apply String.eqb_refl].
  by rewrite oldest_first_Permutation.
Qed.

Lemma broadcast_operations_are_in_history_witness :
  exists ops,
    (getAssetHistory "doc-1"
       (queries_on (prisma (handle (EvOperation sock1 typing) 10 (joined no_faults)).2)
                   no_faults)).1 = Ret ops /\
    In (stamp typing "u1" 10) ops.
Proof.
  assert (Hw : reachable (handle (EvOperation sock1 typing) 10 (joined no_faults)).2).
  { apply reachable_handle. unfold joined. apply reachable_handle, reachable_initial. }
  apply (broadcast_operations_are_in_history _ "doc-1" (stamp typing "u1" 10) no_faults Hw).
  - vm_compute. right. right. left. reflexivity.
  - reflexivity.
Defined.

End History.
